(** * hello-a2a: the A2A runtime, embedded and checked against its specification

    Part I embeds the program: the Python values the code passes around, the
    web-UI host manager ([hosts/webui/frontend/service/server]), the 0.2
    agent-selection server ([0.2/app.py], [0.2/__main__.py]) and the 0.1 type
    model and task manager ([0.1/common/types.py], [0.1/agents/task_manager.py]).
    Part II states and proves the properties. *)

From Stdlib Require Import ZArith Floats SpecFloat Ascii String List Bool Lia.
From stdpp Require Import base option list gmap strings.

Set Warnings "-inexact-float".
Local Open Scope string_scope.
Local Open Scope list_scope.

(* ===================================================================== *)
(** * Part I: the embedding                                               *)
(* ===================================================================== *)

(** ** Python values shared by the models *)
Module Py.

(** The exceptions the modelled code raises or lets through. *)
Inductive exn : Type :=
| ValueError (msg : string)
| ValidationError (msg : string)
| OtherError (msg : string).

(** [str(e)] *)
Definition str_of_exn (e : exn) : string :=
  match e with
  | ValueError msg | ValidationError msg | OtherError msg => msg
  end.

(** The result of running a call: it returns a value or raises. *)
Inductive outcome (A : Type) : Type :=
| Returned (a : A)
| Raised (e : exn).
Arguments Returned {A} a.
Arguments Raised {A} e.

Definition bind {A B} (c : outcome A) (k : A -> outcome B) : outcome B :=
  match c with
  | Returned a => k a
  | Raised e => Raised e
  end.

Definition of_option {A} (e : exn) (o : option A) : outcome A :=
  match o with
  | Some a => Returned a
  | None => Raised e
  end.

Definition returned {A} (c : outcome A) : bool :=
  match c with
  | Returned _ => true
  | Raised _ => false
  end.

(** Truthiness, as [if x:] and [not x] test it. *)
Definition truthy_str (s : string) : bool :=
  match s with
  | EmptyString => false
  | String _ _ => true
  end.

Definition truthy_opt_str (o : option string) : bool :=
  match o with
  | Some s => truthy_str s
  | None => false
  end.

Definition truthy_opt_bool (o : option bool) : bool :=
  match o with
  | Some b => b
  | None => false
  end.

Definition truthy_list {A} (l : list A) : bool :=
  match l with
  | [] => false
  | _ :: _ => true
  end.

Definition truthy_opt_list {A} (o : option (list A)) : bool :=
  match o with
  | Some l => truthy_list l
  | None => false
  end.

(** [max(a, b)] of two floats: the first argument unless the second is greater. *)
Definition max (a b : float) : float :=
  if PrimFloat.ltb a b then b else a.

End Py.

(** [outcome] is used with stdpp's monad notation [x ← c; k]. *)
#[global] Instance outcome_ret : MRet Py.outcome := @Py.Returned.
#[global] Instance outcome_bind : MBind Py.outcome :=
  fun A B k c => Py.bind c k.

(** ** JSON-shaped Python data: what [json.loads] yields and [model_dump] builds *)
Module Json.

#[warnings="-register-all"]
Inductive json : Type :=
| JNull
| JBool (b : bool)
| JInt (z : Z)
| JFloat (f : float)
| JStr (s : string)
| JList (l : list json)
| JDict (kv : list (string * json)).

(** A dict's entries in insertion order; a key is looked up by equality. *)
Fixpoint lookup (k : string) (kv : list (string * json)) : option json :=
  match kv with
  | [] => None
  | (k', v) :: rest => if String.eqb k k' then Some v else lookup k rest
  end.

(** [d.get(k)] with an absent key and an explicit [None] both read as [JNull]. *)
Definition get (k : string) (kv : list (string * json)) : json :=
  match lookup k kv with
  | Some v => v
  | None => JNull
  end.

Definition has (k : string) (kv : list (string * json)) : bool :=
  match lookup k kv with
  | Some _ => true
  | None => false
  end.

End Json.

(** ** The web-UI host manager
    [hosts/webui/frontend/service/server/adk_host_manager.py] and
    [in_memory_manager.py]. *)
Module HostManager.
Import Json.

(** *** The [a2a.types] shapes the manager handles.
    The SDK is a dependency of the repository; these records carry the fields
    the manager reads and writes. *)
Inductive TaskState : Type :=
| submitted | working | input_required | completed | canceled
| failed | rejected | auth_required | unknown.

Inductive Role : Type := user | agent.

Inductive Part : Type :=
| TextPart (text : string)
| FilePart (file : json)
| DataPart (data : json).

Record Message : Type := mkMessage {
  messageId : string;
  msg_role : Role;
  msg_parts : list Part;
  msg_taskId : option string;
  msg_contextId : option string }.

Record TaskStatus : Type := mkTaskStatus {
  state : TaskState;
  message : option Message;
  timestamp : option string }.

Record Artifact : Type := mkArtifact {
  artifactId : string;
  art_name : option string;
  art_description : option string;
  art_parts : list Part }.

Record Task : Type := mkTask {
  id : string;
  contextId : string;
  status : TaskStatus;
  artifacts : option (list Artifact);
  history : option (list Message) }.

Record TaskStatusUpdateEvent : Type := mkTaskStatusUpdateEvent {
  sue_taskId : string;
  sue_contextId : string;
  sue_status : TaskStatus;
  sue_final : bool }.

Record TaskArtifactUpdateEvent : Type := mkTaskArtifactUpdateEvent {
  aue_taskId : string;
  aue_contextId : string;
  artifact : Artifact;
  append : option bool;
  lastChunk : option bool }.

(** [TaskCallbackArg = Task | TaskStatusUpdateEvent | TaskArtifactUpdateEvent] *)
Inductive TaskCallbackArg : Type :=
| ArgTask (t : Task)
| ArgStatus (e : TaskStatusUpdateEvent)
| ArgArtifact (e : TaskArtifactUpdateEvent).

(** [service/types.py]: a UI event. *)
Record Event : Type := mkEvent {
  ev_id : string;
  ev_actor : string;
  ev_content : Message;
  ev_timestamp : float }.

(** The terminal states of the specification, and [task_still_open]. *)
Definition terminal (s : TaskState) : bool :=
  match s with
  | completed | canceled | failed => true
  | _ => false
  end.

Definition task_still_open (task : option Task) : bool :=
  match task with
  | None => false
  | Some t =>
      match state (status t) with
      | submitted | working | input_required => true
      | _ => false
      end
  end.

(** Field updates, written as Python writes [obj.field = v]. *)
Definition set_status (t : Task) (s : TaskStatus) : Task :=
  mkTask (id t) (contextId t) s (artifacts t) (history t).

Definition set_artifacts (t : Task) (a : option (list Artifact)) : Task :=
  mkTask (id t) (contextId t) (status t) a (history t).

Definition set_history (t : Task) (h : option (list Message)) : Task :=
  mkTask (id t) (contextId t) (status t) (artifacts t) h.

Definition set_parts (a : Artifact) (ps : list Part) : Artifact :=
  mkArtifact (artifactId a) (art_name a) (art_description a) ps.

(** *** [ADKHostManager.process_artifact_event]

    [chunks] is [self._artifact_chunks], a dict from artifact id to the list of
    pending accumulators.  The method mutates the dict and the task in place and
    returns nothing; the model returns both.  The accumulator is the artifact of
    the first chunk itself, whose [parts] list is extended in place; every event
    is decoded afresh from the wire, so no incoming artifact is one of the
    stored objects and updating by value gives the same store. *)
Definition process_artifact_event
  (chunks : gmap string (list Artifact)) (current_task : Task)
  (task_update_event : TaskArtifactUpdateEvent)
  : gmap string (list Artifact) * Task :=
  let artifact := artifact task_update_event in
  if negb (Py.truthy_opt_bool (append task_update_event)) then
    match lastChunk task_update_event with
    | None | Some true =>
        (* complete artifact: add directly to the task *)
        let arts := if negb (Py.truthy_opt_list (artifacts current_task))
                    then [] else default [] (artifacts current_task) in
        (chunks, set_artifacts current_task (Some (arts ++ [artifact])))
    | Some false =>
        (* first chunk: stash it in the temp store *)
        let pending := default [] (chunks !! artifactId artifact) in
        (<[artifactId artifact := pending ++ [artifact]]> chunks, current_task)
    end
  else
    match chunks !! artifactId artifact with
    | None => (chunks, current_task)
    | Some pending =>
        match last pending with
        | None => (chunks, current_task)
        | Some current_temp_artifact =>
            let extended :=
              set_parts current_temp_artifact
                (art_parts current_temp_artifact ++ art_parts artifact) in
            if Py.truthy_opt_bool (lastChunk task_update_event) then
              let arts :=
                if Py.truthy_opt_list (artifacts current_task)
                then default [] (artifacts current_task) ++ [extended]
                else [extended] in
              let rest := removelast pending in
              (if Py.truthy_list rest
               then <[artifactId artifact := rest]> chunks
               else delete (artifactId artifact) chunks,
               set_artifacts current_task (Some arts))
            else
              (<[artifactId artifact := removelast pending ++ [extended]]> chunks,
               current_task)
        end
    end.

(** The events of one stream, processed in arrival order. *)
Definition process_artifact_events
  (chunks : gmap string (list Artifact)) (current_task : Task)
  (events : list TaskArtifactUpdateEvent)
  : gmap string (list Artifact) * Task :=
  fold_left (fun st ev => process_artifact_event (fst st) (snd st) ev)
            events (chunks, current_task).

(** *** The task list: [add_task], [update_task], and the lookup
    [next(filter(lambda x: x.id == task_id, self._tasks), None)] *)
Definition find_task (task_id : string) (tasks : list Task) : option Task :=
  List.find (fun x => String.eqb (id x) task_id) tasks.

(** [for i, t in enumerate(self._tasks): if t.id == task.id:
    self._tasks[i] = task; return] *)
Fixpoint update_first (task : Task) (tasks : list Task) : list Task :=
  match tasks with
  | [] => []
  | t :: rest =>
      if String.eqb (id t) (id task) then task :: rest
      else t :: update_first task rest
  end.

(** [InMemoryFakeAgentManager] keeps its tasks in a list and updates it the
    same way. *)
Module InMemoryFakeAgentManager.
Definition add_task (tasks : list Task) (task : Task) : list Task :=
  tasks ++ [task].
Definition update_task (tasks : list Task) (task : Task) : list Task :=
  update_first task tasks.
End InMemoryFakeAgentManager.

(** *** [ADKHostManager]: the fields [task_callback] touches.
    [draws] counts the [uuid.uuid4()] and [utcnow()] results consumed so far. *)
Record Manager : Type := mkManager {
  _tasks : list Task;
  _task_map : gmap string string;
  _events : gmap string Event;
  _artifact_chunks : gmap string (list Artifact);
  _processing_tasks : gset string;
  _callback_depth : gmap string Z;
  draws : nat }.

Definition with_tasks (m : Manager) (ts : list Task) : Manager :=
  mkManager ts (_task_map m) (_events m) (_artifact_chunks m)
    (_processing_tasks m) (_callback_depth m) (draws m).

Definition with_task_map (m : Manager) (tm : gmap string string) : Manager :=
  mkManager (_tasks m) tm (_events m) (_artifact_chunks m)
    (_processing_tasks m) (_callback_depth m) (draws m).

Definition with_events (m : Manager) (es : gmap string Event) : Manager :=
  mkManager (_tasks m) (_task_map m) es (_artifact_chunks m)
    (_processing_tasks m) (_callback_depth m) (draws m).

Definition with_artifact_chunks (m : Manager)
  (cs : gmap string (list Artifact)) : Manager :=
  mkManager (_tasks m) (_task_map m) (_events m) cs
    (_processing_tasks m) (_callback_depth m) (draws m).

Definition with_processing (m : Manager) (ps : gset string) : Manager :=
  mkManager (_tasks m) (_task_map m) (_events m) (_artifact_chunks m)
    ps (_callback_depth m) (draws m).

Definition with_depth (m : Manager) (d : gmap string Z) : Manager :=
  mkManager (_tasks m) (_task_map m) (_events m) (_artifact_chunks m)
    (_processing_tasks m) d (draws m).

Definition with_draws (m : Manager) (n : nat) : Manager :=
  mkManager (_tasks m) (_task_map m) (_events m) (_artifact_chunks m)
    (_processing_tasks m) (_callback_depth m) n.

Section TaskCallback.

(** What the environment supplies: the n-th identifier [str(uuid.uuid4())]
    yields, the n-th reading of [datetime.utcnow().timestamp()], and
    [str(state)] of the SDK's enum. *)
Variable uuid4 : nat -> string.
Variable utcnow : nat -> float.
Variable str_of_task_state : TaskState -> string.

Definition add_task (m : Manager) (task : Task) : Manager :=
  with_tasks m (_tasks m ++ [task]).

Definition update_task (m : Manager) (task : Task) : Manager :=
  with_tasks m (update_first task (_tasks m)).

Definition add_event (m : Manager) (event : Event) : Manager :=
  with_events m (<[ev_id event := event]> (_events m)).

(** [getattr(task, 'id', getattr(task, 'taskId', 'unknown'))] *)
Definition arg_id (task : TaskCallbackArg) : string :=
  match task with
  | ArgTask t => id t
  | ArgStatus e => sue_taskId e
  | ArgArtifact e => aue_taskId e
  end.

Definition arg_contextId (task : TaskCallbackArg) : string :=
  match task with
  | ArgTask t => contextId t
  | ArgStatus e => sue_contextId e
  | ArgArtifact e => aue_contextId e
  end.

(** [emit_event]: one UI event per callback, its content taken from the
    update. *)
Definition emit_event (m : Manager) (task : TaskCallbackArg)
  (agent_card_name : string) : Manager :=
  let context_id := arg_contextId task in
  let made (ps : list Part) (tid : string) : Message * Manager :=
    (mkMessage (uuid4 (draws m)) agent ps (Some tid) (Some context_id),
     with_draws m (S (draws m))) in
  let '(content, m1) :=
    match task with
    | ArgStatus e =>
        match message (sue_status e) with
        | Some msg => (msg, m)
        | None => made [TextPart (str_of_task_state (state (sue_status e)))]
                       (sue_taskId e)
        end
    | ArgArtifact e => made (art_parts (artifact e)) (aue_taskId e)
    | ArgTask t =>
        match message (status t) with
        | Some msg => (msg, m)
        | None =>
            if Py.truthy_opt_list (artifacts t)
            then made (concat (map art_parts (default [] (artifacts t)))) (id t)
            else made [TextPart (str_of_task_state (state (status t)))] (id t)
        end
    end in
  let event_id := uuid4 (draws m1) in
  add_event (with_draws m1 (S (draws m1)))
    (mkEvent event_id agent_card_name content (utcnow (draws m1))).

Definition attach_message_to_task (m : Manager) (msg : option Message)
  (task_id : string) : Manager :=
  match msg with
  | Some msg => with_task_map m (<[messageId msg := task_id]> (_task_map m))
  | None => m
  end.

Definition insert_message_history (task : Task) (msg : option Message) : Task :=
  match msg with
  | None => task
  | Some msg =>
      let task := match history task with
                  | None => set_history task (Some [])
                  | Some _ => task
                  end in
      if negb (Py.truthy_str (messageId msg)) then task
      else
        let h := default [] (history task) in
        match message (status task) with
        | Some sm =>
            if Py.truthy_list h then
              if negb (existsb (String.eqb (messageId sm)) (map messageId h))
              then set_history task (Some (h ++ [sm]))
              else task
            else set_history task (Some [sm])
        | None => task
        end
  end.

Definition add_or_get_task (m : Manager) (event : TaskCallbackArg)
  : Manager * Task :=
  let task_id := arg_id event in
  let '(task_id, m) :=
    if negb (Py.truthy_str task_id)
    then (uuid4 (draws m), with_draws m (S (draws m)))
    else (task_id, m) in
  match find_task task_id (_tasks m) with
  | Some current_task => (m, current_task)
  | None =>
      let current_task :=
        mkTask task_id (arg_contextId event)
          (mkTaskStatus submitted None None) (Some []) None in
      (add_task m current_task, current_task)
  end.

(** The task returned when a callback is skipped. *)
Definition skipped_task (task : TaskCallbackArg) : Task :=
  let context_id := if Py.truthy_str (arg_contextId task)
                    then arg_contextId task else "unknown" in
  mkTask (arg_id task) context_id (mkTaskStatus submitted None None)
    (Some []) None.

(** The [try] block of [task_callback]. *)
Definition handle_update (m : Manager) (task : TaskCallbackArg)
  (agent_card_name : string) : Manager * Task :=
  let m := emit_event m task agent_card_name in
  match task with
  | ArgStatus e =>
      let '(m, current_task) := add_or_get_task m task in
      let current_task := set_status current_task (sue_status e) in
      let m := attach_message_to_task m (message (sue_status e)) (id current_task) in
      let current_task :=
        insert_message_history current_task (message (sue_status e)) in
      (update_task m current_task, current_task)
  | ArgArtifact e =>
      let '(m, current_task) := add_or_get_task m task in
      let '(chunks, current_task) :=
        process_artifact_event (_artifact_chunks m) current_task e in
      let m := with_artifact_chunks m chunks in
      (update_task m current_task, current_task)
  | ArgTask t =>
      let m := attach_message_to_task m (message (status t)) (id t) in
      if negb (existsb (fun x => String.eqb (id x) (id t)) (_tasks m))
      then (add_task m t, t)
      else (update_task m t, t)
  end.

(** The [finally] block: clear the processing mark and step the depth down. *)
Definition leave (m : Manager) (task_id : string) : Manager :=
  let m := with_processing m (_processing_tasks m ∖ {[task_id]}) in
  match _callback_depth m !! task_id with
  | Some d =>
      let d' := Z.max 0 (d - 1) in
      if Z.eqb d' 0 then with_depth m (delete task_id (_callback_depth m))
      else with_depth m (<[task_id := d']> (_callback_depth m))
  | None => m
  end.

Definition task_callback (m : Manager) (task : TaskCallbackArg)
  (agent_card_name : string) : Manager * Task :=
  let task_id := arg_id task in
  if bool_decide (task_id ∈ _processing_tasks m) then (m, skipped_task task)
  else
    let current_depth := default 0%Z (_callback_depth m !! task_id) in
    if (5 <? current_depth)%Z then
      (with_depth m (<[task_id := 0%Z]> (_callback_depth m)), skipped_task task)
    else
      let m := with_processing m ({[task_id]} ∪ _processing_tasks m) in
      let m := with_depth m (<[task_id := (current_depth + 1)%Z]> (_callback_depth m)) in
      let '(m, result) := handle_update m task agent_card_name in
      (leave m task_id, result).

End TaskCallback.

(** [ADKHostManager.__init__]: no task, no event, nothing pending, no
    processing mark and no depth counter. *)
Definition init : Manager := mkManager [] ∅ ∅ ∅ ∅ ∅ 0.

(** *** Conversations ([service/types.py]) and the message helpers *)
Record Conversation : Type := mkConversation {
  conversation_id : string;
  is_active : bool;
  conv_name : string;
  task_ids : list string;
  messages : list Message }.

(** [message.taskId = task_id] *)
Definition set_taskId (msg : Message) (task_id : option string) : Message :=
  mkMessage (messageId msg) (msg_role msg) (msg_parts msg) task_id
    (msg_contextId msg).

(** [get_conversation], the same in both managers. *)
Definition get_conversation (conversations : list Conversation)
  (conversation_id : option string) : option Conversation :=
  if negb (Py.truthy_opt_str conversation_id) then None
  else
    List.find
      (fun c => bool_decide (Some (HostManager.conversation_id c) = conversation_id))
      conversations.

(** [ADKHostManager.sanitize_message] *)
Definition sanitize_message (conversations : list Conversation)
  (tasks : list Task) (message : Message) : Message :=
  if Py.truthy_opt_str (msg_contextId message) then
    match get_conversation conversations (msg_contextId message) with
    | None => message
    | Some conversation =>
        match last (messages conversation) with
        | Some last_message =>
            let task_id := msg_taskId last_message in
            if Py.truthy_opt_str task_id then
              let task := find_task (default "" task_id) tasks in
              if task_still_open task then set_taskId message task_id
              else message
            else message
        | None => message
        end
    end
  else message.

(** [part.root.text if part.root.kind == 'text' else 'Working...'] *)
Definition part_status_text (part : Part) : string :=
  match part with
  | TextPart text => text
  | _ => "Working..."
  end.

(** [ADKHostManager.get_pending_messages]: [pending] is
    [self._pending_message_ids]. *)
Definition get_pending_messages (pending : list string)
  (task_map : gmap string string) (tasks : list Task)
  : list (string * string) :=
  fold_left
    (fun rval message_id =>
       match task_map !! message_id with
       | Some task_id =>
           match find_task task_id tasks with
           | None => rval ++ [(message_id, "")]
           | Some task =>
               match last (default [] (history task)) with
               | Some last_message =>
                   match msg_parts last_message with
                   | part :: _ =>
                       if Nat.eqb (length (default [] (history task))) 1
                       then rval ++ [(message_id, "Working...")]
                       else rval ++ [(message_id, part_status_text part)]
                   | [] => rval
                   end
               | None => rval
               end
           end
       | None => rval ++ [(message_id, "")]
       end)
    pending [].

(** *** [InMemoryFakeAgentManager]'s own versions ([in_memory_manager.py]) *)
Module InMemoryManager.

Definition sanitize_message (conversations : list Conversation)
  (tasks : list Task) (message : Message) : Message :=
  let conversation :=
    if Py.truthy_opt_str (msg_contextId message)
    then get_conversation conversations (msg_contextId message)
    else None in
  match conversation with
  | None => message
  | Some conversation =>
      match last (messages conversation) with
      | Some last_message =>
          if Py.truthy_opt_str (msg_taskId last_message) then
            match find_task (default "" (msg_taskId last_message)) tasks with
            | Some task =>
                if task_still_open (Some task)
                then set_taskId message (msg_taskId last_message)
                else message
            | None => message
            end
          else message
      | None => message
      end
  end.

Definition get_pending_messages (pending : list string)
  (task_map : gmap string string) (tasks : list Task)
  : list (string * string) :=
  fold_left
    (fun rval message_id =>
       match task_map !! message_id with
       | Some task_id =>
           match find_task task_id tasks with
           | None => rval ++ [(message_id, "")]
           | Some task =>
               match last (default [] (history task)) with
               | Some last_message =>
                   match msg_parts last_message with
                   | part :: _ =>
                       if Nat.eqb (length (default [] (history task))) 1
                       then rval ++ [(message_id, "Working...")]
                       else rval ++ [(message_id, part_status_text part)]
                   | [] => rval ++ [(message_id, "")]
                   end
               | None => rval ++ [(message_id, "")]
               end
           end
       | None => rval ++ [(message_id, "")]
       end)
    pending [].

End InMemoryManager.

End HostManager.

(** ** The connection to a remote agent
    [hosts/webui/backend/remote_agent_connection.py] *)
Module RemoteAgentConnections.
Import HostManager.

(** What a response of the A2A client carries: a JSON-RPC error, or a result
    that is a message or one of the updates the callback takes. *)
Inductive Result : Type :=
| ResMessage (msg : Message)
| ResUpdate (event : TaskCallbackArg).

Inductive Response : Type :=
| ErrorResponse
| SuccessResponse (result : Result).

(** [Task | Message | None], the value [send_message] returns.  Without
    streaming the result of the response is handed back as it came. *)
Inductive Reply : Type :=
| ReplyTask (task : Task)
| ReplyMessage (msg : Message)
| ReplyUpdate (event : TaskCallbackArg)
| ReplyNone.

Section SendMessage.

(** The state the callback works on, and the callback itself
    ([task_callback: TaskUpdateCallback | None]). *)
Context {M : Type}.
Variable task_callback : option (M -> TaskCallbackArg -> M * Task).

(** The [async for] loop of the streaming branch; [task] is the local of that
    name. *)
Fixpoint stream_loop (m : M) (task : option Task) (responses : list Response)
  : M * Reply :=
  match responses with
  | [] =>
      (m, match task with Some t => ReplyTask t | None => ReplyNone end)
  | ErrorResponse :: _ => (m, ReplyNone)
  | SuccessResponse (ResMessage msg) :: _ => (m, ReplyMessage msg)
  | SuccessResponse (ResUpdate event) :: rest =>
      match task_callback with
      | Some callback =>
          let '(m, t) := callback m event in
          stream_loop m (Some t) rest
      | None => stream_loop m task rest
      end
  end.

(** [send_message] of an agent whose card announces streaming: [responses] is
    what [send_message_streaming] yields. *)
Definition send_message_streaming (m : M) (responses : list Response)
  : M * Reply :=
  stream_loop m None responses.

(** [send_message] of an agent without streaming: one response. *)
Definition send_message_blocking (m : M) (response : Response) : M * Reply :=
  match response with
  | ErrorResponse => (m, ReplyNone)
  | SuccessResponse (ResMessage msg) => (m, ReplyMessage msg)
  | SuccessResponse (ResUpdate event) =>
      match task_callback with
      | Some callback => (fst (callback m event), ReplyUpdate event)
      | None => (m, ReplyUpdate event)
      end
  end.

End SendMessage.

End RemoteAgentConnections.

(** ** Python [str]: a sequence of Unicode code points *)
Module Str.

Definition str : Type := list N.

(** Literals are written as in the source and decoded from UTF-8. *)
Fixpoint utf8_decode (bs : list N) : str :=
  match bs with
  | [] => []
  | b :: rest =>
      if (b <? 128)%N then b :: utf8_decode rest
      else if (b <? 224)%N then
        match rest with
        | b1 :: rest => ((b mod 32) * 64 + b1 mod 64)%N :: utf8_decode rest
        | _ => [b]
        end
      else if (b <? 240)%N then
        match rest with
        | b1 :: b2 :: rest =>
            ((b mod 16) * 4096 + (b1 mod 64) * 64 + b2 mod 64)%N
            :: utf8_decode rest
        | _ => [b]
        end
      else
        match rest with
        | b1 :: b2 :: b3 :: rest =>
            ((b mod 8) * 262144 + (b1 mod 64) * 4096
             + (b2 mod 64) * 64 + b3 mod 64)%N
            :: utf8_decode rest
        | _ => [b]
        end
  end.

Definition u (s : string) : str :=
  utf8_decode (map N_of_ascii (list_ascii_of_string s)).

Fixpoint eqb (a b : str) : bool :=
  match a, b with
  | [], [] => true
  | c :: a, d :: b => N.eqb c d && eqb a b
  | _, _ => false
  end.

Fixpoint startswith (text sub : str) : bool :=
  match sub, text with
  | [], _ => true
  | _ :: _, [] => false
  | c :: sub, d :: text => N.eqb c d && startswith text sub
  end.

(** [text.find(sub)]: the lowest index where [sub] occurs, [None] for -1. *)
Fixpoint find (text sub : str) : option nat :=
  if startswith text sub then Some 0
  else match text with
       | [] => None
       | _ :: rest => S <$> find rest sub
       end.

(** [sub in text] *)
Definition isin (sub text : str) : bool :=
  match find text sub with
  | Some _ => true
  | None => false
  end.

(** [text[start:end]] for [0 <= start] and [0 <= end]. *)
Definition slice (text : str) (start stop : Z) : str :=
  take (Z.to_nat stop - Z.to_nat start) (drop (Z.to_nat start) text).

Definition len (text : str) : Z := Z.of_nat (length text).

(** [any(x in text for x in xs)] and [sum(1 for x in xs if x in text)] *)
Definition any_in (xs : list str) (text : str) : bool :=
  existsb (fun x => isin x text) xs.

Definition count_in (xs : list str) (text : str) : Z :=
  Z.of_nat (length (filter (fun x => isin x text = true) xs)).

(** [x in xs] for a list of strings *)
Definition mem (x : str) (xs : list str) : bool :=
  existsb (eqb x) xs.

(** [text.split()]: the maximal runs of non-whitespace characters. *)
Fixpoint split_ws (isspace : N -> bool) (text : str) (word : str) : list str :=
  match text with
  | [] => if Py.truthy_list word then [word] else []
  | c :: rest =>
      if isspace c
      then (if Py.truthy_list word then [word] else []) ++ split_ws isspace rest []
      else split_ws isspace rest (word ++ [c])
  end.

Definition split (isspace : N -> bool) (text : str) : list str :=
  split_ws isspace text [].

(** [sep.join(words)] *)
Fixpoint join (sep : str) (words : list str) : str :=
  match words with
  | [] => []
  | [w] => w
  | w :: rest => w ++ sep ++ join sep rest
  end.

(** [text.strip()] *)
Fixpoint lstrip (isspace : N -> bool) (text : str) : str :=
  match text with
  | [] => []
  | c :: rest => if isspace c then lstrip isspace rest else text
  end.

Definition strip (isspace : N -> bool) (text : str) : str :=
  rev (lstrip isspace (rev (lstrip isspace text))).

(** [lower()] and [isspace()] are Python's and are taken as parameters by the
    models; these are their restrictions to ASCII. *)
Definition ascii_lower_char (c : N) : N :=
  if ((65 <=? c) && (c <=? 90))%N then (c + 32)%N else c.

Definition ascii_lower (text : str) : str := map ascii_lower_char text.

Definition ascii_isspace (c : N) : bool :=
  (((9 <=? c) && (c <=? 13)) || ((28 <=? c) && (c <=? 32)))%N.

End Str.

(** ** The 0.2 agent-selection server, [0.2/app.py] *)
Module App.
Import Str.

Section KeywordScorer.

(** Python's [str.lower] and [str.isspace]. *)
Variable lower : str -> str.
Variable isspace : N -> bool.

(** *** [analyze_ambiguous_term_context] *)

(** [window_size = 50] *)
Definition window_size : Z := 50.

Definition currency_indicators : list str :=
  [u "price"; u "价格"; u "value"; u "价值"; u "cost"; u "成本"; u "market";
   u "市场"; u "trade"; u "交易"; u "buy"; u "买"; u "sell"; u "卖";
   u "currency"; u "货币"; u "money"; u "钱"; u "dollar"; u "美元";
   u "exchange"; u "兑换"; u "worth"; u "值得"; u "investment"; u "投资";
   u "financial"; u "金融"; u "portfolio"; u "投资组合"; u "fund"; u "基金";
   u "stock"; u "股票"; u "asset"; u "资产"; u "inflation"; u "通货膨胀"].

Definition element_indicators : list str :=
  [u "atom"; u "原子"; u "element"; u "元素"; u "chemistry"; u "化学";
   u "periodic"; u "周期"; u "property"; u "性质"; u "metal"; u "金属";
   u "reaction"; u "反应"; u "molecular"; u "分子"; u "compound"; u "化合物";
   u "substance"; u "物质"; u "material"; u "材料"; u "atomic"; u "原子的";
   u "proton"; u "质子"; u "neutron"; u "中子"; u "electron"; u "电子";
   u "isotope"; u "同位素"; u "valence"; u "价"; u "bond"; u "键"; u "nucleus";
   u "核"].

Definition currency_phrases (term : str) : list str :=
  [u "price of " ++ term; term ++ u " price"; u "value of " ++ term;
   term ++ u " value"; term ++ u " cost"; u "cost of " ++ term;
   term ++ u " market"; u "buy " ++ term; u "sell " ++ term;
   term ++ u " investment"; u "invest in " ++ term; term ++ u " fund";
   term ++ u " stock"; term ++ u " asset"; term ++ u " portfolio";
   term ++ u " trader"; term ++ u " trading"].

Definition element_phrases (term : str) : list str :=
  [u "properties of " ++ term; term ++ u " properties";
   term ++ u " element"; u "element " ++ term; term ++ u " atomic";
   u "atomic " ++ term; term ++ u " in periodic"; u "chemical " ++ term;
   term ++ u " atom"; term ++ u " compound"; term ++ u " molecule";
   term ++ u " reaction"; term ++ u " oxide"; term ++ u " ion";
   term ++ u " isotope"; term ++ u " electron"].

Definition investment_indicators : list str :=
  [u "投资"; u "invest"; u "价格"; u "price"; u "价值"; u "value"; u "买";
   u "buy"; u "卖"; u "sell"; u "兑换"; u "exchange"; u "财务"; u "finance";
   u "资产"; u "asset"; u "金融"; u "financial"].

Definition price_terms : list str :=
  [u "price"; u "cost"; u "价格"; u "价值"; u "dollar"; u "usd"; u "$"; u "美元";
   u "钱"].

Definition chem_terms : list str :=
  [u "atomic"; u "element"; u "chemical"; u "periodic table"; u "原子";
   u "元素"; u "化学"; u "周期表"].

(** The text the analysis looks at: [text[start:end]] around the first
    occurrence of the term, [None] when the term does not occur. *)
Definition context_window (text term : str) : option str :=
  match find text term with
  | None => None
  | Some term_pos =>
      let term_pos := Z.of_nat term_pos in
      let start := Z.max 0 (term_pos - window_size) in
      let stop := Z.min (len text) (term_pos + len term + window_size) in
      Some (slice text start stop)
  end.

(** The scoring of the window, from the indicator counts to the verdict. *)
Definition score_window (window_text term : str) : string :=
  let currency_matches := count_in currency_indicators window_text in
  let element_matches := count_in element_indicators window_text in
  let currency_phrase_matches := count_in (currency_phrases term) window_text in
  let element_phrase_matches := count_in (element_phrases term) window_text in
  let currency_matches := (currency_matches + currency_phrase_matches * 2)%Z in
  let element_matches := (element_matches + element_phrase_matches * 2)%Z in
  let '(currency_matches, element_matches) :=
    if mem (lower term) [u "au"; u "ag"; u "pt"] then
      if any_in investment_indicators window_text
      then ((currency_matches + 4)%Z, element_matches)
      else if negb (any_in currency_indicators window_text)
           then (currency_matches, (element_matches + 3)%Z)
           else (currency_matches, element_matches)
    else (currency_matches, element_matches) in
  let currency_matches :=
    if any_in price_terms window_text
    then (currency_matches + 2)%Z else currency_matches in
  let element_matches :=
    if any_in chem_terms window_text
    then (element_matches + 2)%Z else element_matches in
  if (element_matches <? currency_matches)%Z then "currency"
  else if (currency_matches <? element_matches)%Z then "element"
  else if mem (lower term) [u "au"; u "ag"; u "pt"; u "fe"; u "cu"]
       then "element"
       else "currency".

Definition analyze_ambiguous_term_context (text term : str) : string :=
  match context_window text term with
  | None => "unknown"
  | Some window_text => score_window window_text term
  end.

(** *** [analyze_request] and the combiner of [SmartRequestHandler.execute] *)

(** The keyword scorer [analyze_request_by_keywords] and the model call
    [model.ainvoke], which returns the reply's content or raises. *)
Variable analyze_request_by_keywords : str -> string * float.
Variable ainvoke : str -> Py.outcome str.

(** [analyze_request] catches every failure of the model call and answers
    with the keyword scorer's pick. *)
Definition analyze_request (request : str) : string :=
  match ainvoke request with
  | Py.Returned content =>
      let agent_choice := strip isspace (lower content) in
      if isin (u "currency") agent_choice then "currency" else "element"
  | Py.Raised _ => fst (analyze_request_by_keywords request)
  end.

Record Decision : Type := mkDecision {
  agent_type : string;
  confidence : float;
  decision_method : string }.

(** The [try]/[except] of [execute]; [llm] is what [await
    analyze_request(user_input)] did. *)
Definition combine (keyword_result : string) (keyword_confidence : float)
  (llm : Py.outcome string) : Decision :=
  match llm with
  | Py.Returned llm_result =>
      if negb (String.eqb keyword_result llm_result) then
        if PrimFloat.ltb keyword_confidence 0.65
        then mkDecision llm_result 0.8 "LLM (置信度优先)"
        else mkDecision keyword_result keyword_confidence "关键词 (高置信)"
      else mkDecision keyword_result (Py.max keyword_confidence 0.85) "一致结果"
  | Py.Raised _ =>
      mkDecision keyword_result keyword_confidence "关键词 (LLM失败)"
  end.

Inductive Executor : Type := currency_executor | element_executor.

Definition current_executor (d : Decision) : Executor :=
  if String.eqb (agent_type d) "currency"
  then currency_executor else element_executor.

(** The selection [execute] makes for a request. *)
Definition select (user_input : str) : Decision :=
  let '(keyword_result, keyword_confidence) :=
    analyze_request_by_keywords user_input in
  combine keyword_result keyword_confidence
    (Py.Returned (analyze_request user_input)).

End KeywordScorer.

End App.

(** ** The 0.2 server with the verdict cache, [0.2/__main__.py] *)
Module Main.
Import Str.

Section QueryCache.

(** Python's [str.lower] and [str.isspace]. *)
Variable lower : str -> str.
Variable isspace : N -> bool.

(** The cached value, a [Dict[str, Any]]. *)
Variable Result : Type.

(** [{"result": result, "timestamp": time.time()}] *)
Record Entry : Type := mkEntry {
  result : Result;
  timestamp : float }.

(** [self.cache] is a dict: entries in insertion order, one per key. *)
Record QueryCache : Type := mkQueryCache {
  cache : list (str * Entry);
  max_size : Z;
  ttl : float }.

(** [QueryCache(max_size=100, ttl=3600)], and the global [query_cache]. *)
Definition init (max_size : Z) (ttl : float) : QueryCache :=
  mkQueryCache [] max_size ttl.

Definition query_cache : QueryCache := init 100 3600.

(** Dict operations on the entry list. *)
Fixpoint dict_get (key : str) (d : list (str * Entry)) : option Entry :=
  match d with
  | [] => None
  | (k, e) :: rest => if eqb k key then Some e else dict_get key rest
  end.

Fixpoint dict_del (key : str) (d : list (str * Entry)) : list (str * Entry) :=
  match d with
  | [] => []
  | (k, e) :: rest => if eqb k key then rest else (k, e) :: dict_del key rest
  end.

(** [d[key] = e]: an existing key keeps its place, a new one goes last. *)
Fixpoint dict_set (key : str) (e : Entry) (d : list (str * Entry))
  : list (str * Entry) :=
  match d with
  | [] => [(key, e)]
  | (k, e') :: rest =>
      if eqb k key then (k, e) :: rest else (k, e') :: dict_set key e rest
  end.

(** [' '.join(query.lower().split())] *)
Definition _normalize_query (query : str) : str :=
  join (u " ") (split isspace (lower query)).

Definition with_cache (c : QueryCache) (d : list (str * Entry)) : QueryCache :=
  mkQueryCache d (max_size c) (ttl c).

Definition len_entries (d : list (str * Entry)) : Z := Z.of_nat (length d).

(** [get], with [current_time] the reading of [time.time()]. *)
Definition get (c : QueryCache) (query : str) (current_time : float)
  : QueryCache * option Result :=
  let key := _normalize_query query in
  match dict_get key (cache c) with
  | Some entry =>
      if PrimFloat.leb (PrimFloat.sub current_time (timestamp entry)) (ttl c)
      then (c, Some (result entry))
      else (with_cache c (dict_del key (cache c)), None)
  | None => (c, None)
  end.

(** [min(self.cache.keys(), key=lambda k: self.cache[k]["timestamp"])]:
    the first key whose timestamp no later key undercuts. *)
Fixpoint min_from (best : str * Entry) (d : list (str * Entry)) : str * Entry :=
  match d with
  | [] => best
  | x :: rest =>
      if PrimFloat.ltb (timestamp (snd x)) (timestamp (snd best))
      then min_from x rest else min_from best rest
  end.

Definition oldest (d : list (str * Entry)) : Py.outcome (str * Entry) :=
  match d with
  | [] => Py.Raised (Py.ValueError "min() arg is an empty sequence")
  | x :: rest => Py.Returned (min_from x rest)
  end.

(** [set], with [now] the reading of [time.time()]. *)
Definition set (c : QueryCache) (query : str) (r : Result) (now : float)
  : Py.outcome QueryCache :=
  let key := _normalize_query query in
  d ← (if (max_size c <=? len_entries (cache c))%Z
       then o ← oldest (cache c); mret (dict_del (fst o) (cache c))
       else mret (cache c));
  mret (with_cache c (dict_set key (mkEntry r now) d)).

Definition clear (c : QueryCache) : QueryCache := with_cache c [].

(** The calls a client makes, and the cache after a series of them; a [set]
    that raises leaves the cache as it was. *)
Inductive Call : Type :=
| CallGet (query : str) (current_time : float)
| CallSet (query : str) (r : Result) (now : float)
| CallClear.

Definition call (c : QueryCache) (op : Call) : QueryCache :=
  match op with
  | CallGet query current_time => fst (get c query current_time)
  | CallSet query r now =>
      match set c query r now with
      | Py.Returned c' => c'
      | Py.Raised _ => c
      end
  | CallClear => clear c
  end.

Definition calls (c : QueryCache) (ops : list Call) : QueryCache :=
  fold_left call ops c.

End QueryCache.

(** *** The context window of [analyze_ambiguous_term_context] in this file *)
Section ContextWindow.
Variable lower : str -> str.

(** [window_size = 100] *)
Definition window_size : Z := 100.

Definition context_window (text term : str) : option str :=
  match find (lower text) (lower term) with
  | None => None
  | Some term_pos =>
      let term_pos := Z.of_nat term_pos in
      let start := Z.max 0 (term_pos - window_size) in
      let stop := Z.min (len text) (term_pos + len term + window_size) in
      Some (lower (slice text start stop))
  end.

End ContextWindow.

End Main.

(** ** The 0.1 type model, [0.1/common/types.py]

    The classes are pydantic models.  A model is decoded from a dict
    (keyword construction, [TypeAdapter.validate_python]) and encoded by
    [model_dump()]; both are modelled over [json].  A field of type [str],
    [int] or [bool] takes a value of that type, a field [T | None = None] may
    be absent or [None], keys that name no field are ignored, and a
    [ValidationError] is the decoder's [None].  pydantic's lax coercions into
    [int] and [bool] fields (numeric strings, integral floats) are left out
    of the [decode_] functions: the encoders never produce them.  The request
    union is modelled with them as well, as [validate_A2ARequest]. *)
Module Types.
Import Json.

Definition dict : Type := list (string * json).

(** *** Field decoders *)
Definition dec_str (j : json) : option string :=
  match j with JStr s => Some s | _ => None end.

Definition dec_int (j : json) : option Z :=
  match j with JInt z => Some z | _ => None end.

Definition dec_bool (j : json) : option bool :=
  match j with JBool b => Some b | _ => None end.

Definition dec_dict (j : json) : option dict :=
  match j with JDict kv => Some kv | _ => None end.

Fixpoint dec_items {T} (dec : json -> option T) (l : list json) : option (list T) :=
  match l with
  | [] => Some []
  | j :: rest => x ← dec j; xs ← dec_items dec rest; Some (x :: xs)
  end.

Definition dec_list {T} (dec : json -> option T) (j : json) : option (list T) :=
  match j with JList l => dec_items dec l | _ => None end.

(** A field without a default. *)
Definition required {T} (dec : json -> option T) (k : string) (kv : dict) : option T :=
  j ← lookup k kv; dec j.

(** A field [T | None = None]. *)
Definition optional {T} (dec : json -> option T) (k : string) (kv : dict)
  : option (option T) :=
  match lookup k kv with
  | None | Some JNull => Some None
  | Some j => Some <$> dec j
  end.

(** A field [T = d]. *)
Definition defaulted {T} (dec : json -> option T) (d : T) (k : string) (kv : dict)
  : option T :=
  match lookup k kv with
  | None => Some d
  | Some j => dec j
  end.

(** A field [Literal[v] = v]. *)
Definition literal (v : string) (k : string) (kv : dict) : option unit :=
  match lookup k kv with
  | None => Some tt
  | Some (JStr s) => if String.eqb s v then Some tt else None
  | Some _ => None
  end.

(** A field [Any | None = None]: whatever is there, [None] when absent. *)
Definition any_field (k : string) (kv : dict) : json := get k kv.

(** *** Field encoders *)
Definition enc_opt {T} (enc : T -> json) (o : option T) : json :=
  match o with Some x => enc x | None => JNull end.

Definition enc_list {T} (enc : T -> json) (l : list T) : json :=
  JList (map enc l).

(** *** [TaskState] *)
Inductive TaskState : Type := SUBMITTED | WORKING | COMPLETED | FAILED.

Definition TaskState_value (s : TaskState) : string :=
  match s with
  | SUBMITTED => "submitted"
  | WORKING => "working"
  | COMPLETED => "completed"
  | FAILED => "failed"
  end.

(** [TaskState(value)]: the member with that value, none for any other. *)
Definition TaskState_of_value (v : string) : option TaskState :=
  if String.eqb v "submitted" then Some SUBMITTED
  else if String.eqb v "working" then Some WORKING
  else if String.eqb v "completed" then Some COMPLETED
  else if String.eqb v "failed" then Some FAILED
  else None.

Definition decode_TaskState (j : json) : option TaskState :=
  s ← dec_str j; TaskState_of_value s.

Definition encode_TaskState (s : TaskState) : json := JStr (TaskState_value s).

(** *** Parts *)
Record TextPart : Type := mkTextPart {
  text : string;
  tp_metadata : option dict }.

Record FileContent : Type := mkFileContent {
  fc_name : option string;
  mimeType : option string;
  bytes : option string;
  uri : option string }.

(** [FileContent.check_content], the [model_validator(mode="after")]. *)
Definition check_content (self : FileContent) : Py.outcome FileContent :=
  if negb (Py.truthy_opt_str (bytes self) || Py.truthy_opt_str (uri self)) then
    Py.Raised (Py.ValueError
      "Either 'bytes' or 'uri' must be present in the file data")
  else if Py.truthy_opt_str (bytes self) && Py.truthy_opt_str (uri self) then
    Py.Raised (Py.ValueError
      "Only one of 'bytes' or 'uri' can be present in the file data")
  else Py.Returned self.

Record FilePart : Type := mkFilePart {
  file : FileContent;
  fp_metadata : option dict }.

Record DataPart : Type := mkDataPart {
  data : dict;
  dp_metadata : option dict }.

(** [Part = Annotated[Union[TextPart, FilePart, DataPart],
    Field(discriminator="type")]] *)
Inductive Part : Type :=
| PText (p : TextPart)
| PFile (p : FilePart)
| PData (p : DataPart).

Definition decode_TextPart (j : json) : option TextPart :=
  kv ← dec_dict j;
  _ ← literal "text" "type" kv;
  text ← required dec_str "text" kv;
  metadata ← optional dec_dict "metadata" kv;
  Some (mkTextPart text metadata).

Definition decode_FileContent (j : json) : option FileContent :=
  kv ← dec_dict j;
  name ← optional dec_str "name" kv;
  mimeType ← optional dec_str "mimeType" kv;
  bytes ← optional dec_str "bytes" kv;
  uri ← optional dec_str "uri" kv;
  match check_content (mkFileContent name mimeType bytes uri) with
  | Py.Returned self => Some self
  | Py.Raised _ => None
  end.

Definition decode_FilePart (j : json) : option FilePart :=
  kv ← dec_dict j;
  _ ← literal "file" "type" kv;
  file ← required decode_FileContent "file" kv;
  metadata ← optional dec_dict "metadata" kv;
  Some (mkFilePart file metadata).

Definition decode_DataPart (j : json) : option DataPart :=
  kv ← dec_dict j;
  _ ← literal "data" "type" kv;
  data ← required dec_dict "data" kv;
  metadata ← optional dec_dict "metadata" kv;
  Some (mkDataPart data metadata).

(** The union is discriminated: the tag must be there and picks the class. *)
Definition decode_Part (j : json) : option Part :=
  kv ← dec_dict j;
  tag ← required dec_str "type" kv;
  if String.eqb tag "text" then PText <$> decode_TextPart j
  else if String.eqb tag "file" then PFile <$> decode_FilePart j
  else if String.eqb tag "data" then PData <$> decode_DataPart j
  else None.

Definition encode_FileContent (f : FileContent) : json :=
  JDict [("name", enc_opt JStr (fc_name f));
         ("mimeType", enc_opt JStr (mimeType f));
         ("bytes", enc_opt JStr (bytes f));
         ("uri", enc_opt JStr (uri f))].

Definition encode_Part (p : Part) : json :=
  match p with
  | PText p =>
      JDict [("type", JStr "text"); ("text", JStr (text p));
             ("metadata", enc_opt JDict (tp_metadata p))]
  | PFile p =>
      JDict [("type", JStr "file"); ("file", encode_FileContent (file p));
             ("metadata", enc_opt JDict (fp_metadata p))]
  | PData p =>
      JDict [("type", JStr "data"); ("data", JDict (data p));
             ("metadata", enc_opt JDict (dp_metadata p))]
  end.

(** *** [Message] *)
Inductive Role : Type := user | agent.

Definition decode_Role (j : json) : option Role :=
  s ← dec_str j;
  if String.eqb s "user" then Some user
  else if String.eqb s "agent" then Some agent
  else None.

Definition encode_Role (r : Role) : json :=
  JStr (match r with user => "user" | agent => "agent" end).

Record Message : Type := mkMessage {
  role : Role;
  parts : list Part;
  msg_metadata : option dict }.

Definition decode_Message (j : json) : option Message :=
  kv ← dec_dict j;
  role ← required decode_Role "role" kv;
  parts ← required (dec_list decode_Part) "parts" kv;
  metadata ← optional dec_dict "metadata" kv;
  Some (mkMessage role parts metadata).

Definition encode_Message (m : Message) : json :=
  JDict [("role", encode_Role (role m));
         ("parts", enc_list encode_Part (parts m));
         ("metadata", enc_opt JDict (msg_metadata m))].

(** *** [Artifact] *)
Record Artifact : Type := mkArtifact {
  art_name : option string;
  art_description : option string;
  art_parts : list Part;
  art_metadata : option dict;
  index : Z;
  append : option bool;
  lastChunk : option bool }.

Definition decode_Artifact (j : json) : option Artifact :=
  kv ← dec_dict j;
  name ← optional dec_str "name" kv;
  description ← optional dec_str "description" kv;
  parts ← required (dec_list decode_Part) "parts" kv;
  metadata ← optional dec_dict "metadata" kv;
  index ← defaulted dec_int 0%Z "index" kv;
  append ← optional dec_bool "append" kv;
  lastChunk ← optional dec_bool "lastChunk" kv;
  Some (mkArtifact name description parts metadata index append lastChunk).

Definition encode_Artifact (a : Artifact) : json :=
  JDict [("name", enc_opt JStr (art_name a));
         ("description", enc_opt JStr (art_description a));
         ("parts", enc_list encode_Part (art_parts a));
         ("metadata", enc_opt JDict (art_metadata a));
         ("index", JInt (index a));
         ("append", enc_opt JBool (append a));
         ("lastChunk", enc_opt JBool (lastChunk a))].

Section Models.

(** [datetime] values with [dt.isoformat()] and pydantic's reading of a
    timestamp; [now] is what [datetime.now] yields when a [TaskStatus] is
    decoded without a timestamp, [fresh_id] and [fresh_session] what
    [uuid4().hex] yields for a missing envelope id and session id. *)
Variable datetime : Type.
Variable isoformat : datetime -> string.
Variable parse_datetime : json -> option datetime.
Variable now : datetime.
Variable fresh_id : string.
Variable fresh_session : string.

(** *** [TaskStatus], [Task] and the update events *)
Record TaskStatus : Type := mkTaskStatus {
  state : TaskState;
  message : option Message;
  timestamp : datetime }.

Definition decode_TaskStatus (j : json) : option TaskStatus :=
  kv ← dec_dict j;
  state ← required decode_TaskState "state" kv;
  message ← optional decode_Message "message" kv;
  timestamp ← defaulted parse_datetime now "timestamp" kv;
  Some (mkTaskStatus state message timestamp).

(** [serialize_dt] writes the timestamp as [dt.isoformat()]. *)
Definition encode_TaskStatus (s : TaskStatus) : json :=
  JDict [("state", encode_TaskState (state s));
         ("message", enc_opt encode_Message (message s));
         ("timestamp", JStr (isoformat (timestamp s)))].

Record Task : Type := mkTask {
  id : string;
  sessionId : option string;
  status : TaskStatus;
  artifacts : option (list Artifact);
  history : option (list Message);
  task_metadata : option dict }.

Definition decode_Task (j : json) : option Task :=
  kv ← dec_dict j;
  id ← required dec_str "id" kv;
  sessionId ← optional dec_str "sessionId" kv;
  status ← required decode_TaskStatus "status" kv;
  artifacts ← optional (dec_list decode_Artifact) "artifacts" kv;
  history ← optional (dec_list decode_Message) "history" kv;
  metadata ← optional dec_dict "metadata" kv;
  Some (mkTask id sessionId status artifacts history metadata).

Definition encode_Task (t : Task) : json :=
  JDict [("id", JStr (id t));
         ("sessionId", enc_opt JStr (sessionId t));
         ("status", encode_TaskStatus (status t));
         ("artifacts", enc_opt (enc_list encode_Artifact) (artifacts t));
         ("history", enc_opt (enc_list encode_Message) (history t));
         ("metadata", enc_opt JDict (task_metadata t))].

Record TaskStatusUpdateEvent : Type := mkTaskStatusUpdateEvent {
  sue_id : string;
  sue_status : TaskStatus;
  final : bool;
  sue_metadata : option dict }.

Definition decode_TaskStatusUpdateEvent (j : json) : option TaskStatusUpdateEvent :=
  kv ← dec_dict j;
  id ← required dec_str "id" kv;
  status ← required decode_TaskStatus "status" kv;
  final ← defaulted dec_bool false "final" kv;
  metadata ← optional dec_dict "metadata" kv;
  Some (mkTaskStatusUpdateEvent id status final metadata).

Definition encode_TaskStatusUpdateEvent (e : TaskStatusUpdateEvent) : json :=
  JDict [("id", JStr (sue_id e));
         ("status", encode_TaskStatus (sue_status e));
         ("final", JBool (final e));
         ("metadata", enc_opt JDict (sue_metadata e))].

Record TaskArtifactUpdateEvent : Type := mkTaskArtifactUpdateEvent {
  aue_id : string;
  aue_artifact : Artifact;
  aue_metadata : option dict }.

Definition decode_TaskArtifactUpdateEvent (j : json)
  : option TaskArtifactUpdateEvent :=
  kv ← dec_dict j;
  id ← required dec_str "id" kv;
  artifact ← required decode_Artifact "artifact" kv;
  metadata ← optional dec_dict "metadata" kv;
  Some (mkTaskArtifactUpdateEvent id artifact metadata).

Definition encode_TaskArtifactUpdateEvent (e : TaskArtifactUpdateEvent) : json :=
  JDict [("id", JStr (aue_id e));
         ("artifact", encode_Artifact (aue_artifact e));
         ("metadata", enc_opt JDict (aue_metadata e))].

(** *** Push notification configuration *)

(** [model_config = ConfigDict(extra="allow")]: keys that name no field are
    kept, in the order they come, and dumped after the fields. *)
Record AuthenticationInfo : Type := mkAuthenticationInfo {
  schemes : list string;
  credentials : option string;
  extra : dict }.

Definition is_extra_key (k : string) : bool :=
  negb (String.eqb k "schemes" || String.eqb k "credentials").

Definition decode_AuthenticationInfo (j : json) : option AuthenticationInfo :=
  kv ← dec_dict j;
  schemes ← required (dec_list dec_str) "schemes" kv;
  credentials ← optional dec_str "credentials" kv;
  Some (mkAuthenticationInfo schemes credentials
          (List.filter (fun e => is_extra_key (fst e)) kv)).

Definition encode_AuthenticationInfo (a : AuthenticationInfo) : json :=
  JDict ([("schemes", enc_list JStr (schemes a));
          ("credentials", enc_opt JStr (credentials a))] ++ extra a).

Record PushNotificationConfig : Type := mkPushNotificationConfig {
  url : string;
  token : option string;
  authentication : option AuthenticationInfo }.

Definition decode_PushNotificationConfig (j : json)
  : option PushNotificationConfig :=
  kv ← dec_dict j;
  url ← required dec_str "url" kv;
  token ← optional dec_str "token" kv;
  authentication ← optional decode_AuthenticationInfo "authentication" kv;
  Some (mkPushNotificationConfig url token authentication).

Definition encode_PushNotificationConfig (c : PushNotificationConfig) : json :=
  JDict [("url", JStr (url c));
         ("token", enc_opt JStr (token c));
         ("authentication", enc_opt encode_AuthenticationInfo (authentication c))].

(** *** Request parameters *)
Record TaskIdParams : Type := mkTaskIdParams {
  tip_id : string;
  tip_metadata : option dict }.

Definition decode_TaskIdParams (j : json) : option TaskIdParams :=
  kv ← dec_dict j;
  id ← required dec_str "id" kv;
  metadata ← optional dec_dict "metadata" kv;
  Some (mkTaskIdParams id metadata).

Definition encode_TaskIdParams (p : TaskIdParams) : json :=
  JDict [("id", JStr (tip_id p)); ("metadata", enc_opt JDict (tip_metadata p))].

Record TaskQueryParams : Type := mkTaskQueryParams {
  tqp_id : string;
  tqp_metadata : option dict;
  tqp_historyLength : option Z }.

Definition decode_TaskQueryParams (j : json) : option TaskQueryParams :=
  kv ← dec_dict j;
  id ← required dec_str "id" kv;
  metadata ← optional dec_dict "metadata" kv;
  historyLength ← optional dec_int "historyLength" kv;
  Some (mkTaskQueryParams id metadata historyLength).

Definition encode_TaskQueryParams (p : TaskQueryParams) : json :=
  JDict [("id", JStr (tqp_id p));
         ("metadata", enc_opt JDict (tqp_metadata p));
         ("historyLength", enc_opt JInt (tqp_historyLength p))].

Record TaskSendParams : Type := mkTaskSendParams {
  tsp_id : string;
  tsp_sessionId : string;
  tsp_message : Message;
  acceptedOutputModes : option (list string);
  pushNotification : option PushNotificationConfig;
  historyLength : option Z;
  tsp_metadata : option dict }.

Definition decode_TaskSendParams (j : json) : option TaskSendParams :=
  kv ← dec_dict j;
  id ← required dec_str "id" kv;
  sessionId ← defaulted dec_str fresh_session "sessionId" kv;
  message ← required decode_Message "message" kv;
  acceptedOutputModes ← optional (dec_list dec_str) "acceptedOutputModes" kv;
  pushNotification ← optional decode_PushNotificationConfig "pushNotification" kv;
  historyLength ← optional dec_int "historyLength" kv;
  metadata ← optional dec_dict "metadata" kv;
  Some (mkTaskSendParams id sessionId message acceptedOutputModes
          pushNotification historyLength metadata).

Definition encode_TaskSendParams (p : TaskSendParams) : json :=
  JDict [("id", JStr (tsp_id p));
         ("sessionId", JStr (tsp_sessionId p));
         ("message", encode_Message (tsp_message p));
         ("acceptedOutputModes", enc_opt (enc_list JStr) (acceptedOutputModes p));
         ("pushNotification",
          enc_opt encode_PushNotificationConfig (pushNotification p));
         ("historyLength", enc_opt JInt (historyLength p));
         ("metadata", enc_opt JDict (tsp_metadata p))].

Record TaskPushNotificationConfig : Type := mkTaskPushNotificationConfig {
  tpc_id : string;
  pushNotificationConfig : PushNotificationConfig }.

Definition decode_TaskPushNotificationConfig (j : json)
  : option TaskPushNotificationConfig :=
  kv ← dec_dict j;
  id ← required dec_str "id" kv;
  config ← required decode_PushNotificationConfig "pushNotificationConfig" kv;
  Some (mkTaskPushNotificationConfig id config).

Definition encode_TaskPushNotificationConfig (c : TaskPushNotificationConfig)
  : json :=
  JDict [("id", JStr (tpc_id c));
         ("pushNotificationConfig",
          encode_PushNotificationConfig (pushNotificationConfig c))].

(** *** JSON-RPC envelopes *)

(** [id: int | str | None], a fresh [uuid4().hex] when the key is absent. *)
Inductive RpcId : Type :=
| IdInt (z : Z)
| IdStr (s : string)
| IdNone.

Definition decode_RpcId (kv : dict) : option RpcId :=
  match lookup "id" kv with
  | None => Some (IdStr fresh_id)
  | Some (JInt z) => Some (IdInt z)
  | Some (JStr s) => Some (IdStr s)
  | Some JNull => Some IdNone
  | Some _ => None
  end.

Definition encode_RpcId (i : RpcId) : json :=
  match i with
  | IdInt z => JInt z
  | IdStr s => JStr s
  | IdNone => JNull
  end.

(** [A2ARequest]: the seven request classes, discriminated by [method]. *)
Inductive A2ARequest : Type :=
| SendTaskRequest (id : RpcId) (params : TaskSendParams)
| GetTaskRequest (id : RpcId) (params : TaskQueryParams)
| CancelTaskRequest (id : RpcId) (params : TaskIdParams)
| SetTaskPushNotificationRequest (id : RpcId) (params : TaskPushNotificationConfig)
| GetTaskPushNotificationRequest (id : RpcId) (params : TaskIdParams)
| TaskResubscriptionRequest (id : RpcId) (params : TaskIdParams)
| SendTaskStreamingRequest (id : RpcId) (params : TaskSendParams).

Definition decode_A2ARequest (j : json) : option A2ARequest :=
  kv ← dec_dict j;
  method ← required dec_str "method" kv;
  _ ← literal "2.0" "jsonrpc" kv;
  id ← decode_RpcId kv;
  if String.eqb method "tasks/send" then
    SendTaskRequest id <$> required decode_TaskSendParams "params" kv
  else if String.eqb method "tasks/get" then
    GetTaskRequest id <$> required decode_TaskQueryParams "params" kv
  else if String.eqb method "tasks/cancel" then
    CancelTaskRequest id <$> required decode_TaskIdParams "params" kv
  else if String.eqb method "tasks/pushNotification/set" then
    SetTaskPushNotificationRequest id
      <$> required decode_TaskPushNotificationConfig "params" kv
  else if String.eqb method "tasks/pushNotification/get" then
    GetTaskPushNotificationRequest id <$> required decode_TaskIdParams "params" kv
  else if String.eqb method "tasks/resubscribe" then
    TaskResubscriptionRequest id <$> required decode_TaskIdParams "params" kv
  else if String.eqb method "tasks/sendSubscribe" then
    SendTaskStreamingRequest id <$> required decode_TaskSendParams "params" kv
  else None.

Definition envelope (id : RpcId) (method : string) (params : json) : json :=
  JDict [("jsonrpc", JStr "2.0"); ("id", encode_RpcId id);
         ("method", JStr method); ("params", params)].

Definition encode_A2ARequest (r : A2ARequest) : json :=
  match r with
  | SendTaskRequest id p => envelope id "tasks/send" (encode_TaskSendParams p)
  | GetTaskRequest id p => envelope id "tasks/get" (encode_TaskQueryParams p)
  | CancelTaskRequest id p => envelope id "tasks/cancel" (encode_TaskIdParams p)
  | SetTaskPushNotificationRequest id p =>
      envelope id "tasks/pushNotification/set" (encode_TaskPushNotificationConfig p)
  | GetTaskPushNotificationRequest id p =>
      envelope id "tasks/pushNotification/get" (encode_TaskIdParams p)
  | TaskResubscriptionRequest id p =>
      envelope id "tasks/resubscribe" (encode_TaskIdParams p)
  | SendTaskStreamingRequest id p =>
      envelope id "tasks/sendSubscribe" (encode_TaskSendParams p)
  end.

Record JSONRPCError : Type := mkJSONRPCError {
  code : Z;
  err_message : string;
  err_data : json }.

Definition decode_JSONRPCError (j : json) : option JSONRPCError :=
  kv ← dec_dict j;
  code ← required dec_int "code" kv;
  message ← required dec_str "message" kv;
  Some (mkJSONRPCError code message (any_field "data" kv)).

Definition encode_JSONRPCError (e : JSONRPCError) : json :=
  JDict [("code", JInt (code e)); ("message", JStr (err_message e));
         ("data", err_data e)].

(** The error classes, with their fixed codes and default messages. *)
Definition JSONParseError : JSONRPCError :=
  mkJSONRPCError (-32700) "Invalid JSON payload" JNull.
Definition InvalidRequestError : JSONRPCError :=
  mkJSONRPCError (-32600) "Request payload validation error" JNull.
Definition MethodNotFoundError : JSONRPCError :=
  mkJSONRPCError (-32601) "Method not found" JNull.
Definition InvalidParamsError (message : string) : JSONRPCError :=
  mkJSONRPCError (-32602) message JNull.
Definition InternalError (message : string) : JSONRPCError :=
  mkJSONRPCError (-32603) message JNull.
Definition TaskNotFoundError : JSONRPCError :=
  mkJSONRPCError (-32001) "Task not found" JNull.
Definition TaskNotCancelableError : JSONRPCError :=
  mkJSONRPCError (-32002) "Task cannot be canceled" JNull.
Definition PushNotificationNotSupportedError : JSONRPCError :=
  mkJSONRPCError (-32003) "Push Notification is not supported" JNull.
Definition UnsupportedOperationError : JSONRPCError :=
  mkJSONRPCError (-32004) "This operation is not supported" JNull.
Definition ContentTypeNotSupportedError : JSONRPCError :=
  mkJSONRPCError (-32005) "Incompatible content types" JNull.

(** [JSONRPCResponse] and its subclasses, which differ in the type of
    [result]: [Any] in the base class, a [Task] for send, get and cancel, an
    update event for the streaming response, a push configuration for the
    push-notification responses. *)
Record Response (R : Type) : Type := mkResponse {
  resp_id : RpcId;
  result : option R;
  error : option JSONRPCError }.
Arguments mkResponse {R} _ _ _.
Arguments resp_id {R} _.
Arguments result {R} _.
Arguments error {R} _.

Definition decode_Response {R} (dec : json -> option R) (j : json)
  : option (Response R) :=
  kv ← dec_dict j;
  _ ← literal "2.0" "jsonrpc" kv;
  id ← decode_RpcId kv;
  result ← optional dec "result" kv;
  error ← optional decode_JSONRPCError "error" kv;
  Some (mkResponse id result error).

Definition encode_Response {R} (enc : R -> json) (r : Response R) : json :=
  JDict [("jsonrpc", JStr "2.0"); ("id", encode_RpcId (resp_id r));
         ("result", enc_opt enc (result r));
         ("error", enc_opt encode_JSONRPCError (error r))].

Definition SendTaskResponse : Type := Response Task.
Definition SetTaskPushNotificationResponse : Type :=
  Response TaskPushNotificationConfig.

(** [result: TaskStatusUpdateEvent | TaskArtifactUpdateEvent | None] *)
Definition StreamEvent : Type := (TaskStatusUpdateEvent + TaskArtifactUpdateEvent)%type.

Definition decode_StreamEvent (j : json) : option StreamEvent :=
  match decode_TaskStatusUpdateEvent j with
  | Some e => Some (inl e)
  | None => inr <$> decode_TaskArtifactUpdateEvent j
  end.

Definition encode_StreamEvent (e : StreamEvent) : json :=
  match e with
  | inl e => encode_TaskStatusUpdateEvent e
  | inr e => encode_TaskArtifactUpdateEvent e
  end.

Definition SendTaskStreamingResponse : Type := Response StreamEvent.

End Models.

Arguments mkResponse {R} _ _ _.
Arguments resp_id {R} _.
Arguments result {R} _.
Arguments error {R} _.

(** *** The request union in lax mode

    The type adapter [A2ARequest] validates in pydantic's lax mode, in which
    an [int] field also takes what pydantic coerces into an int: the float 1.0
    as 1, the string "5" as 5.  [lax_int] is that coercion, asked for a value
    that is not an int.  Of the request classes only the envelope [id] and
    [historyLength] are [int] fields and none has a [bool] field; a [str],
    [Literal], [list] or [dict] field takes in lax mode what it takes in
    strict mode. *)
Section Lax.

Variable lax_int : json -> option Z.
Variable fresh_id : string.
Variable fresh_session : string.

Definition validate_int (j : json) : option Z :=
  match j with
  | JInt z => Some z
  | _ => lax_int j
  end.

(** [id: int | str | None = Field(default_factory=lambda: uuid4().hex)]: a
    value of one of the three types is taken as it is; any other is tried in
    lax mode, where only [int] may take it. *)
Definition validate_RpcId (kv : dict) : option RpcId :=
  match lookup "id" kv with
  | None => Some (IdStr fresh_id)
  | Some (JInt z) => Some (IdInt z)
  | Some (JStr s) => Some (IdStr s)
  | Some JNull => Some IdNone
  | Some j => IdInt <$> lax_int j
  end.

Definition validate_TaskQueryParams (j : json) : option TaskQueryParams :=
  kv ← dec_dict j;
  id ← required dec_str "id" kv;
  metadata ← optional dec_dict "metadata" kv;
  historyLength ← optional validate_int "historyLength" kv;
  Some (mkTaskQueryParams id metadata historyLength).

Definition validate_TaskSendParams (j : json) : option TaskSendParams :=
  kv ← dec_dict j;
  id ← required dec_str "id" kv;
  sessionId ← defaulted dec_str fresh_session "sessionId" kv;
  message ← required decode_Message "message" kv;
  acceptedOutputModes ← optional (dec_list dec_str) "acceptedOutputModes" kv;
  pushNotification ← optional decode_PushNotificationConfig "pushNotification" kv;
  historyLength ← optional validate_int "historyLength" kv;
  metadata ← optional dec_dict "metadata" kv;
  Some (mkTaskSendParams id sessionId message acceptedOutputModes
          pushNotification historyLength metadata).

(** The type adapter [A2ARequest], validating a dict. *)
Definition validate_A2ARequest (j : json) : option A2ARequest :=
  kv ← dec_dict j;
  method ← required dec_str "method" kv;
  _ ← literal "2.0" "jsonrpc" kv;
  id ← validate_RpcId kv;
  if String.eqb method "tasks/send" then
    SendTaskRequest id <$> required validate_TaskSendParams "params" kv
  else if String.eqb method "tasks/get" then
    GetTaskRequest id <$> required validate_TaskQueryParams "params" kv
  else if String.eqb method "tasks/cancel" then
    CancelTaskRequest id <$> required decode_TaskIdParams "params" kv
  else if String.eqb method "tasks/pushNotification/set" then
    SetTaskPushNotificationRequest id
      <$> required decode_TaskPushNotificationConfig "params" kv
  else if String.eqb method "tasks/pushNotification/get" then
    GetTaskPushNotificationRequest id <$> required decode_TaskIdParams "params" kv
  else if String.eqb method "tasks/resubscribe" then
    TaskResubscriptionRequest id <$> required decode_TaskIdParams "params" kv
  else if String.eqb method "tasks/sendSubscribe" then
    SendTaskStreamingRequest id <$> required validate_TaskSendParams "params" kv
  else None.

End Lax.

(** *** The agent card *)
Record AgentProvider : Type := mkAgentProvider {
  organization : string;
  ap_url : option string }.

Record AgentCapabilities : Type := mkAgentCapabilities {
  streaming : bool;
  pushNotifications : bool;
  stateTransitionHistory : bool }.

Record AgentAuthentication : Type := mkAgentAuthentication {
  aa_schemes : list string;
  aa_credentials : option string }.

Record AgentSkill : Type := mkAgentSkill {
  skill_id : string;
  skill_name : string;
  skill_description : option string;
  tags : option (list string);
  examples : option (list string);
  inputModes : option (list string);
  outputModes : option (list string) }.

Record AgentCard : Type := mkAgentCard {
  card_name : string;
  card_description : option string;
  card_url : string;
  provider : option AgentProvider;
  version : string;
  documentationUrl : option string;
  capabilities : AgentCapabilities;
  card_authentication : option AgentAuthentication;
  defaultInputModes : list string;
  defaultOutputModes : list string;
  skills : list AgentSkill }.

Definition decode_AgentProvider (j : json) : option AgentProvider :=
  kv ← dec_dict j;
  organization ← required dec_str "organization" kv;
  url ← optional dec_str "url" kv;
  Some (mkAgentProvider organization url).

Definition encode_AgentProvider (p : AgentProvider) : json :=
  JDict [("organization", JStr (organization p));
         ("url", enc_opt JStr (ap_url p))].

Definition decode_AgentCapabilities (j : json) : option AgentCapabilities :=
  kv ← dec_dict j;
  streaming ← defaulted dec_bool false "streaming" kv;
  pushNotifications ← defaulted dec_bool false "pushNotifications" kv;
  stateTransitionHistory ← defaulted dec_bool false "stateTransitionHistory" kv;
  Some (mkAgentCapabilities streaming pushNotifications stateTransitionHistory).

Definition encode_AgentCapabilities (c : AgentCapabilities) : json :=
  JDict [("streaming", JBool (streaming c));
         ("pushNotifications", JBool (pushNotifications c));
         ("stateTransitionHistory", JBool (stateTransitionHistory c))].

Definition decode_AgentAuthentication (j : json) : option AgentAuthentication :=
  kv ← dec_dict j;
  schemes ← required (dec_list dec_str) "schemes" kv;
  credentials ← optional dec_str "credentials" kv;
  Some (mkAgentAuthentication schemes credentials).

Definition encode_AgentAuthentication (a : AgentAuthentication) : json :=
  JDict [("schemes", enc_list JStr (aa_schemes a));
         ("credentials", enc_opt JStr (aa_credentials a))].

Definition decode_AgentSkill (j : json) : option AgentSkill :=
  kv ← dec_dict j;
  id ← required dec_str "id" kv;
  name ← required dec_str "name" kv;
  description ← optional dec_str "description" kv;
  tags ← optional (dec_list dec_str) "tags" kv;
  examples ← optional (dec_list dec_str) "examples" kv;
  inputModes ← optional (dec_list dec_str) "inputModes" kv;
  outputModes ← optional (dec_list dec_str) "outputModes" kv;
  Some (mkAgentSkill id name description tags examples inputModes outputModes).

Definition encode_AgentSkill (k : AgentSkill) : json :=
  JDict [("id", JStr (skill_id k));
         ("name", JStr (skill_name k));
         ("description", enc_opt JStr (skill_description k));
         ("tags", enc_opt (enc_list JStr) (tags k));
         ("examples", enc_opt (enc_list JStr) (examples k));
         ("inputModes", enc_opt (enc_list JStr) (inputModes k));
         ("outputModes", enc_opt (enc_list JStr) (outputModes k))].

Definition decode_AgentCard (j : json) : option AgentCard :=
  kv ← dec_dict j;
  name ← required dec_str "name" kv;
  description ← optional dec_str "description" kv;
  url ← required dec_str "url" kv;
  provider ← optional decode_AgentProvider "provider" kv;
  version ← required dec_str "version" kv;
  documentationUrl ← optional dec_str "documentationUrl" kv;
  capabilities ← required decode_AgentCapabilities "capabilities" kv;
  authentication ← optional decode_AgentAuthentication "authentication" kv;
  defaultInputModes ← defaulted (dec_list dec_str) ["text"] "defaultInputModes" kv;
  defaultOutputModes ← defaulted (dec_list dec_str) ["text"] "defaultOutputModes" kv;
  skills ← required (dec_list decode_AgentSkill) "skills" kv;
  Some (mkAgentCard name description url provider version documentationUrl
          capabilities authentication defaultInputModes defaultOutputModes skills).

Definition encode_AgentCard (c : AgentCard) : json :=
  JDict [("name", JStr (card_name c));
         ("description", enc_opt JStr (card_description c));
         ("url", JStr (card_url c));
         ("provider", enc_opt encode_AgentProvider (provider c));
         ("version", JStr (version c));
         ("documentationUrl", enc_opt JStr (documentationUrl c));
         ("capabilities", encode_AgentCapabilities (capabilities c));
         ("authentication", enc_opt encode_AgentAuthentication (card_authentication c));
         ("defaultInputModes", enc_list JStr (defaultInputModes c));
         ("defaultOutputModes", enc_list JStr (defaultOutputModes c));
         ("skills", enc_list encode_AgentSkill (skills c))].

End Types.

(** ** The 0.1 server transport *)
Module Server.
Import Json Types.

Definition known_methods : list string :=
  ["tasks/send"; "tasks/get"; "tasks/cancel"; "tasks/pushNotification/set";
   "tasks/pushNotification/get"; "tasks/resubscribe"; "tasks/sendSubscribe"].

(** Modelled from the spec: the server transport ([common/server/server.py])
    is not under [src/].  Section 4.5 has it decode the body, discriminate on
    [method] and answer an unknown method with -32601 before it invokes the
    matching handler; section 8 has a request whose parameters the decoder
    rejects answered with invalid params (-32602). *)
Definition receive (fresh_id fresh_session : string) (body : json)
  : A2ARequest + JSONRPCError :=
  match decode_A2ARequest fresh_id fresh_session body with
  | Some request => inl request
  | None =>
      match dec_dict body ≫= required dec_str "method" with
      | Some method =>
          if existsb (String.eqb method) known_methods
          then inr (InvalidParamsError "Invalid parameters")
          else inr MethodNotFoundError
      | None => inr InvalidRequestError
      end
  end.

End Server.

(** ** The 0.1 task manager, [0.1/agents/task_manager.py] *)
Module TaskManager.
Import Json Types.

(** [ElementAPIResponse], read with [agent_response["content"]],
    [.get("require_user_input", False)] and [.get("is_task_complete", True)]. *)
Record AgentResponse : Type := mkAgentResponse {
  content : string;
  require_user_input : option bool;
  is_task_complete : option bool }.

(** [ElementAgent.SUPPORTED_CONTENT_TYPES] *)
Definition SUPPORTED_CONTENT_TYPES : list string := ["text"; "text/plain"].

(** [_get_user_query] *)
Definition _get_user_query (task_send_params : TaskSendParams) : Py.outcome string :=
  match parts (tsp_message task_send_params) with
  | [] => Py.Raised (Py.ValueError "Message parts cannot be empty")
  | PText part :: _ => Py.Returned (text part)
  | _ :: _ => Py.Raised (Py.ValueError "Only text parts are supported")
  end.

(** Modelled from the spec: [utils.new_incompatible_types_error] of
    [common/server/utils.py], which is not under [src/]; this is the error of
    the response it builds.  The spec: "Incoming acceptedOutputModes must
    intersect the agent's declared output modes; else -32005", the code of
    [ContentTypeNotSupportedError] ("-32005 incompatible content types"). *)
Definition new_incompatible_types_error : JSONRPCError :=
  ContentTypeNotSupportedError.

Section Manager.

Variable datetime : Type.
(** [datetime.now()], the timestamp a new [TaskStatus] takes. *)
Variable now : datetime.

Local Abbreviation TaskStatus := (TaskStatus datetime).
Local Abbreviation Task := (Task datetime).

(** What goes onto a task's SSE queue. *)
Inductive SseEvent : Type :=
| StatusEvent (e : TaskStatusUpdateEvent datetime)
| ArtifactEvent (e : TaskArtifactUpdateEvent)
| ErrorEvent (e : JSONRPCError).

(** The base class [InMemoryTaskManager] ([common/server/task_manager.py]),
    [common.server.utils] and [PushNotificationSenderAuth] are not under
    [src/]; the manager is modelled over any store with their operations. *)
Variable Store : Type.
Variable upsert_task : Store -> TaskSendParams -> Store.
Variable update_store : Store -> string -> TaskStatus -> list Artifact -> Store * Task.
Variable append_task_history : Task -> option Z -> Task.
Variable store_push_notification_info :
  Store -> string -> PushNotificationConfig -> Store.
Variable get_push_notification_info : Store -> string -> option PushNotificationConfig.
Variable setup_sse_consumer : Store -> string -> bool -> Store.
Variable enqueue_events_for_sse : Store -> string -> SseEvent -> Store.
Variable are_modalities_compatible : list string -> list string -> bool.
Variable verify_push_notification_url : string -> bool.

(** The agent: [invoke] answers or raises; [stream] yields items and may
    raise after them. *)
Variable invoke : string -> string -> Py.outcome AgentResponse.
Variable stream : string -> string -> list (bool * string) * option Py.exn.

(** What the manager does to the world outside the store. *)
Inductive Effect : Type :=
| Invoked (query sessionId : string)
| Streamed (query sessionId : string)
| Notified (url : string) (task : Task).

Record World : Type := mkWorld {
  store : Store;
  effects : list Effect }.

Definition with_store (w : World) (s : Store) : World := mkWorld s (effects w).
Definition with_effect (w : World) (e : Effect) : World :=
  mkWorld (store w) (effects w ++ [e]).

(** What a handler hands back to the server. *)
Inductive Reply : Type :=
| Responded (result : option Task) (error : option JSONRPCError)
| Streaming.

(** [_validate_request]; of the [JSONRPCResponse] it returns the handlers
    read the [error] only. *)
Definition _validate_request (task_send_params : TaskSendParams)
  : option JSONRPCError :=
  let output_modes := default [] (acceptedOutputModes task_send_params) in
  if negb (are_modalities_compatible output_modes SUPPORTED_CONTENT_TYPES)
  then Some new_incompatible_types_error
  else
    match pushNotification task_send_params with
    | Some push =>
        if negb (Py.truthy_str (url push))
        then Some (InvalidParamsError "Push notification URL is missing")
        else None
    | None => None
    end.

(** [set_push_notification_info]: the URL is verified before it is stored. *)
Definition set_push_notification_info (w : World) (task_id : string)
  (config : PushNotificationConfig) : World * bool :=
  if negb (verify_push_notification_url (url config)) then (w, false)
  else (with_store w (store_push_notification_info (store w) task_id config), true).

(** [send_task_notification] *)
Definition send_task_notification (w : World) (task : Task) : World :=
  match get_push_notification_info (store w) (id datetime task) with
  | None => w
  | Some push_info => with_effect w (Notified (url push_info) task)
  end.

(** [_process_agent_response] *)
Definition _process_agent_response (w : World) (params : TaskSendParams)
  (agent_response : AgentResponse) : World * Reply :=
  let parts := [PText (mkTextPart (content agent_response) None)] in
  let message := mkMessage agent parts None in
  let completed :=
    negb (default false (require_user_input agent_response))
    && default true (is_task_complete agent_response) in
  let task_status :=
    mkTaskStatus datetime (if completed then COMPLETED else FAILED)
      (Some message) now in
  let artifacts :=
    if completed then [mkArtifact None None parts None 0 None None] else [] in
  let '(s, task) := update_store (store w) (tsp_id params) task_status artifacts in
  let task_result := append_task_history task (historyLength params) in
  let w := send_task_notification (with_store w s) task in
  (w, Responded (Some task_result) None).

(** [on_send_task] *)
Definition on_send_task (w : World) (params : TaskSendParams)
  : World * Py.outcome Reply :=
  match _validate_request params with
  | Some error => (w, Py.Returned (Responded None (Some error)))
  | None =>
      let '(w, accepted) :=
        match pushNotification params with
        | Some push => set_push_notification_info w (tsp_id params) push
        | None => (w, true)
        end in
      if negb accepted then
        (w, Py.Returned
              (Responded None
                 (Some (InvalidParamsError "Push notification URL is invalid"))))
      else
        let w := with_store w (upsert_task (store w) params) in
        let '(s, task) :=
          update_store (store w) (tsp_id params)
            (mkTaskStatus datetime WORKING None now) [] in
        let w := send_task_notification (with_store w s) task in
        match _get_user_query params with
        | Py.Raised e => (w, Py.Raised e)
        | Py.Returned query =>
            let w := with_effect w (Invoked query (tsp_sessionId params)) in
            match invoke query (tsp_sessionId params) with
            | Py.Raised e =>
                (w, Py.Raised
                      (Py.ValueError
                         (String.append "调用智能体时发生错误: " (Py.str_of_exn e))))
            | Py.Returned agent_response =>
                let '(w, reply) := _process_agent_response w params agent_response in
                (w, Py.Returned reply)
            end
        end
  end.

(** One item of the agent's stream, inside the [try] of
    [_run_streaming_agent]. *)
Definition stream_item (params : TaskSendParams) (w : World)
  (item : bool * string) : World :=
  let '(is_task_complete, text) := item in
  let parts := [PText (mkTextPart text None)] in
  let task_state := if is_task_complete then COMPLETED else WORKING in
  let message := if is_task_complete then None
                 else Some (mkMessage agent parts None) in
  let artifact := mkArtifact None None parts None 0 (Some false) None in
  let task_status := mkTaskStatus datetime task_state message now in
  let '(s, latest_task) :=
    update_store (store w) (tsp_id params) task_status
      (if is_task_complete then [artifact] else []) in
  let w := send_task_notification (with_store w s) latest_task in
  let w :=
    if is_task_complete
    then with_store w
           (enqueue_events_for_sse (store w) (tsp_id params)
              (ArtifactEvent (mkTaskArtifactUpdateEvent (tsp_id params) artifact None)))
    else w in
  with_store w
    (enqueue_events_for_sse (store w) (tsp_id params)
       (StatusEvent
          (mkTaskStatusUpdateEvent datetime (tsp_id params) task_status
             is_task_complete None))).

(** [_run_streaming_agent], the background task of a streaming request: the
    query is read before the [try] block is entered. *)
Definition _run_streaming_agent (w : World) (params : TaskSendParams)
  : World * Py.outcome unit :=
  match _get_user_query params with
  | Py.Raised e => (w, Py.Raised e)
  | Py.Returned query =>
      let w := with_effect w (Streamed query (tsp_sessionId params)) in
      let '(items, failure) := stream query (tsp_sessionId params) in
      let w := fold_left (stream_item params) items w in
      match failure with
      | None => (w, Py.Returned tt)
      | Some e =>
          (with_store w
             (enqueue_events_for_sse (store w) (tsp_id params)
                (ErrorEvent
                   (InternalError
                      (String.append "流式响应处理过程中发生错误: "
                         (Py.str_of_exn e))))),
           Py.Returned tt)
      end
  end.

(** [on_send_task_subscribe]: the reply to the server, and whether the
    background task was started. *)
Definition on_send_task_subscribe (w : World) (params : TaskSendParams)
  : World * Reply * bool :=
  match _validate_request params with
  | Some error => (w, Responded None (Some error), false)
  | None =>
      let w := with_store w (upsert_task (store w) params) in
      let '(w, accepted) :=
        match pushNotification params with
        | Some push => set_push_notification_info w (tsp_id params) push
        | None => (w, true)
        end in
      if negb accepted then
        (w, Responded None
              (Some (InvalidParamsError "Push notification URL is invalid")), false)
      else
        let w := with_store w (setup_sse_consumer (store w) (tsp_id params) false) in
        (w, Streaming, true)
  end.

End Manager.

End TaskManager.

(* ===================================================================== *)
(** * Part II: the properties                                             *)
(* ===================================================================== *)

(** ** Order facts about binary64 comparisons *)
Module FloatFacts.

Lemma SFcompare_antisym x y :
  SFcompare y x = option_map CompOpp (SFcompare x y).
Proof.
  destruct x as [sx|sx| |sx mx ex], y as [sy|sy| |sy my ey]; simpl;
    try reflexivity;
    try (destruct sx; reflexivity); try (destruct sy; reflexivity);
    try (destruct sx, sy; reflexivity).
  change (Pos.compare_cont Eq my mx) with (Pos.compare my mx).
  change (Pos.compare_cont Eq mx my) with (Pos.compare mx my).
  rewrite (Z.compare_antisym ex ey), (Pos.compare_antisym mx my).
  destruct sx, sy; simpl; try reflexivity;
    destruct (ex ?= ey)%Z; simpl; try reflexivity;
    destruct (mx ?= my)%positive; reflexivity.
Qed.

Lemma SFltb_trans x y z :
  SFltb x y = true -> SFltb y z = true -> SFltb x z = true.
Proof.
  unfold SFltb.
  destruct x as [sx|sx| |sx mx ex], y as [sy|sy| |sy my ey],
           z as [sz|sz| |sz mz ez]; simpl;
    try discriminate; try reflexivity;
    try (destruct sx; simpl; try discriminate; try reflexivity; fail);
    try (destruct sx, sy; simpl; try discriminate; try reflexivity; fail);
    try (destruct sx, sz; simpl; try discriminate; try reflexivity; fail);
    try (destruct sy, sz; simpl; try discriminate; try reflexivity; fail);
    try (destruct sx, sy, sz; simpl; try discriminate; try reflexivity; fail).
  all: change (Pos.compare_cont Eq) with Pos.compare.
  all: destruct sx, sy, sz; simpl; try discriminate; try reflexivity.
  all: try (destruct (Z.compare_spec ex ey); try destruct (Pos.compare_spec mx my);
       simpl; try discriminate; fail).
  all: try (destruct (Z.compare_spec ey ez); try destruct (Pos.compare_spec my mz);
       simpl; try discriminate; fail).
  all: destruct (Z.compare_spec ex ey); try destruct (Pos.compare_spec mx my);
       simpl; try discriminate; intros _;
       destruct (Z.compare_spec ey ez); try destruct (Pos.compare_spec my mz);
       simpl; try discriminate; intros _;
       destruct (Z.compare_spec ex ez); try destruct (Pos.compare_spec mx mz);
       simpl; try reflexivity; try lia.
Qed.

(** No float is below itself. *)
Lemma ltb_irrefl (x : float) : PrimFloat.ltb x x = false.
Proof.
  rewrite ltb_spec. unfold SFltb.
  destruct (Prim2SF x) as [s|s| |s m e]; simpl; try done; destruct s; try done;
    rewrite Z.compare_refl;
    change (Pos.compare_cont Eq m m) with (Pos.compare m m);
    by rewrite Pos.compare_refl.
Qed.

(** [<] on floats is transitive. *)
Lemma ltb_trans (x y z : float) :
  PrimFloat.ltb x y = true -> PrimFloat.ltb y z = true -> PrimFloat.ltb x z = true.
Proof. rewrite !ltb_spec. apply SFltb_trans. Qed.

(** [y <= x] excludes [x < y]. *)
Lemma leb_not_ltb (x y : float) :
  PrimFloat.leb y x = true -> PrimFloat.ltb x y = false.
Proof.
  rewrite leb_spec, ltb_spec. unfold SFleb, SFltb.
  rewrite (SFcompare_antisym (Prim2SF x) (Prim2SF y)).
  destruct (SFcompare (Prim2SF x) (Prim2SF y)) as [[| |]|]; simpl; congruence.
Qed.

(** [x < y] excludes [y <= x]. *)
Lemma ltb_not_leb (x y : float) :
  PrimFloat.ltb x y = true -> PrimFloat.leb y x = false.
Proof.
  intros H. destruct (PrimFloat.leb y x) eqn:E; [|done].
  apply leb_not_ltb in E. congruence.
Qed.

End FloatFacts.

Module HostManagerSpec.
Import HostManager.

(** *** Chunked artifacts ([process_artifact_event]) *)

(** Scenario 3 of the specification: A1 arrives as "a", "b", "c". *)
Example chunked_abc :
  let t0 := mkTask "t" "c" (mkTaskStatus working None None) (Some []) None in
  let chunk txt app lst :=
    mkTaskArtifactUpdateEvent "t" "c" (mkArtifact "A1" None None [TextPart txt])
      (Some app) (Some lst) in
  process_artifact_events ∅ t0
    [chunk "a" false false; chunk "b" true false; chunk "c" true true]
  = (∅, set_artifacts t0
          (Some [mkArtifact "A1" None None [TextPart "a"; TextPart "b"; TextPart "c"]])).
Proof. vm_compute. reflexivity. Qed.

Lemma arts_snoc (t : Task) (a : Artifact) :
  (if Py.truthy_opt_list (artifacts t)
   then default [] (artifacts t) ++ [a] else [a])
  = default [] (artifacts t) ++ [a].
Proof. destruct (artifacts t) as [[|x l]|]; reflexivity. Qed.

Lemma arts_fresh_snoc (t : Task) (a : Artifact) :
  (if negb (Py.truthy_opt_list (artifacts t))
   then [] else default [] (artifacts t)) ++ [a]
  = default [] (artifacts t) ++ [a].
Proof. destruct (artifacts t) as [[|x l]|]; reflexivity. Qed.

(** A chunk with [append] unset or false and [lastChunk] unset or true goes
    straight to the task; the temp store is not touched. *)
Lemma process_complete chunks t ev :
  Py.truthy_opt_bool (append ev) = false ->
  lastChunk ev <> Some false ->
  process_artifact_event chunks t ev
  = (chunks, set_artifacts t (Some (default [] (artifacts t) ++ [artifact ev]))).
Proof.
  intros Happ Hlast. unfold process_artifact_event. rewrite Happ. simpl.
  destruct (lastChunk ev) as [[|]|]; try congruence;
    by rewrite arts_fresh_snoc.
Qed.

(** The first chunk of a stream opens an accumulator behind the pending ones. *)
Lemma process_first chunks t ev :
  Py.truthy_opt_bool (append ev) = false ->
  lastChunk ev = Some false ->
  process_artifact_event chunks t ev
  = (<[artifactId (artifact ev) :=
         default [] (chunks !! artifactId (artifact ev)) ++ [artifact ev]]> chunks, t).
Proof.
  intros Happ Hlast. unfold process_artifact_event.
  by rewrite Happ, Hlast.
Qed.

(** An append chunk that is not the last extends the newest accumulator. *)
Lemma process_append chunks t ev init acc :
  chunks !! artifactId (artifact ev) = Some (init ++ [acc]) ->
  Py.truthy_opt_bool (append ev) = true ->
  Py.truthy_opt_bool (lastChunk ev) = false ->
  process_artifact_event chunks t ev
  = (<[artifactId (artifact ev) :=
         init ++ [set_parts acc (art_parts acc ++ art_parts (artifact ev))]]> chunks, t).
Proof.
  intros Hpend Happ Hlast. unfold process_artifact_event.
  rewrite Happ, Hpend, last_snoc, Hlast. simpl.
  by rewrite removelast_last.
Qed.

(** The last chunk extends the newest accumulator, moves it to the task and
    drops it from the temp store, together with the key when nothing else is
    pending under it. *)
Lemma process_last chunks t ev init acc :
  chunks !! artifactId (artifact ev) = Some (init ++ [acc]) ->
  Py.truthy_opt_bool (append ev) = true ->
  Py.truthy_opt_bool (lastChunk ev) = true ->
  process_artifact_event chunks t ev
  = (if Py.truthy_list init
     then <[artifactId (artifact ev) := init]> chunks
     else delete (artifactId (artifact ev)) chunks,
     set_artifacts t
       (Some (default [] (artifacts t)
              ++ [set_parts acc (art_parts acc ++ art_parts (artifact ev))]))).
Proof.
  intros Hpend Happ Hlast. unfold process_artifact_event.
  rewrite Happ, Hpend, last_snoc, Hlast. simpl.
  by rewrite removelast_last, arts_snoc.
Qed.

(** What a middle chunk of the stream for [aid] looks like. *)
Definition middle_chunk (aid : string) (ev : TaskArtifactUpdateEvent) : Prop :=
  artifactId (artifact ev) = aid
  /\ Py.truthy_opt_bool (append ev) = true
  /\ Py.truthy_opt_bool (lastChunk ev) = false.

Definition parts_of (evs : list TaskArtifactUpdateEvent) : list Part :=
  concat (map (fun ev => art_parts (artifact ev)) evs).

Lemma process_middles aid middles : forall chunks t init acc,
  Forall (middle_chunk aid) middles ->
  process_artifact_events (<[aid := init ++ [acc]]> chunks) t middles
  = (<[aid := init ++ [set_parts acc (art_parts acc ++ parts_of middles)]]> chunks, t).
Proof.
  induction middles as [|ev evs IH]; intros chunks t init acc Hmid.
  - unfold parts_of. simpl. rewrite app_nil_r. by destruct acc.
  - apply Forall_cons_1 in Hmid as [(Haid & Happ & Hlast) Hrest].
    unfold process_artifact_events in *. simpl.
    rewrite (process_append _ _ _ init acc);
      [| by rewrite Haid, lookup_insert_eq | done | done].
    simpl. rewrite Haid, insert_insert_eq, IH by done.
    unfold parts_of. simpl. by rewrite <- app_assoc.
Qed.

Lemma process_events_snoc chunks t evs ev :
  process_artifact_events chunks t (evs ++ [ev])
  = process_artifact_event (fst (process_artifact_events chunks t evs))
      (snd (process_artifact_events chunks t evs)) ev.
Proof. unfold process_artifact_events. by rewrite fold_left_app. Qed.


(** C10. An append chunk for an artifact id with nothing pending is dropped:
    the call returns, and the temp store and the task are as before. *)
Theorem C10_append_without_accumulator_is_dropped
  (chunks : gmap string (list Artifact)) (t : Task)
  (ev : TaskArtifactUpdateEvent) :
  append ev = Some true ->
  Py.truthy_list (default [] (chunks !! artifactId (artifact ev))) = false ->
  process_artifact_event chunks t ev = (chunks, t).
Proof.
  intros Happ Hnone. unfold process_artifact_event. rewrite Happ. simpl.
  destruct (chunks !! artifactId (artifact ev)) as [[|x l]|]; simpl in *;
    done.
Qed.

Definition open_task : Task :=
  mkTask "t1" "ctx" (mkTaskStatus working None None) (Some []) None.

Definition chunk (txt : string) (app lst : option bool) : TaskArtifactUpdateEvent :=
  mkTaskArtifactUpdateEvent "t1" "ctx"
    (mkArtifact "A1" None None [TextPart txt]) app lst.


Lemma C10_append_without_accumulator_witness :
  (∅ : gmap string (list Artifact)) !! "A1" = None
  /\ process_artifact_event ∅ open_task (chunk "b" (Some true) (Some false))
     = (∅, open_task).
Proof.
  split; [apply lookup_empty|].
  apply (C10_append_without_accumulator_is_dropped ∅ open_task
           (chunk "b" (Some true) (Some false)) eq_refl).
  simpl. by rewrite lookup_empty.
Defined.

(** *** Updates against stored tasks ([task_callback], [update_task]) *)

Section Callback.
Variable uuid4 : nat -> string.
Variable utcnow : nat -> float.
Variable str_of_task_state : TaskState -> string.

Local Abbreviation emit_event := (emit_event uuid4 utcnow str_of_task_state).
Local Abbreviation add_or_get_task := (add_or_get_task uuid4).
Local Abbreviation handle_update := (handle_update uuid4 utcnow str_of_task_state).
Local Abbreviation task_callback := (task_callback uuid4 utcnow str_of_task_state).

Lemma find_task_id tid tasks t :
  find_task tid tasks = Some t -> id t = tid.
Proof.
  unfold find_task. intros H. apply find_some in H as [_ H].
  by apply String.eqb_eq.
Qed.

Lemma find_update_first tid tasks t t' :
  find_task tid tasks = Some t -> id t' = tid ->
  find_task tid (update_first t' tasks) = Some t'.
Proof.
  unfold find_task. intros Hfind Hid. induction tasks as [|x rest IH]; [done|].
  simpl in *. rewrite Hid. destruct (String.eqb (id x) tid) eqn:E.
  - simpl. by rewrite Hid, String.eqb_refl.
  - simpl. rewrite E. by apply IH.
Qed.

Lemma emit_event_keeps m task name :
  _tasks (emit_event m task name) = _tasks m
  /\ _artifact_chunks (emit_event m task name) = _artifact_chunks m
  /\ _processing_tasks (emit_event m task name) = _processing_tasks m
  /\ _callback_depth (emit_event m task name) = _callback_depth m.
Proof.
  unfold emit_event.
  destruct task as [t|e|e]; simpl.
  - destruct (message (status t)); [done|].
    by destruct (Py.truthy_opt_list (artifacts t)).
  - by destruct (message (sue_status e)).
  - done.
Qed.

Lemma add_or_get_found m task t :
  Py.truthy_str (arg_id task) = true ->
  find_task (arg_id task) (_tasks m) = Some t ->
  add_or_get_task m task = (m, t).
Proof.
  intros Hid Hfind. unfold add_or_get_task. rewrite Hid. simpl.
  by rewrite Hfind.
Qed.

Lemma insert_message_history_id t msg :
  id (insert_message_history t msg) = id t.
Proof. unfold insert_message_history. by repeat (case_match; simpl). Qed.

Lemma insert_message_history_status t msg :
  status (insert_message_history t msg) = status t.
Proof. unfold insert_message_history. by repeat (case_match; simpl). Qed.

(** Outside a re-entrant call the callback reaches its [try] block. *)
Definition enters (m : Manager) (task_id : string) : Prop :=
  (task_id ∉ _processing_tasks m)
  /\ (default 0 (_callback_depth m !! task_id) <= 5)%Z.

Lemma task_callback_enters m task name :
  enters m (arg_id task) ->
  exists m0,
    _tasks m0 = _tasks m /\ _artifact_chunks m0 = _artifact_chunks m
    /\ _tasks (fst (task_callback m task name))
       = _tasks (fst (handle_update m0 task name))
    /\ _artifact_chunks (fst (task_callback m task name))
       = _artifact_chunks (fst (handle_update m0 task name))
    /\ snd (task_callback m task name) = snd (handle_update m0 task name).
Proof.
  intros [Hproc Hdepth]. unfold task_callback.
  rewrite bool_decide_eq_false_2 by done.
  destruct (5 <? _)%Z eqn:E; [apply Z.ltb_lt in E; lia|].
  set (m0 := with_depth _ _). exists m0.
  split; [done|]. split; [done|].
  destruct (handle_update m0 task name) as [m1 r]. simpl.
  unfold leave. by repeat (case_match; simpl).
Qed.

Lemma attach_message_keeps m msg tid :
  _tasks (attach_message_to_task m msg tid) = _tasks m.
Proof. by destruct msg. Qed.

Lemma handle_status_update m e name t :
  Py.truthy_str (sue_taskId e) = true ->
  find_task (sue_taskId e) (_tasks m) = Some t ->
  let t' := insert_message_history (set_status t (sue_status e))
              (message (sue_status e)) in
  _tasks (fst (handle_update m (ArgStatus e) name)) = update_first t' (_tasks m)
  /\ snd (handle_update m (ArgStatus e) name) = t'.
Proof.
  intros Hid Hfind t'. unfold handle_update.
  destruct (emit_event_keeps m (ArgStatus e) name) as (Ht & _).
  rewrite (add_or_get_found _ _ t); [| done | by rewrite Ht].
  cbv zeta. unfold update_task. cbn [fst snd with_tasks _tasks].
  by rewrite attach_message_keeps, Ht.
Qed.

Lemma handle_artifact_update m e name t :
  Py.truthy_str (aue_taskId e) = true ->
  find_task (aue_taskId e) (_tasks m) = Some t ->
  let r := process_artifact_event (_artifact_chunks m) t e in
  _tasks (fst (handle_update m (ArgArtifact e) name)) = update_first (snd r) (_tasks m)
  /\ _artifact_chunks (fst (handle_update m (ArgArtifact e) name)) = fst r
  /\ snd (handle_update m (ArgArtifact e) name) = snd r.
Proof.
  intros Hid Hfind r. unfold handle_update.
  destruct (emit_event_keeps m (ArgArtifact e) name) as (Ht & Hc & _).
  rewrite (add_or_get_found _ _ t); [| done | by rewrite Ht].
  rewrite Hc. fold r. destruct r as [chunks t'].
  unfold update_task. cbn [fst snd with_tasks with_artifact_chunks _tasks _artifact_chunks].
  by rewrite Ht.
Qed.

Lemma process_artifact_event_id chunks t e :
  id (snd (process_artifact_event chunks t e)) = id t.
Proof.
  unfold process_artifact_event.
  destruct (negb (Py.truthy_opt_bool (append e))).
  - by destruct (lastChunk e) as [[|]|].
  - destruct (chunks !! artifactId (artifact e)) as [pending|]; [|done].
    destruct (last pending); [|done].
    by destruct (Py.truthy_opt_bool (lastChunk e)).
Qed.

End Callback.

(** The amended reading of C1 for [update_task]: the stored record with the
    task's id is replaced by the record passed in. *)
Lemma update_task_replaces tasks (old task : Task) :
  find_task (id task) tasks = Some old ->
  find_task (id task) (InMemoryFakeAgentManager.update_task tasks task) = Some task.
Proof. intros H. by apply (find_update_first _ _ old). Qed.

(** C1 (amended). No update is refused on account of the task's state.  For a
    stored task and a callback that is not re-entrant, a status update event
    leaves the stored task with the event's status, an artifact update event
    leaves it as [process_artifact_event] makes it, and [update_task] replaces
    the stored record by the one passed in; the state the task was in plays no
    part. *)
Theorem C1_updates_apply_in_every_state
  (uuid4 : nat -> string) (utcnow : nat -> float)
  (str_of_task_state : TaskState -> string)
  (m : Manager) (t : Task) (name : string)
  (se : TaskStatusUpdateEvent) (ae : TaskArtifactUpdateEvent) (replacement : Task) :
  let callback := task_callback uuid4 utcnow str_of_task_state in
  find_task (id t) (_tasks m) = Some t ->
  Py.truthy_str (id t) = true ->
  enters m (id t) ->
  sue_taskId se = id t ->
  aue_taskId ae = id t ->
  id replacement = id t ->
  (exists t',
     find_task (id t) (_tasks (fst (callback m (ArgStatus se) name))) = Some t'
     /\ snd (callback m (ArgStatus se) name) = t'
     /\ status t' = sue_status se)
  /\ (let r := process_artifact_event (_artifact_chunks m) t ae in
      find_task (id t) (_tasks (fst (callback m (ArgArtifact ae) name))) = Some (snd r)
      /\ _artifact_chunks (fst (callback m (ArgArtifact ae) name)) = fst r)
  /\ find_task (id t) (InMemoryFakeAgentManager.update_task (_tasks m) replacement)
     = Some replacement
  /\ find_task (id t) (_tasks (update_task m replacement)) = Some replacement.
Proof.
  intros callback Hfind Hid Henter Hse Hae Hrep. subst callback.
  split; [|split; [|split]].
  - destruct (task_callback_enters uuid4 utcnow str_of_task_state m (ArgStatus se) name)
      as (m0 & Ht0 & _ & Htasks & _ & Hres); [by simpl; rewrite Hse|].
    destruct (handle_status_update uuid4 utcnow str_of_task_state m0 se name t)
      as [Hupd Hsnd]; [by rewrite Hse | by rewrite Hse, Ht0|].
    eexists. rewrite Htasks, Hupd, Hres, Hsnd, Ht0.
    split; [|split; [reflexivity|]].
    + apply (find_update_first _ _ t); [done|].
      by rewrite insert_message_history_id.
    + by rewrite insert_message_history_status.
  - destruct (task_callback_enters uuid4 utcnow str_of_task_state m (ArgArtifact ae) name)
      as (m0 & Ht0 & Hc0 & Htasks & Hchunks & Hres); [by simpl; rewrite Hae|].
    destruct (handle_artifact_update uuid4 utcnow str_of_task_state m0 ae name t)
      as (Hupd & Hch & Hsnd); [by rewrite Hae | by rewrite Hae, Ht0|].
    cbv zeta. rewrite Htasks, Hupd, Hchunks, Hch, Hc0, Ht0. split; [|done].
    apply (find_update_first _ _ t); [done|].
    by rewrite process_artifact_event_id.
  - rewrite <- Hrep. apply (update_task_replaces _ t). by rewrite Hrep.
  - rewrite <- Hrep. apply (find_update_first _ _ t); [by rewrite Hrep | done].
Qed.

(** *** A finished task, and updates that reach it *)

Fixpoint tally (n : nat) : string :=
  match n with
  | O => ""
  | S k => String "i" (tally k)
  end.

Definition sample_uuid4 (n : nat) : string := String.append "uuid-" (tally n).
Definition sample_utcnow (n : nat) : float := 1700000000%float.
Definition sample_str (s : TaskState) : string :=
  match s with
  | submitted => "TaskState.submitted"
  | working => "TaskState.working"
  | input_required => "TaskState.input_required"
  | completed => "TaskState.completed"
  | canceled => "TaskState.canceled"
  | failed => "TaskState.failed"
  | rejected => "TaskState.rejected"
  | auth_required => "TaskState.auth_required"
  | unknown => "TaskState.unknown"
  end.

Definition ask : Message :=
  mkMessage "m1" user [TextPart "ping"] (Some "t1") (Some "ctx").

Definition pong : Artifact := mkArtifact "a1" None None [TextPart "pong"].

Definition done_task : Task :=
  mkTask "t1" "ctx" (mkTaskStatus completed None None) (Some [pong]) (Some [ask]).

Definition done_manager : Manager :=
  mkManager [done_task] ∅ ∅ ∅ ∅ ∅ 0.

Definition late_status : TaskStatusUpdateEvent :=
  mkTaskStatusUpdateEvent "t1" "ctx"
    (mkTaskStatus working
       (Some (mkMessage "m2" agent [TextPart "again"] (Some "t1") (Some "ctx")))
       None)
    false.

Definition late_artifact : TaskArtifactUpdateEvent :=
  mkTaskArtifactUpdateEvent "t1" "ctx"
    (mkArtifact "a2" None None [TextPart "more"]) None None.

Definition sample_callback :=
  task_callback sample_uuid4 sample_utcnow sample_str.

(** C1 fails as stated: the task [t1] is completed, and a later status update
    still changes its status and history, a later artifact update still adds
    an artifact, and [update_task] still replaces the record. *)
Lemma C1_counterexample :
  find_task "t1" (_tasks done_manager) = Some done_task
  /\ terminal (state (status done_task)) = true
  /\ find_task "t1" (_tasks (fst (sample_callback done_manager (ArgStatus late_status) "agent")))
     = Some (mkTask "t1" "ctx" (sue_status late_status) (Some [pong])
               (Some [ask; mkMessage "m2" agent [TextPart "again"] (Some "t1") (Some "ctx")]))
  /\ find_task "t1" (_tasks (fst (sample_callback done_manager (ArgArtifact late_artifact) "agent")))
     = Some (mkTask "t1" "ctx" (mkTaskStatus completed None None)
               (Some [pong; artifact late_artifact]) (Some [ask]))
  /\ InMemoryFakeAgentManager.update_task (_tasks done_manager)
       (set_status done_task (mkTaskStatus working None None))
     = [set_status done_task (mkTaskStatus working None None)].
Proof. vm_compute. repeat split; reflexivity. Qed.

Lemma C1_updates_apply_witness :
  find_task (id done_task) (_tasks done_manager) = Some done_task
  /\ terminal (state (status done_task)) = true
  /\ exists t',
       find_task (id done_task)
         (_tasks (fst (sample_callback done_manager (ArgStatus late_status) "agent")))
       = Some t'
       /\ status t' = sue_status late_status.
Proof.
  split; [reflexivity|]. split; [reflexivity|].
  destruct (C1_updates_apply_in_every_state sample_uuid4 sample_utcnow sample_str
              done_manager done_task "agent" late_status late_artifact done_task)
    as [(t' & Hfind & _ & Hstatus) _].
  - reflexivity.
  - reflexivity.
  - split; [set_solver | unfold done_manager; simpl; rewrite lookup_empty; simpl; lia].
  - reflexivity.
  - reflexivity.
  - reflexivity.
  - exists t'. split; assumption.
Defined.

End HostManagerSpec.

(** ** Agent selection, [0.2/app.py] *)
Module AppSpec.
Import Str App.

(** *** The combiner *)

(** The branches of the [try]/[except] in [execute], for whatever
    [await analyze_request(user_input)] did: if it raised, the decision would
    be the scorer's pick with the scorer's confidence; if its vote agrees with
    the scorer, the pick is that agent with confidence
    [max(keyword_confidence, 0.85)]; if they disagree and
    [keyword_confidence < 0.65], the pick is the arbiter's with confidence
    0.8; if they disagree and [keyword_confidence >= 0.65], the pick and the
    confidence are the scorer's. *)
Lemma combine_branches
  (analyze_request_by_keywords : str -> string * float) (user_input : str)
  (llm_result : string) (e : Py.exn) :
  let keyword_result := fst (analyze_request_by_keywords user_input) in
  let keyword_confidence := snd (analyze_request_by_keywords user_input) in
  let failed := combine keyword_result keyword_confidence (Py.Raised e) in
  let answered :=
    combine keyword_result keyword_confidence (Py.Returned llm_result) in
  (agent_type failed = keyword_result /\ confidence failed = keyword_confidence)
  /\ (keyword_result = llm_result ->
      agent_type answered = keyword_result
      /\ confidence answered = Py.max keyword_confidence 0.85)
  /\ (keyword_result <> llm_result ->
      PrimFloat.ltb keyword_confidence 0.65 = true ->
      agent_type answered = llm_result /\ confidence answered = 0.8%float)
  /\ (keyword_result <> llm_result ->
      PrimFloat.leb 0.65 keyword_confidence = true ->
      agent_type answered = keyword_result
      /\ confidence answered = keyword_confidence).
Proof.
  intros kr kc failed answered. subst failed answered. unfold combine.
  split; [done|]. split; [|split].
  - intros <-. by rewrite String.eqb_refl.
  - intros Hne Hlow. apply String.eqb_neq in Hne. by rewrite Hne, Hlow.
  - intros Hne Hhigh. apply String.eqb_neq in Hne.
    apply FloatFacts.leb_not_ltb in Hhigh. by rewrite Hne, Hhigh.
Qed.

(** What the scorer answers for a query that holds none of its keywords
    ([return 'element', 0.5]). *)
Definition unsure_scorer (request : str) : string * float := ("element", 0.5%float).

(** A model that cannot be reached: [model.ainvoke] raises. *)
Definition unreachable_model (request : str) : Py.outcome str :=
  Py.Raised (Py.OtherError "connection refused").

(** C4, at the failing input.  The query "hello" holds no keyword, so the
    scorer answers [("element", 0.5)], and the model call raises.  The claim
    has the scorer's pick with the scorer's confidence, 0.5, and so has the
    [except] branch of [execute] ("回退使用关键词分析结果").  That branch is
    not reached: [analyze_request] catches the failure itself and returns the
    scorer's pick, [execute] takes it for the arbiter's vote and finds an
    agreement.  The pick is the scorer's, but the confidence is
    [max(0.5, 0.85) = 0.85] and the decision is labelled an agreement. *)
Theorem C4_failed_model_call_counts_as_agreement :
  let d :=
    select ascii_lower ascii_isspace unsure_scorer unreachable_model (u "hello") in
  unreachable_model (u "hello") = Py.Raised (Py.OtherError "connection refused")
  /\ analyze_request ascii_lower ascii_isspace unsure_scorer unreachable_model
       (u "hello") = "element"
  /\ d = mkDecision "element" 0.85 "一致结果"
  /\ confidence d <> snd (unsure_scorer (u "hello"))
  /\ combine "element" 0.5 (Py.Raised (Py.OtherError "connection refused"))
     = mkDecision "element" 0.5 "关键词 (LLM失败)".
Proof.
  cbv zeta. split; [reflexivity|]. split; [reflexivity|].
  split; [reflexivity|]. split; [|reflexivity].
  intros H. apply (f_equal (PrimFloat.ltb 0.6)) in H. vm_compute in H.
  discriminate.
Qed.

(** The executor follows the pick. *)
Lemma current_executor_currency d :
  current_executor d = currency_executor <-> agent_type d = "currency".
Proof.
  unfold current_executor. destruct (String.eqb_spec (agent_type d) "currency");
    split; congruence.
Qed.

(** [analyze_request] never raises: when the model call fails it answers with
    the scorer's pick, so [execute] sees an arbiter that agrees with the
    scorer. *)
Lemma select_when_model_call_fails
  (lower : str -> str) (isspace : N -> bool)
  (analyze_request_by_keywords : str -> string * float)
  (ainvoke : str -> Py.outcome str) (user_input : str) (e : Py.exn) :
  ainvoke user_input = Py.Raised e ->
  let d := select lower isspace analyze_request_by_keywords ainvoke user_input in
  agent_type d = fst (analyze_request_by_keywords user_input)
  /\ confidence d = Py.max (snd (analyze_request_by_keywords user_input)) 0.85.
Proof.
  intros Hfail. unfold select, analyze_request. rewrite Hfail.
  destruct (analyze_request_by_keywords user_input) as [kr kc]. simpl.
  by rewrite String.eqb_refl.
Qed.

(** *** The context window *)

Lemma slice_length text start stop :
  (0 <= start)%Z ->
  (Z.of_nat (length (slice text start stop)) <= stop - start)%Z
  \/ (stop < start)%Z.
Proof.
  intros Hs. unfold slice. rewrite length_take. lia.
Qed.

(** The window holds the term's occurrence and at most [window_size]
    characters on either side. *)
Lemma context_window_length text term w :
  context_window text term = Some w ->
  (Z.of_nat (length w) <= len term + 2 * window_size)%Z.
Proof.
  unfold context_window. destruct (find text term) as [pos|]; [|done].
  intros [= <-]. unfold slice, len, window_size. rewrite length_take. lia.
Qed.

(** A query whose only context words lie between 50 and 100 characters
    after the term. *)
Definition far_context : str :=
  u "gold" ++ repeat 32%N 60 ++ u "atomic element".

(** C5 at the failing input.  The term is at position 0 and the words
    "atomic element" start 64 characters in: the window [app.py] scores is
    "gold" and the 50 characters after it, the context words are not in it and
    the verdict is the tie default; a window of 100 characters, as the same
    function in [__main__.py] takes it, holds the whole query, and scored it
    gives the other verdict. *)
Theorem C5_window_is_50_characters :
  find far_context (u "gold") = Some 0
  /\ context_window far_context (u "gold") = Some (u "gold" ++ repeat 32%N 50)
  /\ Main.context_window ascii_lower far_context (u "gold") = Some far_context
  /\ analyze_ambiguous_term_context ascii_lower far_context (u "gold") = "currency"
  /\ score_window ascii_lower far_context (u "gold") = "element".
Proof. vm_compute. repeat split; reflexivity. Qed.

End AppSpec.

(** ** The verdict cache, [0.2/__main__.py] *)
Module MainSpec.
Import Str Main.

Lemma eqb_refl (a : str) : eqb a a = true.
Proof. induction a as [|c a IH]; [done|]. simpl. by rewrite N.eqb_refl. Qed.

Lemma eqb_eq (a b : str) : eqb a b = true <-> a = b.
Proof.
  split; [|intros ->; apply eqb_refl].
  revert b. induction a as [|c a IH]; intros [|d b]; simpl; try done.
  intros [Hc Hab]%andb_prop. apply N.eqb_eq in Hc. apply IH in Hab. congruence.
Qed.

Section Cache.
Variable lower : str -> str.
Variable isspace : N -> bool.
Variable Result : Type.

Local Abbreviation Entry := (Entry Result).
Local Abbreviation QueryCache := (QueryCache Result).
Local Abbreviation _normalize_query := (_normalize_query lower isspace).
Local Abbreviation get := (get lower isspace Result).
Local Abbreviation set := (set lower isspace Result).

Implicit Types (d : list (str * Entry)) (c : QueryCache) (e : Entry).

(** *** The dict *)

Lemma dict_get_set d key e :
  dict_get Result key (dict_set Result key e d) = Some e.
Proof.
  induction d as [|[k e'] d IH]; simpl.
  - by rewrite eqb_refl.
  - destruct (eqb k key) eqn:E; simpl; by rewrite E.
Qed.

Lemma dict_set_length d key e :
  length (dict_set Result key e d) <= S (length d).
Proof.
  induction d as [|[k e'] d IH]; simpl; [lia|].
  destruct (eqb k key); simpl; lia.
Qed.

Lemma dict_del_length d key e :
  (key, e) ∈ d -> S (length (dict_del Result key d)) = length d.
Proof.
  induction d as [|[k e'] d IH]; simpl; intros Hin.
  - by apply elem_of_nil in Hin.
  - destruct (eqb k key) eqn:E; [done|]. simpl. f_equal. apply IH.
    apply elem_of_cons in Hin as [[= -> ->]|Hin]; [|done].
    by rewrite eqb_refl in E.
Qed.

Lemma dict_del_length_le d key :
  length (dict_del Result key d) <= length d.
Proof.
  induction d as [|[k e'] d IH]; simpl; [lia|].
  destruct (eqb k key); simpl; lia.
Qed.

(** *** [min] by timestamp *)

Lemma min_from_in best d :
  min_from Result best d ∈ best :: d.
Proof.
  revert best. induction d as [|x d IH]; intros best; simpl.
  - by apply list_elem_of_singleton.
  - destruct (PrimFloat.ltb _ _).
    + apply elem_of_cons. right. apply IH.
    + destruct (proj1 (elem_of_cons _ _ _) (IH best)) as [->|Hin].
      * apply elem_of_cons. by left.
      * apply elem_of_cons. right. apply elem_of_cons. by right.
Qed.

Lemma min_from_le best d :
  min_from Result best d = best
  \/ PrimFloat.ltb (timestamp Result (snd (min_from Result best d)))
       (timestamp Result (snd best)) = true.
Proof.
  revert best. induction d as [|x d IH]; intros best; simpl; [by left|].
  destruct (PrimFloat.ltb _ _) eqn:E; [|apply IH].
  right. destruct (IH x) as [->|Hlt]; [done|].
  by apply (FloatFacts.ltb_trans _ _ _ Hlt).
Qed.

(** No entry is older than the one [min] picks. *)
Lemma min_from_least best d x :
  x ∈ best :: d ->
  PrimFloat.ltb (timestamp Result (snd x))
    (timestamp Result (snd (min_from Result best d))) = false.
Proof.
  revert best x. induction d as [|y d IH]; intros best x Hin; simpl.
  - apply list_elem_of_singleton in Hin as ->. apply FloatFacts.ltb_irrefl.
  - destruct (PrimFloat.ltb (timestamp Result (snd y)) (timestamp Result (snd best)))
      eqn:E.
    + apply elem_of_cons in Hin as [->|Hin]; [|by apply IH].
      destruct (PrimFloat.ltb (timestamp Result (snd best)) _) eqn:Hb; [|done].
      pose proof (FloatFacts.ltb_trans _ _ _ E Hb) as Hy.
      rewrite (IH y y) in Hy; [done|]. apply elem_of_cons. by left.
    + apply elem_of_cons in Hin as [->|Hin].
      { apply IH. apply elem_of_cons. by left. }
      apply elem_of_cons in Hin as [->|Hin].
      2: { apply IH. apply elem_of_cons. by right. }
      destruct (min_from_le best d) as [->|Hlt]; [exact E|].
      destruct (PrimFloat.ltb (timestamp Result (snd y))
                  (timestamp Result (snd (min_from Result best d)))) eqn:Hy; [|done].
      pose proof (FloatFacts.ltb_trans _ _ _ Hy Hlt). congruence.
Qed.

(** *** [get] and [set] *)

Lemma set_unfold c query r now :
  set c query r now =
  let key := _normalize_query query in
  if (max_size Result c <=? len_entries Result (cache Result c))%Z then
    match cache Result c with
    | [] => Py.Raised (Py.ValueError "min() arg is an empty sequence")
    | x :: rest =>
        Py.Returned
          (with_cache Result c
             (dict_set Result key (mkEntry Result r now)
                (dict_del Result (fst (min_from Result x rest)) (cache Result c))))
    end
  else
    Py.Returned
      (with_cache Result c (dict_set Result key (mkEntry Result r now) (cache Result c))).
Proof.
  unfold Main.set. destruct (_ <=? _)%Z; [|done].
  by destruct (cache Result c).
Qed.

(** *** The normal form of a query *)

Lemma word_or_none (word : str) :
  Forall (fun ch => isspace ch = false) word ->
  Forall (fun w => w <> [] /\ Forall (fun ch => isspace ch = false) w)
    (if Py.truthy_list word then [word] else []).
Proof.
  intros Hword. destruct word as [|ch word]; simpl; [constructor|].
  constructor; [|constructor]. split; [discriminate | exact Hword].
Qed.

Lemma split_ws_words text : forall word,
  Forall (fun ch => isspace ch = false) word ->
  Forall (fun w => w <> [] /\ Forall (fun ch => isspace ch = false) w)
    (split_ws isspace text word).
Proof.
  induction text as [|ch text IH]; intros word Hword; simpl.
  - by apply word_or_none.
  - destruct (isspace ch) eqn:Hc.
    + apply Forall_app. split; [by apply word_or_none|]. apply IH. constructor.
    + apply IH. apply Forall_app. split; [done|].
      constructor; [done | constructor].
Qed.

Lemma split_ws_concat text : forall word,
  concat (split_ws isspace text word)
  = word ++ List.filter (fun ch => negb (isspace ch)) text.
Proof.
  induction text as [|ch text IH]; intros word; simpl.
  - destruct word; simpl; by rewrite ?app_nil_r.
  - destruct (isspace ch) eqn:Hc; simpl.
    + rewrite concat_app, IH. destruct word; simpl; by rewrite ?app_nil_r.
    + by rewrite IH, <- app_assoc.
Qed.

(** The words of a query are its maximal runs of non-whitespace characters,
    in order; [_normalize_query] joins the words of the lowercased query with
    single spaces. *)
Lemma normalize_query_words query :
  _normalize_query query = join (u " ") (split isspace (lower query))
  /\ Forall (fun w => w <> [] /\ Forall (fun ch => isspace ch = false) w)
       (split isspace (lower query))
  /\ concat (split isspace (lower query))
     = List.filter (fun ch => negb (isspace ch)) (lower query).
Proof.
  split; [done|]. split.
  - apply split_ws_words. constructor.
  - apply (split_ws_concat _ []).
Qed.

(** *** The size bound along any series of calls *)

Lemma call_bound c op :
  (len_entries Result (cache Result c) <= max_size Result c)%Z ->
  (len_entries Result (cache Result (call lower isspace Result c op))
   <= max_size Result (call lower isspace Result c op))%Z
  /\ max_size Result (call lower isspace Result c op) = max_size Result c.
Proof.
  intros Hbound. destruct op as [query t|query r now|]; simpl.
  - unfold Main.get, len_entries in *.
    destruct (dict_get Result _ (cache Result c)) as [e|]; [|done].
    destruct (PrimFloat.leb _ _); [done|]. simpl. split; [|done].
    pose proof (dict_del_length_le (cache Result c)
                  (_normalize_query query)). lia.
  - rewrite set_unfold. cbv zeta. unfold len_entries in *.
    destruct (_ <=? _)%Z eqn:Hfull.
    + destruct (cache Result c) as [|x rest] eqn:Hc; [by rewrite Hc|].
      simpl. split; [|done].
      pose proof (min_from_in x rest) as Hin.
      destruct (min_from Result x rest) as [vk ve].
      pose proof (dict_del_length _ _ _ Hin) as Hdel.
      pose proof (dict_set_length (dict_del Result vk (x :: rest))
                    (_normalize_query query) (mkEntry Result r now)) as Hset.
      simpl in *. lia.
    + simpl. split; [|done]. apply Z.leb_gt in Hfull.
      pose proof (dict_set_length (cache Result c) (_normalize_query query)
                    (mkEntry Result r now)). lia.
  - unfold len_entries in *. simpl. lia.
Qed.

Lemma calls_bound ops : forall c,
  (len_entries Result (cache Result c) <= max_size Result c)%Z ->
  (len_entries Result (cache Result (calls lower isspace Result c ops))
   <= max_size Result c)%Z.
Proof.
  induction ops as [|op ops IH]; intros c Hbound; [done|].
  unfold calls in *. simpl.
  destruct (call_bound c op Hbound) as [Hb Hm].
  specialize (IH _ Hb). rewrite Hm in IH. exact IH.
Qed.

(** C6 (amended).  The cache keys every query by [_normalize_query]: [set]
    stores the verdict under the normalized query and [get] answers alike for
    queries with the same normal form.  [get] returns an entry only while
    [current_time - timestamp <= ttl], and drops an older one.  [set] never
    lets the cache grow beyond [max_size].  When the cache is full, [set]
    evicts the entry whose stored timestamp is the smallest, that is the
    entry written longest ago; a hit in [get] changes nothing in the cache,
    so reads do not protect an entry from eviction.  The global cache has
    [max_size = 100] and [ttl = 3600], and holds at most 100 entries after
    any series of calls. *)
Theorem C6_cache_contract (c : QueryCache) (query : str) (r : Result) (now : float) :
  let key := _normalize_query query in
  (forall c', set c query r now = Py.Returned c' ->
     dict_get Result key (cache Result c') = Some (mkEntry Result r now)
     /\ max_size Result c' = max_size Result c /\ ttl Result c' = ttl Result c)
  /\ (forall query', _normalize_query query' = key ->
        get c query' now = get c query now
        /\ set c query' r now = set c query r now)
  /\ (forall r', snd (get c query now) = Some r' ->
        exists e, dict_get Result key (cache Result c) = Some e
          /\ result Result e = r'
          /\ PrimFloat.leb (PrimFloat.sub now (timestamp Result e)) (ttl Result c) = true
          /\ fst (get c query now) = c)
  /\ (forall e, dict_get Result key (cache Result c) = Some e ->
        PrimFloat.ltb (ttl Result c) (PrimFloat.sub now (timestamp Result e)) = true ->
        get c query now = (with_cache Result c (dict_del Result key (cache Result c)), None))
  /\ (forall c', (len_entries Result (cache Result c) <= max_size Result c)%Z ->
        set c query r now = Py.Returned c' ->
        (len_entries Result (cache Result c') <= max_size Result c')%Z)
  /\ (len_entries Result (cache Result (fst (get c query now)))
      <= len_entries Result (cache Result c))%Z
  /\ (forall c', (max_size Result c <= len_entries Result (cache Result c))%Z ->
        set c query r now = Py.Returned c' ->
        exists victim,
          victim ∈ cache Result c
          /\ (forall x, x ∈ cache Result c ->
                PrimFloat.ltb (timestamp Result (snd x))
                  (timestamp Result (snd victim)) = false)
          /\ cache Result c'
             = dict_set Result key (mkEntry Result r now)
                 (dict_del Result (fst victim) (cache Result c)))
  /\ (forall ops,
        (len_entries Result
           (cache Result (calls lower isspace Result (query_cache Result) ops))
         <= 100)%Z)
  /\ (max_size Result (query_cache Result) = 100%Z
      /\ ttl Result (query_cache Result) = 3600%float
      /\ cache Result (query_cache Result) = []).
Proof.
  intros key.
  split; [|split; [|split; [|split; [|split; [|split; [|split; [|split]]]]]]].
  - intros c'. rewrite set_unfold. cbv zeta. fold key.
    destruct (_ <=? _)%Z; [destruct (cache Result c) as [|x rest]; [done|]|];
      intros [= <-]; simpl; by rewrite dict_get_set.
  - intros query' Hkey. unfold Main.get, Main.set. fold key. by rewrite Hkey.
  - intros r'. unfold Main.get. fold key.
    destruct (dict_get Result key (cache Result c)) as [e|] eqn:He; [|done].
    destruct (PrimFloat.leb _ _) eqn:Hfresh; [|done].
    simpl. intros [= <-]. by exists e.
  - intros e He Hold. unfold Main.get. fold key. rewrite He.
    by rewrite (FloatFacts.ltb_not_leb _ _ Hold).
  - intros c' Hbound. rewrite set_unfold. cbv zeta. fold key.
    unfold len_entries in *.
    destruct (_ <=? _)%Z eqn:Hfull.
    + destruct (cache Result c) as [|x rest] eqn:Hc; [done|].
      intros [= <-]. simpl.
      pose proof (min_from_in x rest) as Hin.
      destruct (min_from Result x rest) as [vk ve].
      pose proof (dict_del_length _ _ _ Hin) as Hdel.
      pose proof (dict_set_length (dict_del Result vk (x :: rest)) key
                    (mkEntry Result r now)) as Hset.
      simpl in *. lia.
    + intros [= <-]. simpl. apply Z.leb_gt in Hfull.
      pose proof (dict_set_length (cache Result c) key (mkEntry Result r now)).
      lia.
  - unfold Main.get, len_entries. fold key.
    destruct (dict_get Result key (cache Result c)) as [e|]; [|done].
    destruct (PrimFloat.leb _ _); [done|]. simpl.
    pose proof (dict_del_length_le (cache Result c) key). lia.
  - intros c' Hfull. rewrite set_unfold. cbv zeta. fold key.
    apply Z.leb_le in Hfull. rewrite Hfull.
    destruct (cache Result c) as [|x rest] eqn:Hc; [done|].
    intros [= <-]. exists (min_from Result x rest).
    split; [apply min_from_in|]. split; [|done].
    intros y Hy. by apply min_from_least.
  - intros ops. by apply (calls_bound ops (query_cache Result)).
  - done.
Qed.

End Cache.

(** *** A cache of two entries *)

Definition get' := get ascii_lower ascii_isspace string.
Definition set' := set ascii_lower ascii_isspace string.

(** [set] on a cache that does not raise. *)
Definition set_ok (c : QueryCache string) (query : string) (r : string)
  (now : float) : QueryCache string :=
  match set' c (u query) r now with
  | Py.Returned c' => c'
  | Py.Raised _ => c
  end.

Lemma normalize_example_query :
  _normalize_query ascii_lower ascii_isspace (u "  New   QUERY ") = u "new query".
Proof. vm_compute. reflexivity. Qed.

Example normalize_example :
  _normalize_query ascii_lower ascii_isspace (u "  Gold   PRICE today ")
  = u "gold price today".
Proof. vm_compute. reflexivity. Qed.

Definition two_entries : QueryCache string :=
  set_ok (set_ok (init string 2 3600) "a" "verdict a" 1) "b" "verdict b" 2.

(** C6 fails as stated on the eviction policy.  With room for two entries,
    "a" is written at time 1 and "b" at time 2; "a" is then read at time 3 (a
    hit), which makes "b" the least recently used entry.  Storing "c" at time
    4 evicts "a", the entry just read, and keeps "b". *)
Lemma C6_counterexample :
  let '(after_read, hit) := get' two_entries (u "a") 3 in
  let after_store := set_ok after_read "c" "verdict c" 4 in
  hit = Some "verdict a"
  /\ map fst (cache string after_store) = [u "b"; u "c"]
  /\ snd (get' after_store (u "a") 5) = None
  /\ snd (get' after_store (u "b") 5) = Some "verdict b".
Proof. vm_compute. repeat split; reflexivity. Qed.

Lemma C6_cache_contract_witness :
  exists c',
    set' two_entries (u "  New   QUERY ") "verdict" 4 = Py.Returned c'
    /\ dict_get string (u "new query") (cache string c')
       = Some (mkEntry string "verdict" 4)
    /\ (len_entries string (cache string c') <= max_size string c')%Z
    /\ exists victim,
         victim ∈ cache string two_entries
         /\ cache string c'
            = dict_set string (u "new query") (mkEntry string "verdict" 4)
                (dict_del string (fst victim) (cache string two_entries)).
Proof.
  destruct (set' two_entries (u "  New   QUERY ") "verdict" 4) as [c'|e] eqn:E;
    [|vm_compute in E; discriminate].
  exists c'. split; [reflexivity|].
  destruct (C6_cache_contract ascii_lower ascii_isspace string two_entries
              (u "  New   QUERY ") "verdict" 4)
    as (Hkey & _ & _ & _ & Hsize & _ & Hevict & _ & _).
  rewrite normalize_example_query in Hkey, Hevict.
  split; [apply (Hkey c' E)|].
  split; [apply (Hsize c'); [vm_compute; discriminate | exact E]|].
  destruct (Hevict c') as (victim & Hin & _ & Hcache);
    [vm_compute; discriminate | exact E |].
  exists victim. split; assumption.
Defined.

End MainSpec.

(** ** The type model, [0.1/common/types.py] *)
Module TypesSpec.
Import Json Types.

(** *** What the field decoders do on an encoded field *)

Lemma required_lookup {T} (dec : json -> option T) k kv j x :
  lookup k kv = Some j -> dec j = Some x -> required dec k kv = Some x.
Proof. unfold required. intros -> H. exact H. Qed.

Lemma defaulted_lookup {T} (dec : json -> option T) d k kv j x :
  lookup k kv = Some j -> dec j = Some x -> defaulted dec d k kv = Some x.
Proof. unfold defaulted. intros -> H. exact H. Qed.

Lemma literal_lookup v k kv :
  lookup k kv = Some (JStr v) -> literal v k kv = Some tt.
Proof. unfold literal. intros ->. by rewrite String.eqb_refl. Qed.

Lemma optional_lookup {T} (dec : json -> option T) (enc : T -> json) k kv o :
  lookup k kv = Some (enc_opt enc o) ->
  (forall x, o = Some x -> enc x <> JNull /\ dec (enc x) = Some x) ->
  optional dec k kv = Some o.
Proof.
  unfold optional. intros -> H. destruct o as [x|]; [|done]. simpl.
  destruct (H x eq_refl) as [Hnull ->]. by destruct (enc x).
Qed.

Lemma dec_items_map {T} (P : T -> Prop) (dec : json -> option T) (enc : T -> json) l :
  (forall x, P x -> dec (enc x) = Some x) ->
  Forall P l -> dec_items dec (map enc l) = Some l.
Proof.
  intros Hrt. induction 1 as [|x l Hx Hl IH]; [done|].
  simpl. by rewrite (Hrt x Hx), IH.
Qed.

Lemma dec_list_enc_list {T} (P : T -> Prop) (dec : json -> option T) (enc : T -> json) l :
  (forall x, P x -> dec (enc x) = Some x) ->
  Forall P l -> dec_list dec (enc_list enc l) = Some l.
Proof. apply dec_items_map. Qed.

Lemma dec_strings l : dec_list dec_str (enc_list JStr l) = Some l.
Proof. apply (dec_list_enc_list (fun _ => True)); [done|]. by apply Forall_true. Qed.

(** A codec round-trips on the values [P] holds of. *)
Definition roundtrips {T} (P : T -> Prop) (enc : T -> json) (dec : json -> option T)
  : Prop :=
  forall x, P x -> dec (enc x) = Some x.

(** Decoding an encoding and encoding again gives the encoding back. *)
Lemma roundtrips_reencode {T} (P : T -> Prop) enc dec :
  roundtrips P enc dec ->
  forall x, P x -> exists y, dec (enc x) = Some y /\ enc y = enc x.
Proof. intros H x Hx. exists x. by rewrite (H x Hx). Qed.

(** *** Well-formed values: what the validators guarantee of a decoded value *)
Definition wf_FileContent (f : FileContent) : Prop :=
  check_content f = Py.Returned f.

Definition wf_Part (p : Part) : Prop :=
  match p with
  | PFile p => wf_FileContent (file p)
  | _ => True
  end.

Definition wf_Message (m : Message) : Prop := Forall wf_Part (parts m).

Definition wf_Artifact (a : Artifact) : Prop := Forall wf_Part (art_parts a).

Definition wf_opt {T} (P : T -> Prop) (o : option T) : Prop :=
  match o with Some x => P x | None => True end.

Lemma dec_str_JStr s : dec_str (JStr s) = Some s.
Proof. reflexivity. Qed.
Lemma dec_int_JInt z : dec_int (JInt z) = Some z.
Proof. reflexivity. Qed.
Lemma dec_bool_JBool b : dec_bool (JBool b) = Some b.
Proof. reflexivity. Qed.
Lemma dec_dict_JDict kv : dec_dict (JDict kv) = Some kv.
Proof. reflexivity. Qed.

Create HintDb codec.
#[local] Hint Resolve dec_str_JStr dec_int_JInt dec_bool_JBool dec_dict_JDict : codec.

(** No encoder writes [None] for a value that is there. *)
Ltac not_null :=
  unfold enc_list, encode_Message, encode_Artifact, encode_FileContent,
    encode_PushNotificationConfig, encode_AuthenticationInfo,
    encode_AgentProvider, encode_AgentAuthentication, encode_JSONRPCError;
  discriminate.

Ltac field :=
  first
    [ erewrite literal_lookup by reflexivity
    | erewrite required_lookup; [| reflexivity | solve [eauto with codec nocore] ]
    | erewrite defaulted_lookup; [| reflexivity | solve [eauto with codec nocore] ]
    | erewrite optional_lookup;
      [| reflexivity
       | let x := fresh "x" in
         let Hx := fresh "Hx" in
         intros x Hx; cbn in Hx; subst; split;
         [not_null | solve [cbn in * |-; eauto with codec nocore]] ] ];
  cbn [mbind option_bind].

(** Reduce the projections of a record that has been taken apart. *)
Ltac projections :=
  cbn [text tp_metadata fc_name mimeType bytes uri file fp_metadata data
       dp_metadata role parts msg_metadata art_name art_description
       art_parts art_metadata index append lastChunk state message
       timestamp id sessionId status artifacts history task_metadata sue_id
       sue_status final sue_metadata aue_id aue_artifact aue_metadata
       schemes credentials extra url token authentication tip_id
       tip_metadata tqp_id tqp_metadata tqp_historyLength tsp_id
       tsp_sessionId tsp_message acceptedOutputModes pushNotification
       historyLength tsp_metadata tpc_id pushNotificationConfig code
       err_message err_data resp_id result error organization ap_url
       streaming pushNotifications stateTransitionHistory aa_schemes
       aa_credentials skill_id skill_name skill_description tags examples
       inputModes outputModes card_name card_description card_url provider
       version documentationUrl capabilities card_authentication
       defaultInputModes defaultOutputModes skills].

Ltac fields := projections; cbn [dec_dict mbind option_bind]; repeat field.

(** *** Parts, messages and artifacts *)

Lemma FileContent_roundtrip : roundtrips wf_FileContent encode_FileContent decode_FileContent.
Proof.
  intros [name mime b u] Hwf. unfold decode_FileContent, encode_FileContent.
  fields. by rewrite Hwf.
Qed.
#[local] Hint Resolve FileContent_roundtrip : codec.

Lemma Part_roundtrip : roundtrips wf_Part encode_Part decode_Part.
Proof.
  intros [[t m]|[f m]|[d m]] Hwf; unfold decode_Part, encode_Part; fields;
    cbn [String.eqb Ascii.eqb Bool.eqb andb];
    [unfold decode_TextPart | unfold decode_FilePart | unfold decode_DataPart];
    fields; reflexivity.
Qed.

Lemma Parts_roundtrip l :
  Forall wf_Part l -> dec_list decode_Part (enc_list encode_Part l) = Some l.
Proof. apply dec_list_enc_list, Part_roundtrip. Qed.
#[local] Hint Resolve Parts_roundtrip dec_strings : codec.

Lemma Role_roundtrip r : decode_Role (encode_Role r) = Some r.
Proof. by destruct r. Qed.
#[local] Hint Resolve Role_roundtrip : codec.

Lemma Message_roundtrip : roundtrips wf_Message encode_Message decode_Message.
Proof.
  intros [r ps m] Hwf. unfold decode_Message, encode_Message.
  unfold wf_Message in Hwf. fields. reflexivity.
Qed.
#[local] Hint Resolve Message_roundtrip : codec.

Lemma Messages_roundtrip l :
  Forall wf_Message l -> dec_list decode_Message (enc_list encode_Message l) = Some l.
Proof. apply dec_list_enc_list, Message_roundtrip. Qed.
#[local] Hint Resolve Messages_roundtrip : codec.

Lemma Artifact_roundtrip : roundtrips wf_Artifact encode_Artifact decode_Artifact.
Proof.
  intros [n d ps m i a l] Hwf. unfold decode_Artifact, encode_Artifact.
  unfold wf_Artifact in Hwf. fields. reflexivity.
Qed.
#[local] Hint Resolve Artifact_roundtrip : codec.

Lemma Artifacts_roundtrip l :
  Forall wf_Artifact l ->
  dec_list decode_Artifact (enc_list encode_Artifact l) = Some l.
Proof. apply dec_list_enc_list, Artifact_roundtrip. Qed.
#[local] Hint Resolve Artifacts_roundtrip : codec.

Lemma TaskState_roundtrip s : decode_TaskState (encode_TaskState s) = Some s.
Proof. by destruct s. Qed.
#[local] Hint Resolve TaskState_roundtrip : codec.

(** *** The agent card *)

Lemma AgentProvider_roundtrip p : decode_AgentProvider (encode_AgentProvider p) = Some p.
Proof. destruct p. unfold decode_AgentProvider, encode_AgentProvider. fields. reflexivity. Qed.

Lemma AgentCapabilities_roundtrip c :
  decode_AgentCapabilities (encode_AgentCapabilities c) = Some c.
Proof.
  destruct c. unfold decode_AgentCapabilities, encode_AgentCapabilities.
  fields. reflexivity.
Qed.

Lemma AgentAuthentication_roundtrip a :
  decode_AgentAuthentication (encode_AgentAuthentication a) = Some a.
Proof.
  destruct a. unfold decode_AgentAuthentication, encode_AgentAuthentication.
  fields. reflexivity.
Qed.

Lemma AgentSkill_roundtrip k : decode_AgentSkill (encode_AgentSkill k) = Some k.
Proof. destruct k. unfold decode_AgentSkill, encode_AgentSkill. fields. reflexivity. Qed.

Lemma AgentSkills_roundtrip l :
  dec_list decode_AgentSkill (enc_list encode_AgentSkill l) = Some l.
Proof.
  apply (dec_list_enc_list (fun _ => True)); [|by apply Forall_true].
  intros k _. apply AgentSkill_roundtrip.
Qed.
#[local] Hint Resolve AgentProvider_roundtrip AgentCapabilities_roundtrip
  AgentAuthentication_roundtrip AgentSkills_roundtrip : codec.

Lemma AgentCard_roundtrip c : decode_AgentCard (encode_AgentCard c) = Some c.
Proof. destruct c. unfold decode_AgentCard, encode_AgentCard. fields. reflexivity. Qed.

(** *** Tasks, events, parameters and envelopes *)
Section Models.
Variable datetime : Type.
Variable isoformat : datetime -> string.
Variable parse_datetime : json -> option datetime.
Variable now : datetime.
Variable fresh_id : string.
Variable fresh_session : string.

(** The timestamp [isoformat] writes is read back as the same [datetime]. *)
Hypothesis parse_isoformat : forall dt, parse_datetime (JStr (isoformat dt)) = Some dt.

Local Abbreviation TaskStatus := (TaskStatus datetime).
Local Abbreviation Task := (Task datetime).
Local Abbreviation decode_TaskStatus := (decode_TaskStatus datetime parse_datetime now).
Local Abbreviation encode_TaskStatus := (encode_TaskStatus datetime isoformat).
Local Abbreviation decode_Task := (decode_Task datetime parse_datetime now).
Local Abbreviation encode_Task := (encode_Task datetime isoformat).
Local Abbreviation decode_StreamEvent := (decode_StreamEvent datetime parse_datetime now).
Local Abbreviation encode_StreamEvent := (encode_StreamEvent datetime isoformat).

Definition wf_TaskStatus (s : TaskStatus) : Prop :=
  wf_opt wf_Message (message datetime s).

Definition wf_Task (t : Task) : Prop :=
  wf_TaskStatus (status datetime t)
  /\ wf_opt (Forall wf_Artifact) (artifacts datetime t)
  /\ wf_opt (Forall wf_Message) (history datetime t).

Definition wf_StreamEvent (e : StreamEvent datetime) : Prop :=
  match e with
  | inl e => wf_TaskStatus (sue_status datetime e)
  | inr e => wf_Artifact (aue_artifact e)
  end.

Definition wf_AuthenticationInfo (a : AuthenticationInfo) : Prop :=
  Forall (fun e => is_extra_key (fst e) = true) (extra a).

Definition wf_PushNotificationConfig (c : PushNotificationConfig) : Prop :=
  wf_opt wf_AuthenticationInfo (authentication c).

Definition wf_TaskSendParams (p : TaskSendParams) : Prop :=
  wf_Message (tsp_message p)
  /\ wf_opt wf_PushNotificationConfig (pushNotification p).

Definition wf_A2ARequest (r : A2ARequest) : Prop :=
  match r with
  | SendTaskRequest _ p | SendTaskStreamingRequest _ p => wf_TaskSendParams p
  | SetTaskPushNotificationRequest _ p =>
      wf_PushNotificationConfig (pushNotificationConfig p)
  | _ => True
  end.

Definition wf_Response {R} (P : R -> Prop) (r : Response R) : Prop :=
  wf_opt P (result r).

#[local] Hint Resolve parse_isoformat : codec.

Lemma TaskStatus_roundtrip : roundtrips wf_TaskStatus encode_TaskStatus decode_TaskStatus.
Proof.
  intros [st m ts] Hwf. unfold Types.decode_TaskStatus, Types.encode_TaskStatus.
  unfold wf_TaskStatus in Hwf. fields. reflexivity.
Qed.
#[local] Hint Resolve TaskStatus_roundtrip : codec.

Lemma Task_roundtrip : roundtrips wf_Task encode_Task decode_Task.
Proof.
  intros [i sid st arts h m] (Hst & Harts & Hh).
  unfold Types.decode_Task, Types.encode_Task. fields. reflexivity.
Qed.

Lemma TaskStatusUpdateEvent_roundtrip e :
  wf_TaskStatus (sue_status datetime e) ->
  decode_TaskStatusUpdateEvent datetime parse_datetime now
    (encode_TaskStatusUpdateEvent datetime isoformat e) = Some e.
Proof.
  destruct e. intros Hwf.
  unfold decode_TaskStatusUpdateEvent, encode_TaskStatusUpdateEvent.
  fields. reflexivity.
Qed.

Lemma TaskArtifactUpdateEvent_roundtrip e :
  wf_Artifact (aue_artifact e) ->
  decode_TaskArtifactUpdateEvent (encode_TaskArtifactUpdateEvent e) = Some e.
Proof.
  destruct e. intros Hwf.
  unfold decode_TaskArtifactUpdateEvent, encode_TaskArtifactUpdateEvent.
  fields. reflexivity.
Qed.

(** An encoded artifact event has no [status]: it is not read as a status
    event. *)
Lemma StreamEvent_roundtrip :
  roundtrips wf_StreamEvent encode_StreamEvent decode_StreamEvent.
Proof.
  intros [e|e] Hwf; unfold Types.decode_StreamEvent, Types.encode_StreamEvent.
  - by rewrite TaskStatusUpdateEvent_roundtrip.
  - rewrite TaskArtifactUpdateEvent_roundtrip by done. by destruct e.
Qed.

Lemma filter_extra l :
  Forall (fun e : string * json => is_extra_key (fst e) = true) l ->
  List.filter (fun e => is_extra_key (fst e)) l = l.
Proof.
  induction 1 as [|e l He Hl IH]; [done|]. simpl. by rewrite He, IH.
Qed.

Lemma AuthenticationInfo_roundtrip :
  roundtrips wf_AuthenticationInfo encode_AuthenticationInfo decode_AuthenticationInfo.
Proof.
  intros [sch cred ex] Hwf.
  unfold decode_AuthenticationInfo, encode_AuthenticationInfo.
  unfold wf_AuthenticationInfo in Hwf. fields. projections. cbn [app].
  cbn [List.filter fst is_extra_key String.eqb Ascii.eqb Bool.eqb orb negb].
  by rewrite filter_extra.
Qed.
#[local] Hint Resolve AuthenticationInfo_roundtrip : codec.

Lemma PushNotificationConfig_roundtrip :
  roundtrips wf_PushNotificationConfig
    encode_PushNotificationConfig decode_PushNotificationConfig.
Proof.
  intros [u t a] Hwf.
  unfold decode_PushNotificationConfig, encode_PushNotificationConfig.
  unfold wf_PushNotificationConfig in Hwf. fields. reflexivity.
Qed.
#[local] Hint Resolve PushNotificationConfig_roundtrip : codec.

Lemma TaskIdParams_roundtrip p : decode_TaskIdParams (encode_TaskIdParams p) = Some p.
Proof. destruct p. unfold decode_TaskIdParams, encode_TaskIdParams. fields. reflexivity. Qed.

Lemma TaskQueryParams_roundtrip p :
  decode_TaskQueryParams (encode_TaskQueryParams p) = Some p.
Proof.
  destruct p. unfold decode_TaskQueryParams, encode_TaskQueryParams.
  fields. reflexivity.
Qed.

Lemma TaskSendParams_roundtrip :
  roundtrips wf_TaskSendParams encode_TaskSendParams
    (decode_TaskSendParams fresh_session).
Proof.
  intros [i sid m modes push hl md] [Hm Hpush].
  unfold decode_TaskSendParams, encode_TaskSendParams. fields. reflexivity.
Qed.

Lemma TaskPushNotificationConfig_roundtrip c :
  wf_PushNotificationConfig (pushNotificationConfig c) ->
  decode_TaskPushNotificationConfig (encode_TaskPushNotificationConfig c) = Some c.
Proof.
  destruct c. intros Hwf.
  unfold decode_TaskPushNotificationConfig, encode_TaskPushNotificationConfig.
  fields. reflexivity.
Qed.
#[local] Hint Resolve TaskIdParams_roundtrip TaskQueryParams_roundtrip
  TaskSendParams_roundtrip TaskPushNotificationConfig_roundtrip : codec.

Lemma RpcId_roundtrip i method params :
  decode_RpcId fresh_id
    [("jsonrpc", JStr "2.0"); ("id", encode_RpcId i); ("method", method);
     ("params", params)] = Some i.
Proof. by destruct i. Qed.

Lemma A2ARequest_roundtrip :
  roundtrips wf_A2ARequest encode_A2ARequest (decode_A2ARequest fresh_id fresh_session).
Proof.
  intros [i p|i p|i p|i p|i p|i p|i p] Hwf;
    unfold decode_A2ARequest, encode_A2ARequest, envelope;
    cbn [dec_dict mbind option_bind];
    (erewrite (required_lookup dec_str "method");
       [| reflexivity | apply dec_str_JStr]);
    cbn [mbind option_bind];
    erewrite literal_lookup by reflexivity;
    rewrite RpcId_roundtrip;
    cbn [mbind option_bind String.eqb Ascii.eqb Bool.eqb andb];
    (erewrite (required_lookup _ "params");
       [| reflexivity | solve [cbn in Hwf; eauto with codec nocore] ]);
    reflexivity.
Qed.

Lemma JSONRPCError_roundtrip e : decode_JSONRPCError (encode_JSONRPCError e) = Some e.
Proof. destruct e. unfold decode_JSONRPCError, encode_JSONRPCError. fields. reflexivity. Qed.
#[local] Hint Resolve JSONRPCError_roundtrip : codec.

Lemma Response_roundtrip {R} (P : R -> Prop) (enc : R -> json) (dec : json -> option R) :
  (forall x, enc x <> JNull) ->
  roundtrips P enc dec ->
  roundtrips (wf_Response P) (encode_Response enc) (decode_Response fresh_id dec).
Proof.
  intros Hnull Hrt [i res err] Hwf. unfold wf_Response in Hwf.
  unfold decode_Response, encode_Response. fields.
  assert (decode_RpcId fresh_id
            [("jsonrpc", JStr "2.0"); ("id", encode_RpcId i);
             ("result", enc_opt enc res);
             ("error", enc_opt encode_JSONRPCError err)] = Some i) as ->
    by (by destruct i).
  cbn [mbind option_bind].
  erewrite (optional_lookup dec enc); [| reflexivity |].
  2: { intros x ->. split; [apply Hnull | by apply Hrt]. }
  cbn [mbind option_bind]. fields. reflexivity.
Qed.

End Models.

(** *** Encoding and decoding are inverse *)

(** Decoding the encoding of [x] gives [x], and encoding that again gives the
    encoding back. *)
Definition identity_on_valid {T} (P : T -> Prop) (enc : T -> json)
  (dec : json -> option T) : Prop :=
  forall x, P x -> dec (enc x) = Some x /\ enc <$> dec (enc x) = Some (enc x).

Lemma roundtrips_identity {T} (P : T -> Prop) enc dec :
  roundtrips P enc dec -> identity_on_valid P enc dec.
Proof. intros H x Hx. rewrite (H x Hx). by split. Qed.

Lemma Task_not_null datetime isoformat (t : Task datetime) :
  encode_Task datetime isoformat t <> JNull.
Proof. discriminate. Qed.

Lemma StreamEvent_not_null datetime isoformat (e : StreamEvent datetime) :
  encode_StreamEvent datetime isoformat e <> JNull.
Proof. by destruct e. Qed.

Lemma TaskPushNotificationConfig_not_null c :
  encode_TaskPushNotificationConfig c <> JNull.
Proof. discriminate. Qed.


(** What the decoder accepts but no encoder writes is put into the encoder's
    form: a text part without [metadata] comes back with [metadata] null. *)
Example decode_fills_defaults :
  encode_Part <$> decode_Part (JDict [("type", JStr "text"); ("text", JStr "hi")])
  = Some (JDict [("type", JStr "text"); ("text", JStr "hi"); ("metadata", JNull)]).
Proof. reflexivity. Qed.

(** A concrete reading of timestamps, for the examples: the ISO text itself. *)
Definition iso_datetime : Type := string.
Definition iso_format (dt : iso_datetime) : string := dt.
Definition iso_parse (j : json) : option iso_datetime := dec_str j.

Definition sample_file : FileContent :=
  mkFileContent (Some "a.txt") (Some "text/plain") None (Some "http://host/a.txt").

Definition sample_message : Message :=
  mkMessage user
    [PText (mkTextPart "hi" None); PFile (mkFilePart sample_file None)] None.

Definition sample_task : Task iso_datetime :=
  mkTask iso_datetime "t1" (Some "s1")
    (mkTaskStatus iso_datetime COMPLETED None "2025-05-01T10:00:00")
    (Some [mkArtifact None None [PText (mkTextPart "pong" None)] None 0 None None])
    (Some [sample_message]) None.

Lemma sample_task_wf : wf_Task iso_datetime sample_task.
Proof.
  split; [exact I|]. split; simpl.
  - repeat constructor.
  - repeat constructor.
Qed.


(** *** The task states *)

Lemma TaskState_of_value_spec v :
  is_Some (TaskState_of_value v)
  <-> v = "submitted" \/ v = "working" \/ v = "completed" \/ v = "failed".
Proof.
  unfold TaskState_of_value.
  destruct (String.eqb_spec v "submitted"); [by split; eauto|].
  destruct (String.eqb_spec v "working"); [by split; eauto|].
  destruct (String.eqb_spec v "completed"); [by split; eauto|].
  destruct (String.eqb_spec v "failed"); [by split; eauto 6|].
  split; [by intros [? ?]|]. intros [?|[?|[?|?]]]; congruence.
Qed.

(** C3 (amended). The task-state type admits exactly the four values
    submitted, working, completed and failed: a [TaskStatus] decodes for each
    of these state strings, and for no other string. *)
Theorem C3_task_state_admits_four_values
  (datetime : Type) (parse_datetime : json -> option datetime) (now : datetime)
  (v : string) :
  (is_Some (decode_TaskStatus datetime parse_datetime now (JDict [("state", JStr v)]))
   <-> v = "submitted" \/ v = "working" \/ v = "completed" \/ v = "failed")
  /\ (is_Some (decode_TaskState (JStr v))
      <-> v = "submitted" \/ v = "working" \/ v = "completed" \/ v = "failed")
  /\ (forall s, TaskState_of_value (TaskState_value s) = Some s).
Proof.
  split; [|split].
  - rewrite <- TaskState_of_value_spec.
    unfold decode_TaskStatus, required, optional, defaulted, decode_TaskState.
    cbn. destruct (TaskState_of_value v); cbn; split; intros [? ?]; eauto; done.
  - rewrite <- TaskState_of_value_spec. unfold decode_TaskState. by cbn.
  - by intros [].
Qed.

(** C3 fails as stated: canceled, input_required and unknown are not task
    states of this model, and a status with one of them does not decode. *)
Lemma C3_counterexample :
  decode_TaskStatus iso_datetime iso_parse "2025-05-01T10:00:00"
    (JDict [("state", JStr "canceled")]) = None
  /\ decode_TaskStatus iso_datetime iso_parse "2025-05-01T10:00:00"
       (JDict [("state", JStr "input_required")]) = None
  /\ decode_TaskStatus iso_datetime iso_parse "2025-05-01T10:00:00"
       (JDict [("state", JStr "unknown")]) = None
  /\ decode_TaskStatus iso_datetime iso_parse "2025-05-01T10:00:00"
       (JDict [("state", JStr "completed")])
     = Some (mkTaskStatus iso_datetime COMPLETED None "2025-05-01T10:00:00").
Proof. repeat split; reflexivity. Qed.

(** *** File parts *)

(** Exactly one of [bytes] and [uri] is a non-empty string. *)
Definition one_of_bytes_uri (b u : option string) : bool :=
  xorb (Py.truthy_opt_str b) (Py.truthy_opt_str u).

Lemma check_content_spec (f : FileContent) :
  check_content f
  = if one_of_bytes_uri (bytes f) (uri f) then Py.Returned f
    else if Py.truthy_opt_str (bytes f)
         then Py.Raised (Py.ValueError
                "Only one of 'bytes' or 'uri' can be present in the file data")
         else Py.Raised (Py.ValueError
                "Either 'bytes' or 'uri' must be present in the file data").
Proof.
  unfold check_content, one_of_bytes_uri.
  by destruct (Py.truthy_opt_str (bytes f)), (Py.truthy_opt_str (uri f)).
Qed.

Lemma decode_FileContent_valid j f :
  decode_FileContent j = Some f -> one_of_bytes_uri (bytes f) (uri f) = true.
Proof.
  unfold decode_FileContent. destruct (dec_dict j) as [kv|]; [|done]. cbn.
  destruct (optional dec_str "name" kv) as [name|]; [|done]. cbn.
  destruct (optional dec_str "mimeType" kv) as [mime|]; [|done]. cbn.
  destruct (optional dec_str "bytes" kv) as [b|]; [|done]. cbn.
  destruct (optional dec_str "uri" kv) as [u|]; [|done]. cbn.
  rewrite check_content_spec. cbn.
    destruct (one_of_bytes_uri b u) eqn:E.
  - by intros [= <-].
  - by destruct (Py.truthy_opt_str b).
Qed.

(** A [tasks/send] request whose message is the single file part [f]. *)
Definition send_file (rid : RpcId) (task_id session_id : string) (f : FileContent)
  : A2ARequest :=
  SendTaskRequest rid
    (mkTaskSendParams task_id session_id
       (mkMessage user [PFile (mkFilePart f None)] None) None None None None).

Lemma send_file_rejected fresh_id fresh_session rid task_id session_id f :
  one_of_bytes_uri (bytes f) (uri f) = false ->
  decode_A2ARequest fresh_id fresh_session
    (encode_A2ARequest (send_file rid task_id session_id f)) = None.
Proof.
  destruct f as [name mime b u]. cbn [bytes uri]. intros Hone.
  destruct rid, name, mime, b as [[|]|], u as [[|]|]; try discriminate Hone;
    reflexivity.
Qed.

(** C7 (amended). Decoding a file part succeeds exactly when exactly one of
    [bytes] and [uri] is a non-empty string; a field that is absent, null or
    the empty string counts as not present.  A file part with both non-empty,
    or with neither, is rejected by the decoder, and a request carrying it is
    answered with invalid params. *)
Theorem C7_file_part_needs_one_of_bytes_uri
  (name mime b u : option string) (metadata : option dict) :
  let f := mkFileContent name mime b u in
  decode_FileContent (encode_FileContent f)
  = (if one_of_bytes_uri b u then Some f else None)
  /\ decode_Part (encode_Part (PFile (mkFilePart f metadata)))
     = (if one_of_bytes_uri b u then Some (PFile (mkFilePart f metadata)) else None)
  /\ (forall j g, decode_FileContent j = Some g ->
        one_of_bytes_uri (bytes g) (uri g) = true)
  /\ (one_of_bytes_uri b u = false ->
      forall fresh_id fresh_session rid task_id session_id,
        Server.receive fresh_id fresh_session
          (encode_A2ARequest (send_file rid task_id session_id f))
        = inr (InvalidParamsError "Invalid parameters")
        /\ code (InvalidParamsError "Invalid parameters") = (-32602)%Z).
Proof.
  cbv zeta. split; [|split; [|split]].
  - destruct name, mime, b as [[|]|], u as [[|]|]; reflexivity.
  - destruct metadata, name, mime, b as [[|]|], u as [[|]|]; reflexivity.
  - apply decode_FileContent_valid.
  - intros Hone fresh_id fresh_session rid task_id session_id.
    split; [|reflexivity]. unfold Server.receive.
    by rewrite send_file_rejected.
Qed.

Lemma C7_file_part_witness :
  one_of_bytes_uri (Some "aGk=") (Some "http://host/a.txt") = false
  /\ decode_Part
       (encode_Part
          (PFile (mkFilePart
                    (mkFileContent None None (Some "aGk=") (Some "http://host/a.txt"))
                    None))) = None
  /\ Server.receive "fresh-id" "fresh-session"
       (encode_A2ARequest
          (send_file (IdInt 1) "t1" "s1"
             (mkFileContent None None (Some "aGk=") (Some "http://host/a.txt"))))
     = inr (InvalidParamsError "Invalid parameters").
Proof.
  destruct (C7_file_part_needs_one_of_bytes_uri None None (Some "aGk=")
              (Some "http://host/a.txt") None) as (_ & Hpart & _ & Hserver).
  split; [reflexivity|]. split; [exact Hpart|].
  exact (proj1 (Hserver eq_refl "fresh-id" "fresh-session" (IdInt 1) "t1" "s1")).
Defined.

(** C7 fails as stated: a file content carrying both fields, [bytes] the
    empty string and [uri] a URL, is accepted; one carrying only [bytes], the
    empty string, is rejected although exactly one field is there. *)
Lemma C7_counterexample :
  decode_FileContent (JDict [("bytes", JStr ""); ("uri", JStr "http://host/a.txt")])
  = Some (mkFileContent None None (Some "") (Some "http://host/a.txt"))
  /\ decode_Part
       (JDict [("type", JStr "file");
               ("file", JDict [("bytes", JStr "");
                               ("uri", JStr "http://host/a.txt")])])
     = Some (PFile (mkFilePart
                      (mkFileContent None None (Some "") (Some "http://host/a.txt"))
                      None))
  /\ decode_FileContent (JDict [("bytes", JStr "")]) = None.
Proof. repeat split; reflexivity. Qed.

End TypesSpec.

(** ** The task manager, [0.1/agents/task_manager.py] *)
Module TaskManagerSpec.
Import Json Types TaskManager TypesSpec.

Lemma get_user_query_empty (params : TaskSendParams) :
  parts (tsp_message params) = [] ->
  _get_user_query params
  = Py.Raised (Py.ValueError "Message parts cannot be empty").
Proof. unfold _get_user_query. by intros ->. Qed.

(** The decoder has no lower bound on the number of parts. *)
Lemma empty_parts_decode (r : Role) :
  decode_Message (encode_Message (mkMessage r [] None)) = Some (mkMessage r [] None).
Proof. by destruct r. Qed.

Section Manager.
Variable datetime : Type.
Variable now : datetime.
Variable Store : Type.
Variable upsert_task : Store -> TaskSendParams -> Store.
Variable update_store :
  Store -> string -> TaskStatus datetime -> list Artifact -> Store * Task datetime.
Variable append_task_history : Task datetime -> option Z -> Task datetime.
Variable store_push_notification_info :
  Store -> string -> PushNotificationConfig -> Store.
Variable get_push_notification_info : Store -> string -> option PushNotificationConfig.
Variable setup_sse_consumer : Store -> string -> bool -> Store.
Variable enqueue_events_for_sse : Store -> string -> SseEvent datetime -> Store.
Variable are_modalities_compatible : list string -> list string -> bool.
Variable verify_push_notification_url : string -> bool.
Variable invoke : string -> string -> Py.outcome AgentResponse.
Variable stream : string -> string -> list (bool * string) * option Py.exn.

Local Abbreviation World := (World datetime Store).
Local Abbreviation on_send_task :=
  (on_send_task datetime now Store upsert_task update_store append_task_history
     store_push_notification_info get_push_notification_info
     are_modalities_compatible verify_push_notification_url invoke).
Local Abbreviation on_send_task_subscribe :=
  (on_send_task_subscribe datetime Store upsert_task store_push_notification_info
     setup_sse_consumer are_modalities_compatible verify_push_notification_url).
Local Abbreviation _run_streaming_agent :=
  (_run_streaming_agent datetime now Store update_store
     get_push_notification_info enqueue_events_for_sse stream).
Local Abbreviation _validate_request :=
  (_validate_request are_modalities_compatible).

(** A request accepted by [_validate_request] that carries no push
    configuration. *)
Definition plain (params : TaskSendParams) : Prop :=
  _validate_request params = None /\ pushNotification params = None.

(** With an empty parts list [on_send_task] creates the task, moves it to
    working, and then raises [ValueError]; no response is built. *)
Lemma on_send_task_empty_parts (w : World) (params : TaskSendParams) :
  parts (tsp_message params) = [] -> plain params ->
  let s1 := upsert_task (store datetime Store w) params in
  let r := update_store s1 (tsp_id params)
             (mkTaskStatus datetime WORKING None now) [] in
  on_send_task w params
  = (send_task_notification datetime Store get_push_notification_info
       (mkWorld datetime Store (fst r) (effects datetime Store w)) (snd r),
     Py.Raised (Py.ValueError "Message parts cannot be empty")).
Proof.
  intros Hparts [Hvalid Hpush]. cbv zeta. unfold TaskManager.on_send_task.
  rewrite Hvalid, Hpush. cbn [negb].
  rewrite (get_user_query_empty params Hparts).
  unfold with_store. cbn [store effects].
  by destruct (update_store _ _ _ _).
Qed.

(** With an empty parts list [on_send_task_subscribe] answers with the event
    stream and starts the background task, which raises before the agent is
    asked and before anything is put on the stream. *)
Lemma on_send_task_subscribe_empty_parts (w : World) (params : TaskSendParams) :
  parts (tsp_message params) = [] -> plain params ->
  snd (fst (on_send_task_subscribe w params)) = Streaming datetime
  /\ snd (on_send_task_subscribe w params) = true
  /\ forall w', _run_streaming_agent w' params
       = (w', Py.Raised (Py.ValueError "Message parts cannot be empty")).
Proof.
  intros Hparts [Hvalid Hpush]. unfold TaskManager.on_send_task_subscribe.
  rewrite Hvalid, Hpush. cbn. split; [done|]. split; [done|].
  intros w'. unfold TaskManager._run_streaming_agent.
  by rewrite (get_user_query_empty params Hparts).
Qed.

End Manager.

(** *** A store for the examples *)

Definition Store : Type :=
  (list (Task iso_datetime) * list (string * SseEvent iso_datetime))%type.

Definition replace_task (t : Task iso_datetime) (ts : list (Task iso_datetime))
  : list (Task iso_datetime) :=
  t :: List.filter (fun x => negb (String.eqb (id iso_datetime x) (id iso_datetime t))) ts.

Definition find_task (task_id : string) (ts : list (Task iso_datetime))
  : option (Task iso_datetime) :=
  List.find (fun x => String.eqb (id iso_datetime x) task_id) ts.

(** Modelled from the spec: [InMemoryTaskManager.upsert_task] is not under
    [src/].  Section 4.3: create the task if absent, in state submitted with
    the history seeded with the user message, else append the new message to
    its history. *)
Definition sample_upsert_task (s : Store) (params : TaskSendParams) : Store :=
  match find_task (tsp_id params) (fst s) with
  | Some t =>
      (replace_task
         (mkTask iso_datetime (id iso_datetime t) (sessionId iso_datetime t)
            (status iso_datetime t) (artifacts iso_datetime t)
            (Some (default [] (history iso_datetime t) ++ [tsp_message params]))
            (task_metadata iso_datetime t)) (fst s), snd s)
  | None =>
      (mkTask iso_datetime (tsp_id params) (Some (tsp_sessionId params))
         (mkTaskStatus iso_datetime SUBMITTED None "2025-05-01T10:00:00")
         None (Some [tsp_message params]) None :: fst s, snd s)
  end.

(** Modelled from the spec: [InMemoryTaskManager.update_store] is not under
    [src/].  Section 4.3: set the status and append the artifacts; an update
    to a task in a terminal state is rejected, and the task stays as it is. *)
Definition sample_update_store (s : Store) (task_id : string)
  (st : TaskStatus iso_datetime) (arts : list Artifact)
  : Store * Task iso_datetime :=
  let old := default (mkTask iso_datetime task_id None st None None None)
               (find_task task_id (fst s)) in
  match state iso_datetime (status iso_datetime old), find_task task_id (fst s) with
  | (COMPLETED | FAILED), Some _ => (s, old)
  | _, _ =>
      let t := mkTask iso_datetime task_id (sessionId iso_datetime old) st
                 (Some (default [] (artifacts iso_datetime old) ++ arts))
                 (history iso_datetime old) (task_metadata iso_datetime old) in
      ((replace_task t (fst s), snd s), t)
  end.

(** Modelled from the spec: [utils.are_modalities_compatible] is not under
    [src/].  Section 4.4: the accepted output modes must intersect the
    agent's output modes. *)
Definition sample_compatible (requested supported : list string) : bool :=
  existsb (fun m => existsb (String.eqb m) supported) requested.

Definition sample_invoke (query session : string) : Py.outcome AgentResponse :=
  Py.Returned (mkAgentResponse (String.append "echo: " query) None None).

Definition sample_stream (query session : string)
  : list (bool * string) * option Py.exn :=
  ([(false, "working"); (true, String.append "echo: " query)], None).

Definition sample_on_send_task :=
  on_send_task iso_datetime "2025-05-01T10:00:01" Store
    sample_upsert_task sample_update_store (fun t _ => t)
    (fun s _ _ => s) (fun _ _ => None)
    sample_compatible (fun _ => true) sample_invoke.

Definition sample_on_send_task_subscribe :=
  on_send_task_subscribe iso_datetime Store sample_upsert_task
    (fun s _ _ => s) (fun s _ _ => s) sample_compatible (fun _ => true).

Definition sample_run_streaming_agent :=
  _run_streaming_agent iso_datetime "2025-05-01T10:00:01" Store
    sample_update_store (fun _ _ => None)
    (fun s task_id e => (fst s, snd s ++ [(task_id, e)])) sample_stream.

Definition empty_world : World iso_datetime Store :=
  mkWorld iso_datetime Store ([], []) [].

(** The request [{"jsonrpc": "2.0", "id": 1, "method": m, "params": {"id":
    "t1", "sessionId": "s1", "message": {"role": "user", "parts": []},
    "acceptedOutputModes": ["text"]}}]. *)
Definition empty_parts_body (method : string) : json :=
  JDict [("jsonrpc", JStr "2.0"); ("id", JInt 1); ("method", JStr method);
         ("params",
          JDict [("id", JStr "t1"); ("sessionId", JStr "s1");
                 ("message", JDict [("role", JStr "user"); ("parts", JList [])]);
                 ("acceptedOutputModes", JList [JStr "text"])])].

Definition empty_parts_params : TaskSendParams :=
  mkTaskSendParams "t1" "s1" (mkMessage user [] None) (Some ["text"])
    None None None.

(** C8 at the failing input.  A request whose message has no parts is
    decoded; nothing answers it with invalid params.  [tasks/send] stores the
    task, marks it working and then raises [ValueError]; [tasks/sendSubscribe]
    answers with the event stream, and its background task raises the same
    error without putting a single event on the stream.  The agent is asked
    in neither case. *)
Theorem C8_empty_parts_not_rejected_as_invalid_params :
  Server.receive "fresh-id" "fresh-session" (empty_parts_body "tasks/send")
  = inl (SendTaskRequest (IdInt 1) empty_parts_params)
  /\ Server.receive "fresh-id" "fresh-session" (empty_parts_body "tasks/sendSubscribe")
     = inl (SendTaskStreamingRequest (IdInt 1) empty_parts_params)
  /\ snd (sample_on_send_task empty_world empty_parts_params)
     = Py.Raised (Py.ValueError "Message parts cannot be empty")
  /\ fst (store iso_datetime Store
            (fst (sample_on_send_task empty_world empty_parts_params)))
     = [mkTask iso_datetime "t1" (Some "s1")
          (mkTaskStatus iso_datetime WORKING None "2025-05-01T10:00:01")
          (Some []) (Some [mkMessage user [] None]) None]
  /\ effects iso_datetime Store
       (fst (sample_on_send_task empty_world empty_parts_params)) = []
  /\ snd (fst (sample_on_send_task_subscribe empty_world empty_parts_params))
     = Streaming iso_datetime
  /\ snd (sample_on_send_task_subscribe empty_world empty_parts_params) = true
  /\ sample_run_streaming_agent
       (fst (fst (sample_on_send_task_subscribe empty_world empty_parts_params)))
       empty_parts_params
     = (fst (fst (sample_on_send_task_subscribe empty_world empty_parts_params)),
        Py.Raised (Py.ValueError "Message parts cannot be empty")).
Proof. vm_compute. repeat split; reflexivity. Qed.

(** With a text part the same request is served. *)
Example text_part_served :
  let params :=
    mkTaskSendParams "t1" "s1"
      (mkMessage user [PText (mkTextPart "ping" None)] None) (Some ["text"])
      None None None in
  exists w t,
    sample_on_send_task empty_world params
    = (w, Py.Returned (Responded iso_datetime (Some t) None))
    /\ state iso_datetime (status iso_datetime t) = COMPLETED
    /\ effects iso_datetime Store w = [Invoked iso_datetime "ping" "s1"].
Proof. vm_compute. eexists _, _. repeat split; reflexivity. Qed.

End TaskManagerSpec.

(** ** More of the host manager: the callback as a whole, concurrent streams,
    message history, and the message helpers *)
Module HostManagerProps.
Import HostManager HostManagerSpec RemoteAgentConnections.

(** The manager between two callbacks: no processing mark, no depth counter. *)

(** *** The task list *)

Lemma find_update_first_other tid task tasks :
  tid <> id task ->
  find_task tid (update_first task tasks) = find_task tid tasks.
Proof.
  intros Hne. unfold find_task. induction tasks as [|x rest IH]; [done|].
  simpl. destruct (String.eqb (id x) (id task)) eqn:E.
  - apply String.eqb_eq in E. simpl.
    destruct (String.eqb_spec (id task) tid) as [Ht|_]; [congruence|].
    destruct (String.eqb_spec (id x) tid) as [Hx|_]; [congruence|done].
  - simpl. by rewrite IH.
Qed.

Lemma update_first_length task tasks :
  length (update_first task tasks) = length tasks.
Proof.
  induction tasks as [|x rest IH]; [done|].
  simpl. destruct (String.eqb (id x) (id task)); simpl; congruence.
Qed.

Lemma update_first_unknown task tasks :
  find_task (id task) tasks = None -> update_first task tasks = tasks.
Proof.
  unfold find_task. induction tasks as [|x rest IH]; [done|].
  simpl. destruct (String.eqb (id x) (id task)); [done|].
  intros H. by rewrite IH.
Qed.

Lemma find_task_snoc_new tid tasks t :
  find_task tid tasks = None ->
  find_task tid (tasks ++ [t]) = (if String.eqb (id t) tid then Some t else None).
Proof.
  unfold find_task. induction tasks as [|x rest IH]; [done|].
  simpl. destruct (String.eqb (id x) tid); [done|]. exact IH.
Qed.

Lemma find_task_snoc_old tid tasks t old :
  find_task tid tasks = Some old ->
  find_task tid (tasks ++ [t]) = Some old.
Proof.
  unfold find_task. induction tasks as [|x rest IH]; [done|].
  simpl. destruct (String.eqb (id x) tid); [done|]. exact IH.
Qed.

Lemma existsb_find_task tid tasks :
  existsb (fun x => String.eqb (id x) tid) tasks
  = match find_task tid tasks with Some _ => true | None => false end.
Proof.
  unfold find_task. induction tasks as [|x rest IH]; [done|].
  simpl. by destruct (String.eqb (id x) tid).
Qed.


(** *** Artifact streams: what an event leaves alone *)

Definition arts (t : Task) : list Artifact := default [] (artifacts t).

(** What one event adds to the task's artifacts: nothing or one artifact. *)
Lemma process_artifact_event_adds chunks t ev :
  let r := process_artifact_event chunks t ev in
  (snd r = t
   \/ (exists a, snd r = set_artifacts t (Some (arts t ++ [a]))
        /\ (a = artifact ev
            \/ exists pending cur,
                 chunks !! artifactId (artifact ev) = Some pending
                 /\ last pending = Some cur
                 /\ a = set_parts cur (art_parts cur ++ art_parts (artifact ev))))).
Proof.
  cbv zeta. unfold process_artifact_event, arts.
  destruct (negb (Py.truthy_opt_bool (append ev))).
  - destruct (lastChunk ev) as [[|]|]; simpl;
      try (right; eexists; rewrite arts_fresh_snoc; split; [reflexivity|by left]).
    by left.
  - destruct (chunks !! artifactId (artifact ev)) as [pending|] eqn:Hp; [|by left].
    destruct (last pending) as [cur|] eqn:Hl; [|by left].
    destruct (Py.truthy_opt_bool (lastChunk ev)); [|by left].
    right. eexists. simpl. rewrite arts_snoc. split; [reflexivity|].
    right. by exists pending, cur.
Qed.

Lemma process_artifact_event_keeps chunks t ev :
  let t' := snd (process_artifact_event chunks t ev) in
  id t' = id t /\ contextId t' = contextId t
  /\ status t' = status t /\ history t' = history t.
Proof.
  cbv zeta.
  by destruct (process_artifact_event_adds chunks t ev) as [->|(a & -> & _)].
Qed.

Lemma process_artifact_event_store_other chunks t ev k :
  k <> artifactId (artifact ev) ->
  fst (process_artifact_event chunks t ev) !! k = chunks !! k.
Proof.
  intros Hne. unfold process_artifact_event.
  destruct (negb (Py.truthy_opt_bool (append ev))).
  - destruct (lastChunk ev) as [[|]|]; simpl; try done.
    by rewrite lookup_insert_ne.
  - destruct (chunks !! artifactId (artifact ev)) as [pending|]; [|done].
    destruct (last pending) as [cur|]; [|done].
    destruct (Py.truthy_opt_bool (lastChunk ev)); simpl.
    + destruct (Py.truthy_list (removelast pending)).
      * by rewrite lookup_insert_ne.
      * by rewrite lookup_delete_ne.
    + by rewrite lookup_insert_ne.
Qed.

(** X4. A run of artifact events never takes anything back: the task keeps
    its id, context, status and history, the artifacts it had stay where they
    were (the new list starts with the old one), and in the temp store only
    the artifact ids the events name are touched. *)
Theorem artifact_events_only_add (chunks : gmap string (list Artifact))
  (t : Task) (evs : list TaskArtifactUpdateEvent) :
  let r := process_artifact_events chunks t evs in
  id (snd r) = id t /\ contextId (snd r) = contextId t
  /\ status (snd r) = status t /\ history (snd r) = history t
  /\ arts t `prefix_of` arts (snd r)
  /\ length (arts (snd r)) <= length (arts t) + length evs
  /\ (forall k, Forall (fun ev => artifactId (artifact ev) <> k) evs ->
                fst r !! k = chunks !! k).
Proof.
  cbv zeta. revert chunks t.
  induction evs as [|ev evs IH]; intros chunks t.
  - unfold process_artifact_events. simpl.
    repeat split; try done. lia.
  - unfold process_artifact_events in *. simpl.
    pose proof (process_artifact_event_adds chunks t ev) as Hadd.
    pose proof (fun k => process_artifact_event_store_other chunks t ev k) as Hoth.
    cbv zeta in Hadd.
    destruct (process_artifact_event chunks t ev) as [c1 t1]. simpl in Hadd, Hoth.
    destruct (IH c1 t1) as (Hid & Hctx & Hst & Hh & Hpre & Hlen & Hstore).
    assert (Hone : id t1 = id t /\ contextId t1 = contextId t
      /\ status t1 = status t /\ history t1 = history t
      /\ arts t `prefix_of` arts t1
      /\ length (arts t1) <= length (arts t) + 1).
    { destruct Hadd as [->|(a & -> & _)].
      - repeat split; try done. lia.
      - repeat split; try done.
        + unfold arts at 2. simpl. by apply prefix_app_r.
        + unfold arts at 1. simpl. rewrite length_app. simpl. lia. }
    destruct Hone as (Hid1 & Hctx1 & Hst1 & Hh1 & Hpre1 & Hlen1).
    rewrite Hid, Hctx, Hst, Hh.
    repeat split; try done.
    + by etrans.
    + lia.
    + intros k Hk. apply Forall_cons_1 in Hk as [Hk1 Hk].
      rewrite Hstore by done. apply Hoth. congruence.
Qed.


(** *** Streams for different artifact ids do not disturb each other *)

(** The events about artifact [k], and the task's artifacts with that id. *)
Definition about (k : string) (ev : TaskArtifactUpdateEvent) : bool :=
  String.eqb (artifactId (artifact ev)) k.

Definition arts_of (k : string) (t : Task) : list Artifact :=
  List.filter (fun a => String.eqb (artifactId a) k) (arts t).

(** Every pending accumulator sits under its own artifact id: so it is after
    [__init__], and every event keeps it so. *)
Definition keyed (chunks : gmap string (list Artifact)) : Prop :=
  forall k pending, chunks !! k = Some pending ->
    Forall (fun a => artifactId a = k) pending.

Lemma keyed_empty : keyed ∅.
Proof. intros k pending H. by rewrite lookup_empty in H. Qed.

Lemma keyed_insert chunks k pending :
  keyed chunks -> Forall (fun a => artifactId a = k) pending ->
  keyed (<[k := pending]> chunks).
Proof.
  intros Hk Hp k' pending' H.
  destruct (decide (k = k')) as [<-|Hne].
  - rewrite lookup_insert_eq in H. by simplify_eq.
  - rewrite lookup_insert_ne in H by done. by apply Hk.
Qed.

Lemma keyed_delete chunks k :
  keyed chunks -> keyed (delete k chunks).
Proof.
  intros Hk k' pending' H.
  destruct (decide (k = k')) as [<-|Hne].
  - by rewrite lookup_delete_eq in H.
  - rewrite lookup_delete_ne in H by done. by apply Hk.
Qed.

Lemma keyed_step chunks t ev :
  keyed chunks -> keyed (fst (process_artifact_event chunks t ev)).
Proof.
  intros Hk. unfold process_artifact_event.
  destruct (negb (Py.truthy_opt_bool (append ev))).
  - destruct (lastChunk ev) as [[|]|]; simpl; try done.
    apply keyed_insert; [done|]. apply Forall_app. split; [|by repeat constructor].
    destruct (chunks !! artifactId (artifact ev)) as [pending|] eqn:Hp; simpl.
    + by apply Hk.
    + constructor.
  - destruct (chunks !! artifactId (artifact ev)) as [pending|] eqn:Hp; [|done].
    destruct (last pending) as [cur|] eqn:Hl; [|done].
    apply last_Some in Hl as [init ->]. rewrite removelast_last.
    apply Hk in Hp. apply Forall_app in Hp as [Hinit Hcur].
    apply Forall_cons_1 in Hcur as [Hcur _].
    destruct (Py.truthy_opt_bool (lastChunk ev)); simpl.
    + destruct (Py.truthy_list init).
      * by apply keyed_insert.
      * by apply keyed_delete.
    + apply keyed_insert; [done|]. apply Forall_app. split; [done|].
      by repeat constructor.
Qed.

Lemma arts_of_snoc k t a :
  arts_of k (set_artifacts t (Some (arts t ++ [a])))
  = arts_of k t ++ (if String.eqb (artifactId a) k then [a] else []).
Proof. unfold arts_of, arts at 1. simpl. by rewrite List.filter_app. Qed.

Lemma other_step k chunks t ev :
  artifactId (artifact ev) <> k -> keyed chunks ->
  arts_of k (snd (process_artifact_event chunks t ev)) = arts_of k t.
Proof.
  intros Hne Hk.
  destruct (process_artifact_event_adds chunks t ev) as [->|(a & -> & Ha)];
    [done|].
  rewrite arts_of_snoc.
  assert (Hid : artifactId a = artifactId (artifact ev)).
  { destruct Ha as [->|(pending & cur & Hp & Hl & ->)]; [done|].
    apply last_Some in Hl as [init ->].
    apply Hk in Hp. apply Forall_app in Hp as [_ Hcur].
    by apply Forall_cons_1 in Hcur as [Hcur _]. }
  rewrite Hid. destruct (String.eqb_spec (artifactId (artifact ev)) k); [done|].
  by rewrite app_nil_r.
Qed.

Lemma same_step k chunks1 chunks2 t1 t2 ev :
  artifactId (artifact ev) = k ->
  chunks1 !! k = chunks2 !! k -> arts_of k t1 = arts_of k t2 ->
  fst (process_artifact_event chunks1 t1 ev) !! k
  = fst (process_artifact_event chunks2 t2 ev) !! k
  /\ arts_of k (snd (process_artifact_event chunks1 t1 ev))
     = arts_of k (snd (process_artifact_event chunks2 t2 ev)).
Proof.
  intros Hid Hc Ha. unfold process_artifact_event. rewrite Hid, <- Hc.
  destruct (negb (Py.truthy_opt_bool (append ev))).
  - destruct (lastChunk ev) as [[|]|]; simpl;
      rewrite ?arts_fresh_snoc, ?lookup_insert_eq; try done.
    all: split; [done|].
    all: fold (arts t1); fold (arts t2); by rewrite !arts_of_snoc, Ha.
  - destruct (chunks1 !! k) as [pending|] eqn:E;
      [|simpl; split; congruence].
    destruct (last pending) as [cur|];
      [|simpl; split; congruence].
    destruct (Py.truthy_opt_bool (lastChunk ev)); simpl.
    + rewrite !arts_snoc. fold (arts t1); fold (arts t2).
      rewrite !arts_of_snoc, Ha. split; [|done].
      destruct (Py.truthy_list (removelast pending)).
      * by rewrite !lookup_insert_eq.
      * by rewrite !lookup_delete_eq.
    + by rewrite !lookup_insert_eq.
Qed.

Lemma streams_independent_gen k evs : forall chunks1 chunks2 t1 t2,
  keyed chunks1 ->
  chunks1 !! k = chunks2 !! k -> arts_of k t1 = arts_of k t2 ->
  fst (process_artifact_events chunks1 t1 evs) !! k
  = fst (process_artifact_events chunks2 t2 (List.filter (about k) evs)) !! k
  /\ arts_of k (snd (process_artifact_events chunks1 t1 evs))
     = arts_of k (snd (process_artifact_events chunks2 t2 (List.filter (about k) evs))).
Proof.
  unfold process_artifact_events.
  induction evs as [|ev evs IH]; intros chunks1 chunks2 t1 t2 Hk Hc Ha; [done|].
  simpl. change (about k ev) with (String.eqb (artifactId (artifact ev)) k).
  pose proof (keyed_step chunks1 t1 ev Hk) as Hk1.
  destruct (String.eqb_spec (artifactId (artifact ev)) k) as [Hid|Hne].
  - simpl.
    destruct (same_step k chunks1 chunks2 t1 t2 ev Hid Hc Ha) as [Hc1 Ha1].
    destruct (process_artifact_event chunks1 t1 ev) as [c1 u1].
    destruct (process_artifact_event chunks2 t2 ev) as [c2 u2].
    by apply IH.
  - pose proof (other_step k chunks1 t1 ev Hne Hk) as Ha1.
    pose proof (process_artifact_event_store_other chunks1 t1 ev k) as Hc1.
    destruct (process_artifact_event chunks1 t1 ev) as [c1 u1]. simpl in *.
    apply IH; [done| |congruence].
    rewrite Hc1 by congruence. done.
Qed.

(** X5. Chunked streams for different artifact ids may arrive interleaved.
    What the run leaves pending under an artifact id, and the artifacts with
    that id it puts on the task, are those of the run of that id's events
    alone; the events about other ids change neither. *)
Theorem interleaved_streams_are_independent
  (chunks : gmap string (list Artifact)) (t : Task)
  (evs : list TaskArtifactUpdateEvent) (k : string) :
  keyed chunks ->
  let all := process_artifact_events chunks t evs in
  let own := process_artifact_events chunks t (List.filter (about k) evs) in
  fst all !! k = fst own !! k
  /\ arts_of k (snd all) = arts_of k (snd own)
  /\ keyed (fst all).
Proof.
  intros Hk all own.
  destruct (streams_independent_gen k evs chunks chunks t t Hk eq_refl eq_refl)
    as [H1 H2].
  split; [exact H1|]. split; [exact H2|].
  subst all. clear H1 H2 own. revert chunks t Hk.
  unfold process_artifact_events.
  induction evs as [|ev evs IH]; intros chunks t Hk; [done|].
  simpl. pose proof (keyed_step chunks t ev Hk) as Hk1.
  destruct (process_artifact_event chunks t ev) as [c1 u1]. by apply IH.
Qed.


(** *** Message history *)

Definition hist (t : Task) : list Message := default [] (history t).

Lemma existsb_eqb_elem (x : string) (l : list string) :
  existsb (String.eqb x) l = true <-> x ∈ l.
Proof.
  induction l as [|y l IH]; simpl.
  - split; [done|]. by intros ?%elem_of_nil.
  - rewrite orb_true_iff, IH, elem_of_cons, String.eqb_eq. done.
Qed.

Lemma existsb_eqb_snoc (x : string) (l : list string) :
  existsb (String.eqb x) (l ++ [x]) = true.
Proof. apply existsb_eqb_elem. set_solver. Qed.

(** What a call does to the history: nothing, or the status message goes
    last, and then its id was not in the history. *)
Lemma insert_message_history_hist (t : Task) (msg : option Message) :
  let t' := insert_message_history t msg in
  (id t' = id t /\ status t' = status t /\ artifacts t' = artifacts t)
  /\ (hist t' = hist t
      \/ exists sm, message (status t) = Some sm
                    /\ (messageId sm ∉ map messageId (hist t))
                    /\ hist t' = hist t ++ [sm]).
Proof.
  cbv zeta. destruct msg as [m|]; [|split; [done | by left]].
  destruct t as [i c [st sm ts] a h].
  unfold insert_message_history, hist. simpl.
  destruct (Py.truthy_str (messageId m)); simpl;
    [|destruct h; (split; [done | by left])].
  destruct sm as [sm|]; [|destruct h; (split; [done | by left])].
  destruct h as [[|x h]|]; simpl.
  - split; [done|]. right. exists sm. split; [done|]. split; [|done].
    by intros ?%elem_of_nil.
  - destruct (String.eqb (messageId sm) (messageId x)
              || existsb (String.eqb (messageId sm)) (map messageId h)) eqn:E;
      simpl; [split; [done | by left]|].
    split; [done|]. right. exists sm. split; [done|]. split; [|done].
    intros Hin.
    change (messageId x :: map messageId h) with (map messageId (x :: h)) in Hin.
    apply existsb_eqb_elem in Hin. simpl in Hin. congruence.
  - split; [done|]. right. exists sm. split; [done|]. split; [|done].
    by intros ?%elem_of_nil.
Qed.

(** X6. [insert_message_history] records the status message at most once.
    The history the task had stays in front, at most one entry is added and
    it is the task's status message; message ids that were unique stay
    unique; a second call with the same arguments changes nothing; and the
    id, context, status and artifacts of the task are not touched. *)
Theorem insert_message_history_records_once (t : Task) (msg : option Message) :
  NoDup (map messageId (hist t)) ->
  let t' := insert_message_history t msg in
  NoDup (map messageId (hist t'))
  /\ (exists added,
        hist t' = hist t ++ added /\ length added <= 1
        /\ Forall (fun a => message (status t) = Some a) added)
  /\ insert_message_history t' msg = t'
  /\ id t' = id t /\ contextId t' = contextId t
  /\ status t' = status t /\ artifacts t' = artifacts t.
Proof.
  intros Hnd. cbv zeta.
  assert (Hnone : forall u, hist u = hist t -> status u = status t ->
    id u = id t -> contextId u = contextId t -> artifacts u = artifacts t ->
    insert_message_history u msg = u ->
    NoDup (map messageId (hist u))
    /\ (exists added,
          hist u = hist t ++ added /\ length added <= 1
          /\ Forall (fun a => message (status t) = Some a) added)
    /\ insert_message_history u msg = u
    /\ id u = id t /\ contextId u = contextId t
    /\ status u = status t /\ artifacts u = artifacts t).
  { intros u Hh Hs Hi Hc Ha Hidem. rewrite Hh.
    split; [done|]. split; [|done].
    exists []. rewrite app_nil_r. split; [done|]. split; [simpl; lia|constructor]. }
  destruct msg as [m|]; [|by apply Hnone].
  destruct t as [i c [st sm ts] a h].
  destruct (Py.truthy_str (messageId m)) eqn:Hm.
  2:{ destruct h as [h|].
      - assert (Hsame : insert_message_history
                  (mkTask i c (mkTaskStatus st sm ts) a (Some h)) (Some m)
                = mkTask i c (mkTaskStatus st sm ts) a (Some h)).
        { unfold insert_message_history. simpl. by rewrite Hm. }
        rewrite Hsame. by apply Hnone.
      - assert (Hsame : insert_message_history
                  (mkTask i c (mkTaskStatus st sm ts) a None) (Some m)
                = mkTask i c (mkTaskStatus st sm ts) a (Some [])).
        { unfold insert_message_history. simpl. by rewrite Hm. }
        rewrite Hsame. apply Hnone; try done;
          unfold insert_message_history; simpl; by rewrite Hm. }
  destruct sm as [sm|].
  2:{ destruct h as [h|].
      - assert (Hsame : insert_message_history
                  (mkTask i c (mkTaskStatus st None ts) a (Some h)) (Some m)
                = mkTask i c (mkTaskStatus st None ts) a (Some h)).
        { unfold insert_message_history. simpl. by rewrite Hm. }
        rewrite Hsame. by apply Hnone.
      - assert (Hsame : insert_message_history
                  (mkTask i c (mkTaskStatus st None ts) a None) (Some m)
                = mkTask i c (mkTaskStatus st None ts) a (Some [])).
        { unfold insert_message_history. simpl. by rewrite Hm. }
        rewrite Hsame. apply Hnone; try done;
          unfold insert_message_history; simpl; by rewrite Hm. }
  destruct h as [[|x h]|].
  - unfold insert_message_history, hist. simpl. rewrite Hm. simpl.
    rewrite String.eqb_refl. simpl.
    split; [repeat constructor; set_solver|].
    split; [|done].
    exists [sm]. split; [done|]. split; [simpl; lia|by repeat constructor].
  - destruct (String.eqb (messageId sm) (messageId x)
              || existsb (String.eqb (messageId sm)) (map messageId h)) eqn:E.
    + assert (Hsame : insert_message_history
                (mkTask i c (mkTaskStatus st (Some sm) ts) a (Some (x :: h))) (Some m)
              = mkTask i c (mkTaskStatus st (Some sm) ts) a (Some (x :: h))).
      { unfold insert_message_history. simpl. by rewrite Hm, E. }
      rewrite Hsame. by apply Hnone.
    + clear Hnone. unfold insert_message_history, hist in *. simpl in *.
      rewrite Hm, E. simpl.
      assert (Hin : existsb (String.eqb (messageId sm))
                      (map messageId (h ++ [sm])) = true).
      { rewrite map_app. apply existsb_eqb_snoc. }
      rewrite Hin, orb_true_r. simpl.
      split.
      * change (messageId x :: map messageId (h ++ [sm]))
          with (map messageId ((x :: h) ++ [sm])).
        rewrite map_app. apply NoDup_app. split; [done|]. split.
        -- intros y Hy Hy'. apply list_elem_of_singleton in Hy'. subst y.
           change (messageId x :: map messageId h)
             with (map messageId (x :: h)) in Hy.
           apply existsb_eqb_elem in Hy. simpl in Hy. congruence.
        -- repeat constructor. set_solver.
      * split; [|done].
        exists [sm]. split; [done|]. split; [simpl; lia|by repeat constructor].
  - unfold insert_message_history, hist. simpl. rewrite Hm. simpl.
    rewrite String.eqb_refl. simpl.
    split; [repeat constructor; set_solver|].
    split; [|done].
    exists [sm]. split; [done|]. split; [simpl; lia|by repeat constructor].
Qed.


Lemma update_first_snoc_new task new tasks :
  find_task (id task) tasks = None -> id new = id task ->
  update_first task (tasks ++ [new]) = tasks ++ [task].
Proof.
  unfold find_task. intros Hnone Hid.
  induction tasks as [|x rest IH]; simpl in *.
  - by rewrite Hid, String.eqb_refl.
  - destruct (String.eqb (id x) (id task)); [done|]. by rewrite IH.
Qed.

(** *** The streaming loop of [send_message] *)

Section Stream.
Context {M : Type}.
Variable callback : M -> TaskCallbackArg -> M * Task.

(** The updates of a stream handed to the callback one after the other;
    [task] is the task the last call returned. *)
Fixpoint apply_updates (m : M) (task : option Task)
  (updates : list TaskCallbackArg) : M * option Task :=
  match updates with
  | [] => (m, task)
  | event :: rest =>
      apply_updates (fst (callback m event)) (Some (snd (callback m event))) rest
  end.

Definition update_response (event : TaskCallbackArg) : Response :=
  SuccessResponse (ResUpdate event).

Lemma stream_loop_updates m task updates rest :
  stream_loop (Some callback) m task (map update_response updates ++ rest)
  = stream_loop (Some callback) (fst (apply_updates m task updates))
      (snd (apply_updates m task updates)) rest.
Proof.
  revert m task. induction updates as [|ev updates IH]; intros m task; [done|].
  simpl. destruct (callback m ev) as [m1 t1]. simpl. apply IH.
Qed.

Lemma apply_updates_some m t updates :
  exists t', snd (apply_updates m (Some t) updates) = Some t'.
Proof.
  revert m t. induction updates as [|ev updates IH]; intros m t; simpl.
  - by exists t.
  - apply IH.
Qed.

(** X3. The streaming branch of [send_message] answers with the first error
    or message of the stream and reads no further.  The updates that came
    before it have been applied through the callback and stay applied: after
    an error the caller gets [None] and not the task the callback returned.
    A stream of updates alone answers with the task of the last callback. *)
Theorem streaming_answers_at_first_error_or_message (m : M)
  (updates : list TaskCallbackArg) (rest : list Response) (msg : Message) :
  let after := apply_updates m None updates in
  send_message_streaming (Some callback) m
    (map update_response updates ++ ErrorResponse :: rest)
  = (fst after, ReplyNone)
  /\ send_message_streaming (Some callback) m
       (map update_response updates ++ SuccessResponse (ResMessage msg) :: rest)
     = (fst after, ReplyMessage msg)
  /\ send_message_streaming (Some callback) m (map update_response updates)
     = (fst after,
        match snd after with Some t => ReplyTask t | None => ReplyNone end)
  /\ (snd after = None <-> updates = []).
Proof.
  cbv zeta. unfold send_message_streaming.
  rewrite !stream_loop_updates.
  split; [done|]. split; [done|]. split.
  - rewrite <- (app_nil_r (map update_response updates)).
    by rewrite stream_loop_updates.
  - destruct updates as [|ev updates]; [done|]. simpl.
    split; [|done]. intros Hnone.
    destruct (apply_updates_some (fst (callback m ev)) (snd (callback m ev)) updates)
      as [t' Ht'].
    congruence.
Qed.

End Stream.

Definition quiet (m : Manager) : Prop :=
  _processing_tasks m = ∅ /\ _callback_depth m = ∅.

Section Callback.
Variable uuid4 : nat -> string.
Variable utcnow : nat -> float.
Variable str_of_task_state : TaskState -> string.

Local Abbreviation emit_event := (emit_event uuid4 utcnow str_of_task_state).
Local Abbreviation add_or_get_task := (add_or_get_task uuid4).
Local Abbreviation handle_update := (handle_update uuid4 utcnow str_of_task_state).
Local Abbreviation task_callback := (task_callback uuid4 utcnow str_of_task_state).

(** Setting the marks and counters aside. *)
Definition marked (m : Manager) (P : gset string) (D : gmap string Z) : Manager :=
  with_depth (with_processing m P) D.

Lemma emit_event_marked m P D task name :
  emit_event (marked m P D) task name = marked (emit_event m task name) P D.
Proof.
  unfold HostManager.emit_event, marked.
  destruct task as [t|e|e]; simpl.
  - destruct (message (status t)); [done|].
    by destruct (Py.truthy_opt_list (artifacts t)).
  - by destruct (message (sue_status e)).
  - done.
Qed.

Lemma add_or_get_task_marked m P D task :
  add_or_get_task (marked m P D) task
  = (marked (fst (add_or_get_task m task)) P D, snd (add_or_get_task m task)).
Proof.
  unfold HostManager.add_or_get_task, marked.
  destruct (negb (Py.truthy_str (arg_id task))); simpl;
    by case_match.
Qed.

Lemma attach_message_marked m P D msg tid :
  attach_message_to_task (marked m P D) msg tid
  = marked (attach_message_to_task m msg tid) P D.
Proof. by destruct msg. Qed.

(** The [try] block neither reads nor writes the marks and counters. *)
Lemma handle_update_marked m P D task name :
  handle_update (marked m P D) task name
  = (marked (fst (handle_update m task name)) P D,
     snd (handle_update m task name)).
Proof.
  unfold HostManager.handle_update. rewrite emit_event_marked.
  set (m1 := emit_event m task name).
  destruct task as [t|e|e].
  - rewrite attach_message_marked.
    change (_tasks (marked ?x P D)) with (_tasks x).
    by case_match.
  - rewrite add_or_get_task_marked.
    destruct (add_or_get_task m1 (ArgStatus e)) as [m2 t2]. simpl.
    by rewrite attach_message_marked.
  - rewrite add_or_get_task_marked.
    destruct (add_or_get_task m1 (ArgArtifact e)) as [m2 t2]. simpl.
    by case_match.
Qed.

Lemma handle_update_keeps_marks m task name :
  _processing_tasks (fst (handle_update m task name)) = _processing_tasks m
  /\ _callback_depth (fst (handle_update m task name)) = _callback_depth m.
Proof.
  unfold HostManager.handle_update.
  destruct (emit_event_keeps uuid4 utcnow str_of_task_state m task name)
    as (_ & _ & Hp & Hd).
  set (m1 := emit_event m task name) in *.
  assert (Hadd : forall ev,
    _processing_tasks (fst (add_or_get_task m1 ev)) = _processing_tasks m1
    /\ _callback_depth (fst (add_or_get_task m1 ev)) = _callback_depth m1).
  { intros ev. unfold HostManager.add_or_get_task.
    destruct (negb (Py.truthy_str (arg_id ev))); simpl; by case_match. }
  assert (Hatt : forall mm msg tid,
    _processing_tasks (attach_message_to_task mm msg tid) = _processing_tasks mm
    /\ _callback_depth (attach_message_to_task mm msg tid) = _callback_depth mm).
  { intros mm [msg|] tid; done. }
  rewrite <- Hp, <- Hd.
  destruct task as [t|e|e].
  - destruct (Hatt m1 (message (status t)) (id t)) as [H1 H2].
    case_match; simpl; by rewrite ?H1, ?H2.
  - destruct (Hadd (ArgStatus e)) as [H1 H2].
    destruct (add_or_get_task m1 (ArgStatus e)) as [m2 t2]. simpl in *.
    destruct (Hatt m2 (message (sue_status e)) (id (set_status t2 (sue_status e))))
      as [H3 H4].
    simpl in *. by rewrite H3, H4.
  - destruct (Hadd (ArgArtifact e)) as [H1 H2].
    destruct (add_or_get_task m1 (ArgArtifact e)) as [m2 t2]. simpl in *.
    by case_match.
Qed.

(** Between callbacks nothing is marked, so the callback runs its [try] block
    and leaves the marks and counters as it found them. *)
Lemma task_callback_quiet m task name :
  quiet m ->
  task_callback m task name = handle_update m task name.
Proof.
  intros [Hp Hd]. unfold HostManager.task_callback.
  rewrite bool_decide_eq_false_2 by (rewrite Hp; apply not_elem_of_empty).
  rewrite Hd, lookup_empty. cbn [default from_option Z.ltb Z.compare Z.add].
  pose proof (handle_update_marked m ({[arg_id task]} ∪ _processing_tasks m)
                (<[arg_id task := 1%Z]> ∅) task name) as Hm.
  unfold marked in Hm.
  change (_callback_depth (with_processing m ?P)) with (_callback_depth m).
  rewrite Hd. change (0 + 1)%Z with 1%Z. rewrite Hm. clear Hm.
  destruct (handle_update_keeps_marks m task name) as [Hp' Hd'].
  destruct (handle_update m task name) as [m' r]. simpl in *.
  unfold leave, marked. simpl. rewrite lookup_insert_eq. simpl.
  rewrite delete_insert_eq, delete_empty.
  rewrite Hp, union_empty_r_L, difference_diag_L.
  f_equal. destruct m'. simpl in *. subst.
  unfold with_depth, with_processing. simpl. by rewrite Hp, Hd.
Qed.

(** A run of callbacks, each with the card name of its agent. *)
Definition run_callbacks (callback : Manager -> TaskCallbackArg -> string -> Manager * Task)
  (m : Manager) (calls : list (TaskCallbackArg * string)) : Manager :=
  fold_left (fun m c => fst (callback m (fst c) (snd c))) calls m.

Lemma handle_update_quiet m task name :
  quiet m -> quiet (fst (handle_update m task name)).
Proof.
  intros [Hp Hd]. destruct (handle_update_keeps_marks m task name) as [Hp' Hd'].
  split; congruence.
Qed.

(** X1. Callbacks arrive one after the other, and the [try] block calls no
    callback itself; so from the state [__init__] creates, the recursion
    guard never fires.  After any run of callbacks nothing is marked and no
    depth is counted, the run is the run of the [try] blocks alone, and the
    next callback is processed, not skipped. *)
Theorem callback_guard_never_fires (m : Manager)
  (calls : list (TaskCallbackArg * string)) :
  quiet m ->
  quiet (run_callbacks task_callback m calls)
  /\ run_callbacks task_callback m calls = run_callbacks handle_update m calls
  /\ forall task name,
       task_callback (run_callbacks task_callback m calls) task name
       = handle_update (run_callbacks task_callback m calls) task name.
Proof.
  revert m. induction calls as [|[task name] calls IH]; intros m Hq.
  - split; [done|]. split; [done|]. intros task name.
    by apply task_callback_quiet.
  - unfold run_callbacks in *. simpl.
    rewrite task_callback_quiet by done.
    apply IH. by apply handle_update_quiet.
Qed.

(** One artifact event for a stored task, through the callback. *)
Lemma artifact_callback_step m t e name :
  quiet m -> find_task (id t) (_tasks m) = Some t ->
  Py.truthy_str (id t) = true -> aue_taskId e = id t ->
  let r := process_artifact_event (_artifact_chunks m) t e in
  let out := task_callback m (ArgArtifact e) name in
  quiet (fst out) /\ _tasks (fst out) = update_first (snd r) (_tasks m)
  /\ _artifact_chunks (fst out) = fst r /\ snd out = snd r.
Proof.
  intros Hq Hfind Hid He. cbv zeta.
  rewrite task_callback_quiet by done.
  split; [by apply handle_update_quiet|].
  apply (handle_artifact_update uuid4 utcnow str_of_task_state m e name t);
    by rewrite He.
Qed.

Definition artifact_response (e : TaskArtifactUpdateEvent) : Response :=
  SuccessResponse (ResUpdate (ArgArtifact e)).

Lemma artifact_stream_gen name evs : forall m t task0,
  quiet m -> find_task (id t) (_tasks m) = Some t ->
  Py.truthy_str (id t) = true ->
  Forall (fun e => aue_taskId e = id t) evs ->
  let r := process_artifact_events (_artifact_chunks m) t evs in
  let out := stream_loop (Some (fun m ev => task_callback m ev name)) m task0
               (map artifact_response evs) in
  find_task (id t) (_tasks (fst out)) = Some (snd r)
  /\ _artifact_chunks (fst out) = fst r
  /\ snd out = match evs, task0 with
               | [], None => ReplyNone
               | [], Some t0 => ReplyTask t0
               | _ :: _, _ => ReplyTask (snd r)
               end
  /\ (forall tid, tid <> id t ->
        find_task tid (_tasks (fst out)) = find_task tid (_tasks m))
  /\ length (_tasks (fst out)) = length (_tasks m)
  /\ quiet (fst out).
Proof.
  induction evs as [|e evs IH]; intros m t task0 Hq Hfind Hid Hall.
  - cbv zeta. unfold process_artifact_events. simpl.
    repeat split; try done; by destruct Hq.
  - apply Forall_cons_1 in Hall as [He Hall].
    destruct (artifact_callback_step m t e name Hq Hfind Hid He)
      as (Hq1 & Ht1 & Hc1 & Hr1).
    pose proof (process_artifact_event_id (_artifact_chunks m) t e) as Hid1.
    cbv zeta. unfold process_artifact_events. simpl.
    destruct (task_callback m (ArgArtifact e) name) as [m1 t1].
    simpl in Hq1, Ht1, Hc1, Hr1.
    destruct (process_artifact_event (_artifact_chunks m) t e) as [c1 u1].
    simpl in *. subst t1 c1.
    assert (Hfind1 : find_task (id u1) (_tasks m1) = Some u1).
    { rewrite Ht1, Hid1. by apply (find_update_first _ _ t). }
    destruct (IH m1 u1 (Some u1) Hq1 Hfind1) as (H1 & H2 & H3 & H4 & H5 & H6).
    { by rewrite Hid1. }
    { by rewrite Hid1. }
    rewrite Hid1 in H1. unfold process_artifact_events in *.
    split; [exact H1|]. split; [exact H2|]. split.
    { rewrite H3. by destruct evs. }
    split.
    { intros tid Hne. rewrite H4 by congruence. rewrite Ht1.
      apply find_update_first_other. congruence. }
    split; [|exact H6].
    by rewrite H5, Ht1, update_first_length.
Qed.

(** X2. A stream of artifact updates for a stored task, sent through
    [send_message] with the manager's callback: the stored task ends up as
    [process_artifact_event] makes it event by event, the temp store likewise,
    the caller gets that task back, every other task is as before, and the
    manager is ready for the next callback. *)
Theorem streamed_artifacts_reach_the_stored_task (m : Manager) (t : Task)
  (name : string) (evs : list TaskArtifactUpdateEvent) :
  quiet m -> find_task (id t) (_tasks m) = Some t ->
  Py.truthy_str (id t) = true ->
  Forall (fun e => aue_taskId e = id t) evs ->
  let r := process_artifact_events (_artifact_chunks m) t evs in
  let out := send_message_streaming (Some (fun m ev => task_callback m ev name)) m
               (map artifact_response evs) in
  find_task (id t) (_tasks (fst out)) = Some (snd r)
  /\ _artifact_chunks (fst out) = fst r
  /\ (evs <> [] -> snd out = ReplyTask (snd r))
  /\ (forall tid, tid <> id t ->
        find_task tid (_tasks (fst out)) = find_task tid (_tasks m))
  /\ length (_tasks (fst out)) = length (_tasks m)
  /\ quiet (fst out).
Proof.
  intros Hq Hfind Hid Hall.
  destruct (artifact_stream_gen name evs m t None Hq Hfind Hid Hall)
    as (H1 & H2 & H3 & H4 & H5 & H6).
  cbv zeta. unfold send_message_streaming.
  split; [exact H1|]. split; [exact H2|].
  split; [|split; [exact H4|split; [exact H5|exact H6]]].
  intros Hne. rewrite H3. by destruct evs.
Qed.

Lemma last_default_irrelevant {A} (x : A) (l : list A) (d d' : A) :
  List.last (x :: l) d = List.last (x :: l) d'.
Proof.
  revert x. induction l as [|y l IH]; intros x; [done|].
  change (List.last (y :: l) d = List.last (y :: l) d'). apply IH.
Qed.

Lemma emit_event_keeps_task_map m task name :
  _task_map (emit_event m task name) = _task_map m.
Proof.
  unfold HostManager.emit_event.
  destruct task as [t|e|e]; simpl.
  - destruct (message (status t)); [done|].
    by destruct (Py.truthy_opt_list (artifacts t)).
  - by destruct (message (sue_status e)).
  - done.
Qed.

(** One status event for a stored task, through the callback. *)
Lemma status_callback_step m t e name :
  quiet m -> find_task (id t) (_tasks m) = Some t ->
  Py.truthy_str (id t) = true -> sue_taskId e = id t ->
  let t' := insert_message_history (set_status t (sue_status e))
              (message (sue_status e)) in
  let out := task_callback m (ArgStatus e) name in
  quiet (fst out) /\ _tasks (fst out) = update_first t' (_tasks m)
  /\ snd out = t'
  /\ _task_map (fst out)
     = match message (sue_status e) with
       | Some msg => <[messageId msg := id t]> (_task_map m)
       | None => _task_map m
       end.
Proof.
  intros Hq Hfind Hid He. cbv zeta.
  rewrite task_callback_quiet by done.
  split; [by apply handle_update_quiet|].
  destruct (handle_status_update uuid4 utcnow str_of_task_state m e name t)
    as [Htasks Hres]; [by rewrite He | by rewrite He |].
  split; [exact Htasks|]. split; [exact Hres|].
  unfold HostManager.handle_update.
  destruct (emit_event_keeps uuid4 utcnow str_of_task_state m (ArgStatus e) name)
    as (Ht & _).
  pose proof (emit_event_keeps_task_map m (ArgStatus e) name) as Hmap.
  rewrite (add_or_get_found uuid4 _ _ t); [| by simpl; rewrite He | by simpl; rewrite Ht, He].
  cbv zeta. unfold update_task. cbn [fst with_tasks _task_map].
  destruct (message (sue_status e)) as [msg|]; simpl; by rewrite Hmap.
Qed.

Lemma status_stream_gen name evs : forall m t,
  quiet m -> find_task (id t) (_tasks m) = Some t ->
  Py.truthy_str (id t) = true ->
  Forall (fun e => sue_taskId e = id t) evs ->
  NoDup (map messageId (hist t)) ->
  let m' := run_callbacks task_callback m (map (fun e => (ArgStatus e, name)) evs) in
  exists t',
    find_task (id t) (_tasks m') = Some t'
    /\ status t' = List.last (map sue_status evs) (status t)
    /\ NoDup (map messageId (hist t'))
    /\ hist t `prefix_of` hist t'
    /\ length (hist t') <= length (hist t) + length evs
    /\ artifacts t' = artifacts t
    /\ (forall k, _task_map m !! k = Some (id t) -> _task_map m' !! k = Some (id t))
    /\ (forall e msg, e ∈ evs -> message (sue_status e) = Some msg ->
          _task_map m' !! messageId msg = Some (id t))
    /\ quiet m'.
Proof.
  induction evs as [|e evs IH]; intros m t Hq Hfind Hid Hall Hnd; cbv zeta.
  - exists t. unfold run_callbacks. simpl.
    repeat split; try done; try by destruct Hq.
    + lia.
    + intros e msg He. by apply elem_of_nil in He.
  - apply Forall_cons_1 in Hall as [He Hall].
    destruct (status_callback_step m t e name Hq Hfind Hid He)
      as (Hq1 & Ht1 & _ & Hmap1).
    set (t1 := insert_message_history (set_status t (sue_status e))
                 (message (sue_status e))) in *.
    destruct (insert_message_history_hist (set_status t (sue_status e))
                (message (sue_status e)))
      as ((Hid1 & Hst1 & Harts1) & Hhist).
    fold t1 in Hid1, Hst1, Harts1, Hhist.
    change (hist (set_status t (sue_status e))) with (hist t) in Hhist.
    simpl in Hid1, Hst1, Harts1.
    assert (Hstep : NoDup (map messageId (hist t1))
                    /\ exists added, hist t1 = hist t ++ added /\ length added <= 1).
    { destruct Hhist as [->|(sm & _ & Hnew & ->)].
      - split; [done|]. exists []. split; [by rewrite app_nil_r | simpl; lia].
      - split; [|exists [sm]; split; [done | simpl; lia]].
        rewrite map_app. apply NoDup_app. split; [done|]. split.
        + intros y Hy Hy'. apply list_elem_of_singleton in Hy'. by subst y.
        + apply NoDup_singleton. }
    destruct Hstep as (Hnd1 & added & Hadd & Hlen).
    unfold run_callbacks in *. simpl.
    set (m1 := fst (task_callback m (ArgStatus e) name)) in *.
    assert (Hfind1 : find_task (id t1) (_tasks m1) = Some t1).
    { rewrite Ht1, Hid1. by apply (find_update_first _ _ t). }
    destruct (IH m1 t1 Hq1 Hfind1) as (t' & H1 & H2 & H3 & H4 & H5 & H6 & H7 & H8 & H9).
    { by rewrite Hid1. }
    { by rewrite Hid1. }
    { exact Hnd1. }
    rewrite Hid1 in H1, H7, H8.
    assert (Hkeep : forall k, _task_map m !! k = Some (id t) ->
                              _task_map m1 !! k = Some (id t)).
    { intros k Hk. rewrite Hmap1. destruct (message (sue_status e)) as [msg|]; [|done].
      destruct (decide (messageId msg = k)) as [<-|Hne].
      - by rewrite lookup_insert_eq.
      - by rewrite lookup_insert_ne. }
    exists t'. split; [exact H1|]. split.
    { rewrite H2, Hst1. simpl. destruct evs as [|e' evs']; [done|].
      apply last_default_irrelevant. }
    split; [exact H3|]. split.
    { etrans; [|exact H4]. rewrite Hadd. by apply prefix_app_r. }
    split.
    { rewrite Hadd, length_app in H5. simpl. lia. }
    split; [by rewrite H6|]. split.
    { intros k Hk. by apply H7, Hkeep. }
    split; [|exact H9].
    intros e0 msg Hin Hmsg. apply elem_of_cons in Hin as [->|Hin].
    + apply H7. rewrite Hmap1, Hmsg. by rewrite lookup_insert_eq.
    + by apply (H8 e0).
Qed.

(** X8. A run of status updates for a stored task, each through the
    callback: the stored task ends with the status of the last update, its
    artifacts untouched; its history starts with the history it had, grows by
    at most one message per update, and holds no message id twice if it held
    none twice before; and the message of every update of the run is mapped
    to the task. *)
Theorem status_updates_reach_the_stored_task (m : Manager) (t : Task)
  (name : string) (evs : list TaskStatusUpdateEvent) :
  quiet m -> find_task (id t) (_tasks m) = Some t ->
  Py.truthy_str (id t) = true ->
  Forall (fun e => sue_taskId e = id t) evs ->
  NoDup (map messageId (hist t)) ->
  let m' := run_callbacks task_callback m (map (fun e => (ArgStatus e, name)) evs) in
  exists t',
    find_task (id t) (_tasks m') = Some t'
    /\ status t' = List.last (map sue_status evs) (status t)
    /\ NoDup (map messageId (hist t'))
    /\ hist t `prefix_of` hist t'
    /\ length (hist t') <= length (hist t) + length evs
    /\ artifacts t' = artifacts t
    /\ (forall e msg, e ∈ evs -> message (sue_status e) = Some msg ->
          _task_map m' !! messageId msg = Some (id t))
    /\ quiet m'.
Proof.
  intros Hq Hfind Hid Hall Hnd.
  destruct (status_stream_gen name evs m t Hq Hfind Hid Hall Hnd)
    as (t' & H1 & H2 & H3 & H4 & H5 & H6 & _ & H8 & H9).
  exists t'. repeat (split; [assumption|]). exact H9.
Qed.

(** X7. An update for a task id the manager does not hold is not dropped:
    the callback stores a task under that id behind the tasks already held,
    and returns it.  A [Task] is stored as it came; a status update gives a
    task with the event's status and context; an artifact update gives a
    submitted task that has been through [process_artifact_event]. *)
Theorem callback_stores_unknown_task (m : Manager) (task : TaskCallbackArg)
  (name : string) :
  quiet m -> Py.truthy_str (arg_id task) = true ->
  find_task (arg_id task) (_tasks m) = None ->
  let out := task_callback m task name in
  let blank := mkTask (arg_id task) (arg_contextId task)
                 (mkTaskStatus submitted None None) (Some []) None in
  _tasks (fst out) = _tasks m ++ [snd out]
  /\ id (snd out) = arg_id task
  /\ contextId (snd out) = arg_contextId task
  /\ match task with
     | ArgTask t => snd out = t
     | ArgStatus e =>
         snd out = insert_message_history (set_status blank (sue_status e))
                     (message (sue_status e))
         /\ status (snd out) = sue_status e
     | ArgArtifact e =>
         snd out = snd (process_artifact_event (_artifact_chunks m) blank e)
         /\ status (snd out) = mkTaskStatus submitted None None
     end.
Proof.
  intros Hq Hid Hnone. cbv zeta.
  rewrite task_callback_quiet by done.
  unfold HostManager.handle_update.
  destruct (emit_event_keeps uuid4 utcnow str_of_task_state m task name)
    as (Ht & Hc & _).
  set (m1 := emit_event m task name) in *.
  assert (Hadd : add_or_get_task m1 task
    = (add_task m1 (mkTask (arg_id task) (arg_contextId task)
                      (mkTaskStatus submitted None None) (Some []) None),
       mkTask (arg_id task) (arg_contextId task)
         (mkTaskStatus submitted None None) (Some []) None)).
  { unfold HostManager.add_or_get_task. rewrite Hid. simpl.
    by rewrite Ht, Hnone. }
  destruct task as [t|e|e].
  - rewrite attach_message_keeps, Ht, existsb_find_task.
    simpl in Hnone. rewrite Hnone. simpl.
    by rewrite attach_message_keeps, Ht.
  - rewrite Hadd. cbv zeta. unfold update_task.
    cbn [fst snd with_tasks _tasks].
    rewrite attach_message_keeps. cbn [add_task with_tasks _tasks].
    rewrite Ht.
    set (t' := insert_message_history _ _).
    assert (Hid' : id t' = sue_taskId e).
    { subst t'. by rewrite insert_message_history_id. }
    rewrite update_first_snoc_new; [| by rewrite Hid' | by rewrite Hid'].
    split; [done|]. split; [done|]. split.
    + subst t'. unfold insert_message_history. by repeat (case_match; simpl).
    + split; [done|]. subst t'. by rewrite insert_message_history_status.
  - rewrite Hadd. cbn [fst snd add_task with_tasks _artifact_chunks].
    rewrite Hc.
    set (blank := mkTask _ _ _ _ _).
    pose proof (process_artifact_event_id (_artifact_chunks m) blank e) as Hid'.
    destruct (process_artifact_event_keeps (_artifact_chunks m) blank e)
      as (_ & Hctx & Hst & _).
    destruct (process_artifact_event (_artifact_chunks m) blank e) as [c1 u1].
    cbn [fst snd] in *. unfold update_task.
    cbn [fst snd add_task with_tasks with_artifact_chunks _tasks].
    rewrite Ht.
    rewrite update_first_snoc_new; [| by rewrite Hid' | by rewrite Hid'].
    done.
Qed.

End Callback.

(** *** The message helpers *)

(** X10. [sanitize_message] changes nothing but the task id of the message,
    and sets it in one case only: the message's context names a stored
    conversation, the last message of that conversation carries a task id,
    and the task stored under that id is submitted, working or waiting for
    input.  A finished task is never continued.  The two managers write the
    test differently and agree on every input. *)
Theorem sanitize_message_continues_open_tasks_only
  (conversations : list Conversation) (tasks : list Task) (message : Message) :
  let out := sanitize_message conversations tasks message in
  InMemoryManager.sanitize_message conversations tasks message = out
  /\ (out = message
      \/ exists conv last_message tid task,
           get_conversation conversations (msg_contextId message) = Some conv
           /\ last (messages conv) = Some last_message
           /\ msg_taskId last_message = Some tid
           /\ find_task tid tasks = Some task
           /\ terminal (state (status task)) = false
           /\ task_still_open (Some task) = true
           /\ out = set_taskId message (Some tid))
  /\ (forall conv last_message tid task,
        get_conversation conversations (msg_contextId message) = Some conv ->
        last (messages conv) = Some last_message ->
        msg_taskId last_message = Some tid -> tid <> "" ->
        find_task tid tasks = Some task ->
        out = if task_still_open (Some task)
              then set_taskId message (Some tid) else message)
  /\ messageId out = messageId message /\ msg_role out = msg_role message
  /\ msg_parts out = msg_parts message
  /\ msg_contextId out = msg_contextId message.
Proof.
  cbv zeta. unfold sanitize_message, InMemoryManager.sanitize_message.
  destruct (Py.truthy_opt_str (msg_contextId message)) eqn:Hctx.
  2:{ split; [done|]. split; [by left|]. split; [|done].
      intros conv lm tid task Hconv. unfold get_conversation in Hconv.
      by rewrite Hctx in Hconv. }
  destruct (get_conversation conversations (msg_contextId message)) as [conv|];
    [|split; [done|]; split; [by left|]; split; [|done]; by intros].
  destruct (last (messages conv)) as [lm|] eqn:Hlast;
    [|split; [done|]; split; [by left|]; split; [|done];
      intros; simplify_eq; congruence].
  destruct (msg_taskId lm) as [tid|] eqn:Htid; simpl;
    [|split; [done|]; split; [by left|]; split; [|done];
      intros; simplify_eq; congruence].
  destruct (Py.truthy_str tid) eqn:Htr; simpl.
  2:{ split; [done|]. split; [by left|]. split; [|done].
      intros conv' lm' tid' task' Hc' Hl' Ht' Hne.
      assert (tid' = tid) as -> by congruence.
      destruct tid; [congruence|discriminate]. }
  destruct (find_task tid tasks) as [task|] eqn:Hfind; simpl.
  2:{ split; [done|]. split; [by left|]. split; [|done].
      intros conv' lm' tid' task' Hc' Hl' Ht' Hne Hf'.
      assert (tid' = tid) as -> by congruence. congruence. }
  assert (Hall : forall conv' lm' tid' task',
    Some conv = Some conv' -> last (messages conv') = Some lm' ->
    msg_taskId lm' = Some tid' -> find_task tid' tasks = Some task' ->
    tid' = tid /\ task' = task).
  { intros conv' lm' tid' task' Hc' Hl' Ht' Hf'.
    assert (conv' = conv) as -> by congruence.
    assert (lm' = lm) as -> by congruence.
    assert (tid' = tid) as -> by congruence.
    split; congruence. }
  destruct (state (status task)) eqn:Hst.
  all: split; [done|].
  all: split;
    [first [ by left
           | right; exists conv, lm, tid, task; unfold terminal;
             simpl; rewrite Hst; by repeat split ]|].
  all: split; [|done].
  all: intros conv' lm' tid' task' Hc' Hl' Ht' Hne Hf';
    destruct (Hall conv' lm' tid' task' Hc' Hl' Ht' Hf') as [-> ->];
    simpl; by rewrite Hst.
Qed.

(** The pending message ids [ADKHostManager.get_pending_messages] passes
    over: the task of the message is stored, and has no history or a last
    message without parts. *)
Definition silent (task_map : gmap string string) (tasks : list Task)
  (message_id : string) : bool :=
  match task_map !! message_id with
  | Some task_id =>
      match find_task task_id tasks with
      | Some task =>
          match last (hist task) with
          | Some last_message => negb (Py.truthy_list (msg_parts last_message))
          | None => true
          end
      | None => false
      end
  | None => false
  end.

Lemma fold_left_snoc_entries {A B} (entry : A -> list B)
  (step : list B -> A -> list B) (l : list A) (acc : list B) :
  (forall rval x, step rval x = rval ++ entry x) ->
  fold_left step l acc = acc ++ concat (map entry l).
Proof.
  intros Hstep. revert acc. induction l as [|x l IH]; intros acc; simpl.
  - by rewrite app_nil_r.
  - by rewrite IH, Hstep, <- app_assoc.
Qed.

(** What each manager reports for one pending id. *)
Definition status_text (task_map : gmap string string) (tasks : list Task)
  (message_id : string) : string :=
  match task_map !! message_id with
  | Some task_id =>
      match find_task task_id tasks with
      | Some task =>
          match last (hist task) with
          | Some last_message =>
              match msg_parts last_message with
              | part :: _ =>
                  if Nat.eqb (length (hist task)) 1 then "Working..."
                  else part_status_text part
              | [] => ""
              end
          | None => ""
          end
      | None => ""
      end
  | None => ""
  end.

Lemma in_memory_pending pending task_map tasks :
  InMemoryManager.get_pending_messages pending task_map tasks
  = map (fun i => (i, status_text task_map tasks i)) pending.
Proof.
  unfold InMemoryManager.get_pending_messages.
  rewrite (fold_left_snoc_entries
             (fun i => [(i, status_text task_map tasks i)])).
  - simpl. induction pending as [|i l IH]; simpl; congruence.
  - intros rval i. unfold status_text, hist.
    by repeat case_match.
Qed.

Lemma adk_pending pending task_map tasks :
  get_pending_messages pending task_map tasks
  = map (fun i => (i, status_text task_map tasks i))
      (List.filter (fun i => negb (silent task_map tasks i)) pending).
Proof.
  unfold get_pending_messages.
  rewrite (fold_left_snoc_entries
             (fun i => if silent task_map tasks i then []
                       else [(i, status_text task_map tasks i)])).
  - simpl. induction pending as [|i l IH]; simpl; [done|].
    destruct (silent task_map tasks i); simpl; congruence.
  - intros rval i. unfold status_text, silent, hist.
    repeat case_match; simpl in *; simplify_eq; try done;
      by rewrite app_nil_r.
Qed.

(** X11. [InMemoryFakeAgentManager.get_pending_messages] reports every
    pending message id once and in order.  [ADKHostManager]'s version gives
    the same entries except that it leaves out, without a trace, each pending
    id whose task is stored with an empty history or with a last message that
    has no parts. *)
Theorem pending_messages_of_the_two_managers (pending : list string)
  (task_map : gmap string string) (tasks : list Task) :
  let shown i := negb (silent task_map tasks i) in
  map fst (InMemoryManager.get_pending_messages pending task_map tasks) = pending
  /\ get_pending_messages pending task_map tasks
     = List.filter (fun p => shown (fst p))
         (InMemoryManager.get_pending_messages pending task_map tasks)
  /\ map fst (get_pending_messages pending task_map tasks)
     = List.filter shown pending
  /\ (forall i, task_map !! i = None -> i ∈ pending ->
        (i, "") ∈ get_pending_messages pending task_map tasks).
Proof.
  cbv zeta. rewrite in_memory_pending, adk_pending.
  split; [|split; [|split]].
  - rewrite map_map. simpl. apply map_id.
  - induction pending as [|i l IH]; simpl; [done|].
    destruct (silent task_map tasks i); simpl; congruence.
  - rewrite map_map. simpl. apply map_id.
  - intros i Hnone Hin.
    apply (list_elem_of_fmap_2' (fun i => (i, status_text task_map tasks i)) _ i).
    + apply list_elem_of_In, filter_In. split.
      * by apply list_elem_of_In.
      * unfold silent. by rewrite Hnone.
    + unfold status_text. by rewrite Hnone.
Qed.

(** *** The theorems at work *)

Definition open_manager : Manager := mkManager [open_task] ∅ ∅ ∅ ∅ ∅ 0.

Definition chunk_of (aid txt : string) (app lst : option bool)
  : TaskArtifactUpdateEvent :=
  mkTaskArtifactUpdateEvent "t1" "ctx"
    (mkArtifact aid None None [TextPart txt]) app lst.

(** Two chunked artifacts whose chunks arrive interleaved. *)
Definition interleaved : list TaskArtifactUpdateEvent :=
  [chunk_of "A1" "a" (Some false) (Some false);
   chunk_of "A2" "x" (Some false) (Some false);
   chunk_of "A1" "b" (Some true) (Some true);
   chunk_of "A2" "y" (Some true) (Some false)].

Definition replied_task : Task :=
  mkTask "t1" "ctx" (sue_status late_status) (Some []) (Some [ask]).

Lemma callback_guard_never_fires_witness :
  quiet init
  /\ quiet (run_callbacks (task_callback sample_uuid4 sample_utcnow sample_str) init
              [(ArgStatus late_status, "agent"); (ArgArtifact late_artifact, "agent")]).
Proof.
  assert (Hq : quiet init) by (split; reflexivity).
  split; [exact Hq|].
  exact (proj1 (callback_guard_never_fires sample_uuid4 sample_utcnow sample_str init
                  [(ArgStatus late_status, "agent"); (ArgArtifact late_artifact, "agent")]
                  Hq)).
Defined.

Lemma streamed_artifacts_witness :
  quiet open_manager
  /\ find_task "t1"
       (_tasks (fst (send_message_streaming
                       (Some (fun m ev =>
                                task_callback sample_uuid4 sample_utcnow sample_str
                                  m ev "agent"))
                       open_manager
                       (map artifact_response
                          [chunk "a" (Some false) (Some false);
                           chunk "b" (Some true) (Some false);
                           chunk "c" (Some true) (Some true)]))))
     = Some (set_artifacts open_task
               (Some [mkArtifact "A1" None None
                        [TextPart "a"; TextPart "b"; TextPart "c"]])).
Proof.
  assert (Hq : quiet open_manager) by (split; reflexivity).
  split; [exact Hq|].
  refine (proj1 (streamed_artifacts_reach_the_stored_task
                   sample_uuid4 sample_utcnow sample_str open_manager open_task
                   "agent"
                   [chunk "a" (Some false) (Some false);
                    chunk "b" (Some true) (Some false);
                    chunk "c" (Some true) (Some true)]
                   Hq eq_refl eq_refl _)).
  repeat constructor.
Defined.

Lemma interleaved_streams_witness :
  keyed ∅
  /\ fst (process_artifact_events ∅ open_task interleaved) !! "A1" = None
  /\ arts_of "A1" (snd (process_artifact_events ∅ open_task interleaved))
     = [mkArtifact "A1" None None [TextPart "a"; TextPart "b"]].
Proof.
  split; [exact keyed_empty|].
  destruct (interleaved_streams_are_independent ∅ open_task interleaved "A1"
              keyed_empty) as (Hstore & Harts & _).
  split.
  - rewrite Hstore. reflexivity.
  - rewrite Harts. reflexivity.
Defined.

Lemma insert_message_history_witness :
  NoDup (map messageId (hist replied_task))
  /\ hist (insert_message_history replied_task (message (status replied_task)))
     = [ask; mkMessage "m2" agent [TextPart "again"] (Some "t1") (Some "ctx")]
  /\ NoDup (map messageId
              (hist (insert_message_history replied_task
                       (message (status replied_task))))).
Proof.
  assert (Hnd : NoDup (map messageId (hist replied_task))).
  { apply NoDup_singleton. }
  split; [exact Hnd|]. split; [reflexivity|].
  exact (proj1 (insert_message_history_records_once replied_task
                  (message (status replied_task)) Hnd)).
Defined.

Definition closing_status : TaskStatusUpdateEvent :=
  mkTaskStatusUpdateEvent "t1" "ctx"
    (mkTaskStatus completed
       (Some (mkMessage "m3" agent [TextPart "done"] (Some "t1") (Some "ctx")))
       None)
    true.

Lemma status_updates_witness :
  quiet open_manager
  /\ exists t',
       find_task "t1"
         (_tasks (run_callbacks sample_callback open_manager
                    [(ArgStatus late_status, "agent");
                     (ArgStatus closing_status, "agent")]))
       = Some t'
       /\ state (status t') = completed
       /\ NoDup (map messageId (hist t')).
Proof.
  assert (Hq : quiet open_manager) by (split; reflexivity).
  split; [exact Hq|].
  destruct (status_updates_reach_the_stored_task sample_uuid4 sample_utcnow
              sample_str open_manager open_task "agent"
              [late_status; closing_status] Hq eq_refl eq_refl)
    as (t' & Hfind & Hstatus & Hnd & _).
  - repeat constructor.
  - constructor.
  - exists t'. split; [exact Hfind|]. split; [by rewrite Hstatus | exact Hnd].
Defined.

Lemma callback_stores_unknown_task_witness :
  quiet init
  /\ find_task "t1" (_tasks init) = None
  /\ _tasks (fst (sample_callback init (ArgStatus late_status) "agent"))
     = [snd (sample_callback init (ArgStatus late_status) "agent")]
  /\ id (snd (sample_callback init (ArgStatus late_status) "agent")) = "t1".
Proof.
  assert (Hq : quiet init) by (split; reflexivity).
  split; [exact Hq|]. split; [reflexivity|].
  destruct (callback_stores_unknown_task sample_uuid4 sample_utcnow sample_str
              init (ArgStatus late_status) "agent" Hq eq_refl eq_refl)
    as (Htasks & Hid & _).
  split; [exact Htasks | exact Hid].
Defined.

End HostManagerProps.

(** ** More of the type model: what the decoders let through *)
Module TypesProps.
Import Json Types TypesSpec.

(** [x] is a value the decoder yields on some input. *)
Definition decoded {T} (dec : json -> option T) (x : T) : Prop :=
  exists j, dec j = Some x.

Lemma required_decoded {T} (dec : json -> option T) k kv x :
  required dec k kv = Some x -> decoded dec x.
Proof.
  unfold required. intros H. apply bind_Some in H as (j & _ & H). by exists j.
Qed.

Lemma optional_decoded {T} (dec : json -> option T) k kv o :
  optional dec k kv = Some o -> wf_opt (decoded dec) o.
Proof.
  unfold optional. intros H.
  destruct (lookup k kv) as [j|]; [|by simplify_eq].
  destruct o as [x|]; [|done]. simpl.
  destruct j; simplify_eq; apply fmap_Some in H as (y & Hy & ?); simplify_eq;
    by eexists.
Qed.

Lemma dec_items_decoded {T} (dec : json -> option T) l xs :
  dec_items dec l = Some xs -> Forall (decoded dec) xs.
Proof.
  revert xs. induction l as [|j l IH]; intros xs H; simpl in H.
  - by simplify_eq.
  - apply bind_Some in H as (x & Hx & H).
    apply bind_Some in H as (ys & Hys & H). simplify_eq.
    constructor; [by exists j | by apply IH].
Qed.

Lemma dec_list_decoded {T} (dec : json -> option T) j xs :
  dec_list dec j = Some xs -> Forall (decoded dec) xs.
Proof. destruct j; try done. apply dec_items_decoded. Qed.

Lemma wf_opt_impl {T} (P Q : T -> Prop) o :
  (forall x, P x -> Q x) -> wf_opt P o -> wf_opt Q o.
Proof. intros H. destruct o; simpl; auto. Qed.

(** Take the binds of a successful decoding apart. *)
Ltac binds H :=
  repeat (let x := fresh "x" in
          let Hx := fresh "Hx" in
          apply bind_Some in H as (x & Hx & H)).

Lemma FileContent_decoded f : decoded decode_FileContent f -> wf_FileContent f.
Proof.
  intros [j H]. unfold decode_FileContent in H. binds H.
  unfold wf_FileContent.
  match type of H with
  | context [check_content ?c] =>
      destruct (check_content c) as [self|] eqn:E; [|done];
      assert (self = c) as ->
        by (unfold check_content in E; repeat case_match; congruence)
  end.
  congruence.
Qed.

Lemma Part_decoded p : decoded decode_Part p -> wf_Part p.
Proof.
  intros [j H]. unfold decode_Part in H. binds H.
  repeat case_match; try done;
    apply fmap_Some in H as (q & Hq & ->); simpl; try done.
  unfold decode_FilePart in Hq. binds Hq. simplify_eq. simpl.
  by eapply FileContent_decoded, required_decoded.
Qed.

Lemma Parts_decoded j ps :
  dec_list decode_Part j = Some ps -> Forall wf_Part ps.
Proof.
  intros H. eapply Forall_impl; [by eapply dec_list_decoded|].
  apply Part_decoded.
Qed.

Lemma Message_decoded m : decoded decode_Message m -> wf_Message m.
Proof.
  intros [j H]. unfold decode_Message in H. binds H. simplify_eq.
  unfold wf_Message. simpl.
  match goal with
  | H : required (dec_list decode_Part) _ _ = Some _ |- _ =>
      apply required_decoded in H as [j' H]; by eapply Parts_decoded
  end.
Qed.

Lemma Artifact_decoded a : decoded decode_Artifact a -> wf_Artifact a.
Proof.
  intros [j H]. unfold decode_Artifact in H. binds H. simplify_eq.
  unfold wf_Artifact. simpl.
  match goal with
  | H : required (dec_list decode_Part) _ _ = Some _ |- _ =>
      apply required_decoded in H as [j' H]; by eapply Parts_decoded
  end.
Qed.

Lemma optional_list_decoded {T} (dec : json -> option T) (P : T -> Prop) k kv o :
  (forall x, decoded dec x -> P x) ->
  optional (dec_list dec) k kv = Some o -> wf_opt (Forall P) o.
Proof.
  intros HP H. apply optional_decoded in H.
  destruct o as [l|]; [|done]. simpl in *. destruct H as [j H].
  eapply Forall_impl; [by eapply dec_list_decoded|]. exact HP.
Qed.

Section Models.
Variable datetime : Type.
Variable isoformat : datetime -> string.
Variable parse_datetime : json -> option datetime.
Variable now : datetime.
Variable fresh_id : string.
Variable fresh_session : string.

Local Abbreviation decode_TaskStatus := (decode_TaskStatus datetime parse_datetime now).
Local Abbreviation decode_Task := (decode_Task datetime parse_datetime now).
Local Abbreviation decode_StreamEvent := (decode_StreamEvent datetime parse_datetime now).
Local Abbreviation decode_A2ARequest := (decode_A2ARequest fresh_id fresh_session).

Lemma TaskStatus_decoded s : decoded decode_TaskStatus s -> wf_TaskStatus datetime s.
Proof.
  intros [j H]. unfold Types.decode_TaskStatus in H. binds H. simplify_eq.
  unfold wf_TaskStatus. simpl.
  eapply wf_opt_impl; [apply Message_decoded|]. by eapply optional_decoded.
Qed.

Lemma Task_decoded t : decoded decode_Task t -> wf_Task datetime t.
Proof.
  intros [j H]. unfold Types.decode_Task in H. binds H. simplify_eq.
  unfold wf_Task. simpl. split; [|split].
  - by eapply TaskStatus_decoded, required_decoded.
  - eapply optional_list_decoded; [apply Artifact_decoded|done].
  - eapply optional_list_decoded; [apply Message_decoded|done].
Qed.

Lemma StreamEvent_decoded e :
  decoded decode_StreamEvent e -> wf_StreamEvent datetime e.
Proof.
  intros [j H]. unfold Types.decode_StreamEvent in H.
  destruct (decode_TaskStatusUpdateEvent _ _ _ j) as [se|] eqn:E.
  - simplify_eq. unfold decode_TaskStatusUpdateEvent in E. binds E. simplify_eq.
    simpl. by eapply TaskStatus_decoded, required_decoded.
  - apply fmap_Some in H as (ae & Hae & ->).
    unfold decode_TaskArtifactUpdateEvent in Hae. binds Hae. simplify_eq.
    simpl. by eapply Artifact_decoded, required_decoded.
Qed.

Lemma AuthenticationInfo_decoded a :
  decoded decode_AuthenticationInfo a -> wf_AuthenticationInfo a.
Proof.
  intros [j H]. unfold decode_AuthenticationInfo in H. binds H. simplify_eq.
  unfold wf_AuthenticationInfo. simpl.
  apply List.Forall_forall. intros e He. by apply filter_In in He as [_ He].
Qed.

Lemma PushNotificationConfig_decoded c :
  decoded decode_PushNotificationConfig c -> wf_PushNotificationConfig c.
Proof.
  intros [j H]. unfold decode_PushNotificationConfig in H. binds H. simplify_eq.
  unfold wf_PushNotificationConfig. simpl.
  eapply wf_opt_impl; [apply AuthenticationInfo_decoded|].
  by eapply optional_decoded.
Qed.

Lemma TaskSendParams_decoded p :
  decoded (decode_TaskSendParams fresh_session) p -> wf_TaskSendParams p.
Proof.
  intros [j H]. unfold decode_TaskSendParams in H. binds H. simplify_eq.
  unfold wf_TaskSendParams. simpl. split.
  - by eapply Message_decoded, required_decoded.
  - eapply wf_opt_impl; [apply PushNotificationConfig_decoded|].
    by eapply optional_decoded.
Qed.

Lemma A2ARequest_decoded r : decoded decode_A2ARequest r -> wf_A2ARequest r.
Proof.
  intros [j H]. unfold Types.decode_A2ARequest in H. binds H.
  repeat case_match; try done;
    apply fmap_Some in H as (q & Hq & ->); simpl; try done.
  - by eapply TaskSendParams_decoded, required_decoded.
  - apply required_decoded in Hq as [j' Hq].
    unfold decode_TaskPushNotificationConfig in Hq. binds Hq. simplify_eq.
    simpl. by eapply PushNotificationConfig_decoded, required_decoded.
  - by eapply TaskSendParams_decoded, required_decoded.
Qed.

End Models.

(** A codec is stable when every value the decoder yields is read back
    unchanged from its own encoding. *)
Definition stable {T} (enc : T -> json) (dec : json -> option T) : Prop :=
  forall j x, dec j = Some x -> dec (enc x) = Some x.

Lemma stable_from {T} (P : T -> Prop) enc dec :
  (forall x, decoded dec x -> P x) -> roundtrips P enc dec -> stable enc dec.
Proof. intros Hv Hrt j x H. apply Hrt, Hv. by exists j. Qed.

(** X12. Whatever the decoders accept, they accept again after a dump: for
    parts, messages, artifacts, task statuses, tasks, update events, push
    configurations and requests, a value that came out of the decoder (with
    defaults filled in and unknown keys dropped) is read back unchanged from
    its encoding.  The validators run on every decoded value: a decoded file
    content has passed [check_content], wherever in a task or request it
    sits. *)
Theorem decoded_values_survive_a_dump
  (datetime : Type) (isoformat : datetime -> string)
  (parse_datetime : json -> option datetime) (now : datetime)
  (fresh_id fresh_session : string) :
  (forall dt, parse_datetime (JStr (isoformat dt)) = Some dt) ->
  stable encode_Part decode_Part
  /\ stable encode_Message decode_Message
  /\ stable encode_Artifact decode_Artifact
  /\ stable (encode_TaskStatus datetime isoformat)
       (decode_TaskStatus datetime parse_datetime now)
  /\ stable (encode_Task datetime isoformat)
       (decode_Task datetime parse_datetime now)
  /\ stable (encode_StreamEvent datetime isoformat)
       (decode_StreamEvent datetime parse_datetime now)
  /\ stable encode_PushNotificationConfig decode_PushNotificationConfig
  /\ stable encode_A2ARequest (decode_A2ARequest fresh_id fresh_session)
  /\ (forall j t, decode_Task datetime parse_datetime now j = Some t ->
        wf_Task datetime t)
  /\ (forall j r, decode_A2ARequest fresh_id fresh_session j = Some r ->
        wf_A2ARequest r).
Proof.
  intros Hdt. repeat split_and.
  - eapply stable_from; [apply Part_decoded | apply Part_roundtrip].
  - eapply stable_from; [apply Message_decoded | apply Message_roundtrip].
  - eapply stable_from; [apply Artifact_decoded | apply Artifact_roundtrip].
  - eapply stable_from; [apply TaskStatus_decoded | by apply TaskStatus_roundtrip].
  - eapply stable_from; [apply Task_decoded | by apply Task_roundtrip].
  - eapply stable_from; [apply StreamEvent_decoded | by apply StreamEvent_roundtrip].
  - eapply stable_from;
      [apply PushNotificationConfig_decoded | apply PushNotificationConfig_roundtrip].
  - eapply stable_from; [apply A2ARequest_decoded | apply A2ARequest_roundtrip].
  - intros j t H. apply (Task_decoded datetime parse_datetime now). by exists j.
  - intros j r H. apply (A2ARequest_decoded fresh_id fresh_session). by exists j.
Qed.

(** *** Keys that name no field *)

Lemma lookup_skip k k' v kv1 kv2 :
  k' <> k -> lookup k' (kv1 ++ (k, v) :: kv2) = lookup k' (kv1 ++ kv2).
Proof.
  intros Hne. induction kv1 as [|[k0 v0] kv1 IH]; simpl.
  - destruct (String.eqb_spec k' k); [done|done].
  - by rewrite IH.
Qed.

Lemma lookup_filter_extra k kv :
  is_extra_key k = true ->
  lookup k (List.filter (fun e => is_extra_key (fst e)) kv) = lookup k kv.
Proof.
  intros Hk. induction kv as [|[k0 v0] kv IH]; [done|]. simpl.
  destruct (is_extra_key k0) eqn:E; simpl.
  - by rewrite IH.
  - destruct (String.eqb_spec k k0) as [->|_]; [congruence|done].
Qed.

Definition entries (j : json) : dict :=
  match j with JDict kv => kv | _ => [] end.

Definition Task_fields : list string :=
  ["id"; "sessionId"; "status"; "artifacts"; "history"; "metadata"].

(** X13. A key that names no field is ignored where the model has the default
    configuration and kept where it says [extra="allow"].  A task decodes to
    the same value with and without such a key, wherever it stands in the
    dict; an [AuthenticationInfo] carries every such key with its value into
    its dump. *)
Theorem unknown_keys_dropped_or_kept
  (datetime : Type) (isoformat : datetime -> string)
  (parse_datetime : json -> option datetime) (now : datetime)
  (k : string) (v : json) (kv kv1 kv2 : dict) (a : AuthenticationInfo) :
  (k ∉ Task_fields ->
   decode_Task datetime parse_datetime now (JDict (kv1 ++ (k, v) :: kv2))
   = decode_Task datetime parse_datetime now (JDict (kv1 ++ kv2)))
  /\ (decode_AuthenticationInfo (JDict kv) = Some a ->
      is_extra_key k = true ->
      lookup k (entries (encode_AuthenticationInfo a)) = lookup k kv).
Proof.
  split.
  - intros Hk. unfold Task_fields in Hk.
    unfold decode_Task, required, optional. cbn [dec_dict mbind option_bind].
    rewrite !(lookup_skip k) by set_solver. done.
  - intros H Hk. unfold decode_AuthenticationInfo in H.
    cbn [dec_dict mbind option_bind] in H. binds H. simplify_eq.
    unfold encode_AuthenticationInfo, entries. simpl.
    pose proof Hk as Hk'. unfold is_extra_key in Hk'.
    destruct (String.eqb k "schemes") eqn:E1; [done|].
    destruct (String.eqb k "credentials") eqn:E2; [done|].
    by apply lookup_filter_extra.
Qed.

(** *** The request union *)

(** The [method] literal of each request class, and the envelope id. *)
Definition method_of (r : A2ARequest) : string :=
  match r with
  | SendTaskRequest _ _ => "tasks/send"
  | GetTaskRequest _ _ => "tasks/get"
  | CancelTaskRequest _ _ => "tasks/cancel"
  | SetTaskPushNotificationRequest _ _ => "tasks/pushNotification/set"
  | GetTaskPushNotificationRequest _ _ => "tasks/pushNotification/get"
  | TaskResubscriptionRequest _ _ => "tasks/resubscribe"
  | SendTaskStreamingRequest _ _ => "tasks/sendSubscribe"
  end.

Definition rpc_id (r : A2ARequest) : RpcId :=
  match r with
  | SendTaskRequest i _ | GetTaskRequest i _ | CancelTaskRequest i _
  | SetTaskPushNotificationRequest i _ | GetTaskPushNotificationRequest i _
  | TaskResubscriptionRequest i _ | SendTaskStreamingRequest i _ => i
  end.

Definition methods : list string :=
  ["tasks/send"; "tasks/get"; "tasks/cancel"; "tasks/pushNotification/set";
   "tasks/pushNotification/get"; "tasks/resubscribe"; "tasks/sendSubscribe"].

(** An id that is an int, a str or [None] already. *)
Definition exact_id (j : json) : bool :=
  match j with
  | JInt _ | JStr _ | JNull => true
  | _ => false
  end.

(** Without a coercion, lax validation is the strict decoding. *)
Lemma validate_int_strict j : validate_int (fun _ => None) j = dec_int j.
Proof. by destruct j. Qed.

Lemma validate_RpcId_strict fresh_id kv :
  validate_RpcId (fun _ => None) fresh_id kv = decode_RpcId fresh_id kv.
Proof.
  unfold validate_RpcId, decode_RpcId. by repeat case_match.
Qed.

Lemma optional_validate_int_strict k kv :
  optional (validate_int (fun _ => None)) k kv = optional dec_int k kv.
Proof.
  unfold optional. destruct (lookup k kv) as [j|]; [|done].
  by rewrite validate_int_strict.
Qed.

Lemma validate_TaskQueryParams_strict j :
  validate_TaskQueryParams (fun _ => None) j = decode_TaskQueryParams j.
Proof.
  unfold validate_TaskQueryParams, decode_TaskQueryParams.
  destruct (dec_dict j) as [kv|]; [|done]. cbn [mbind option_bind].
  destruct (required dec_str "id" kv); [|done]. cbn [mbind option_bind].
  destruct (optional dec_dict "metadata" kv); [|done]. cbn [mbind option_bind].
  by rewrite optional_validate_int_strict.
Qed.

Lemma validate_TaskSendParams_strict fresh_session j :
  validate_TaskSendParams (fun _ => None) fresh_session j
  = decode_TaskSendParams fresh_session j.
Proof.
  unfold validate_TaskSendParams, decode_TaskSendParams.
  destruct (dec_dict j) as [kv|]; [|done]. cbn [mbind option_bind].
  destruct (required dec_str "id" kv); [|done]. cbn [mbind option_bind].
  destruct (defaulted dec_str fresh_session "sessionId" kv); [|done].
  cbn [mbind option_bind].
  destruct (required decode_Message "message" kv); [|done].
  cbn [mbind option_bind].
  destruct (optional (dec_list dec_str) "acceptedOutputModes" kv); [|done].
  cbn [mbind option_bind].
  destruct (optional decode_PushNotificationConfig "pushNotification" kv);
    [|done].
  cbn [mbind option_bind].
  by rewrite optional_validate_int_strict.
Qed.

Lemma required_ext {T} (f g : json -> option T) k kv :
  (forall j, f j = g j) -> required f k kv = required g k kv.
Proof.
  intros Hfg. unfold required. destruct (lookup k kv); [|done]. apply Hfg.
Qed.

Lemma validate_A2ARequest_strict fresh_id fresh_session j :
  validate_A2ARequest (fun _ => None) fresh_id fresh_session j
  = decode_A2ARequest fresh_id fresh_session j.
Proof.
  unfold validate_A2ARequest, decode_A2ARequest.
  destruct (dec_dict j) as [kv|]; [|done]. cbn [mbind option_bind].
  destruct (required dec_str "method" kv); [|done]. cbn [mbind option_bind].
  destruct (literal "2.0" "jsonrpc" kv); [|done]. cbn [mbind option_bind].
  rewrite validate_RpcId_strict.
  destruct (decode_RpcId fresh_id kv); [|done]. cbn [mbind option_bind].
  rewrite (required_ext _ _ "params" kv
             (validate_TaskSendParams_strict fresh_session)).
  rewrite (required_ext _ _ "params" kv validate_TaskQueryParams_strict).
  done.
Qed.

(** A coercion that knows the float 1.0 and the string "5" only, and a
    request that carries both. *)
Definition sample_lax_int (j : json) : option Z :=
  match j with
  | JFloat f => if PrimFloat.eqb f 1 then Some 1%Z else None
  | JStr s => if String.eqb s "5" then Some 5%Z else None
  | _ => None
  end.

Definition coerced_request : json :=
  JDict [("jsonrpc", JStr "2.0"); ("id", JFloat 1); ("method", JStr "tasks/get");
         ("params", JDict [("id", JStr "t1"); ("historyLength", JStr "5")])].

Lemma coerced_request_validates :
  validate_A2ARequest sample_lax_int "fresh-id" "fresh-session" coerced_request
  = Some (GetTaskRequest (IdInt 1) (mkTaskQueryParams "t1" None (Some 5%Z)))
  /\ decode_A2ARequest "fresh-id" "fresh-session" coerced_request = None.
Proof. split; reflexivity. Qed.

(** X14. The request union is discriminated by [method], in lax mode as in
    strict mode.  A request that validates is of the class whose literal the
    [method] key holds and its [jsonrpc] key is absent or "2.0".  Its id is a
    fresh one where the key is absent and the one given where that is an int,
    a str or [None]; any other value validates only if lax mode coerces it
    into an int, which is then the id.  A dict without [method], with a
    method that is none of the seven, or with another [jsonrpc] is rejected
    whatever its parameters are. *)
Theorem request_class_follows_method (lax_int : json -> option Z)
  (fresh_id fresh_session : string) (kv : dict) :
  let dec := validate_A2ARequest lax_int fresh_id fresh_session (JDict kv) in
  (forall r, dec = Some r ->
     lookup "method" kv = Some (JStr (method_of r))
     /\ method_of r ∈ methods
     /\ (lookup "jsonrpc" kv = None \/ lookup "jsonrpc" kv = Some (JStr "2.0"))
     /\ (lookup "id" kv = None -> rpc_id r = IdStr fresh_id)
     /\ (forall j, lookup "id" kv = Some j -> exact_id j = true ->
           encode_RpcId (rpc_id r) = j)
     /\ (forall j, lookup "id" kv = Some j -> exact_id j = false ->
           exists z, lax_int j = Some z /\ rpc_id r = IdInt z)
     /\ lookup "method" (entries (encode_A2ARequest r)) = lookup "method" kv)
  /\ (lookup "method" kv = None -> dec = None)
  /\ (forall m, lookup "method" kv = Some (JStr m) -> m ∉ methods -> dec = None)
  /\ (forall v, lookup "jsonrpc" kv = Some (JStr v) -> v <> "2.0" -> dec = None).
Proof.
  cbv zeta. unfold validate_A2ARequest. cbn [dec_dict mbind option_bind].
  split; [|split; [|split]].
  - intros r H. binds H.
    match goal with
    | Hm : required dec_str "method" kv = Some ?m |- _ =>
        unfold required in Hm; apply bind_Some in Hm as (jm & Hlook & Hm);
        destruct jm; try done; simpl in Hm; simplify_eq
    end.
    match goal with
    | Hl : literal "2.0" "jsonrpc" kv = Some _ |- _ =>
        unfold literal in Hl
    end.
    assert (Hjson : lookup "jsonrpc" kv = None
                    \/ lookup "jsonrpc" kv = Some (JStr "2.0")).
    { destruct (lookup "jsonrpc" kv) as [[|b|z|f|ver|l|d]|]; try done; [|by left].
      destruct (String.eqb ver "2.0") eqn:E; [|done].
      apply String.eqb_eq in E. subst. by right. }
    match goal with
    | Hi : validate_RpcId lax_int fresh_id kv = Some ?i |- _ =>
        assert (Hid : (lookup "id" kv = None -> i = IdStr fresh_id)
                      /\ (forall j, lookup "id" kv = Some j -> exact_id j = true ->
                            encode_RpcId i = j)
                      /\ (forall j, lookup "id" kv = Some j -> exact_id j = false ->
                            exists z, lax_int j = Some z /\ i = IdInt z));
        [unfold validate_RpcId in Hi;
         destruct (lookup "id" kv) as [[|b|z|f|sid|l|d]|];
         simpl in Hi;
         try (apply fmap_Some in Hi as (z' & Hz' & ->));
         simplify_eq;
         (split; [done|]);
         (split; intros j [= <-] Hex; try done; by eexists)
        | clear Hi]
    end.
    destruct Hid as (Hfresh & Hexact & Hlax).
    repeat case_match; try done;
      apply fmap_Some in H as (q & Hq & ->); simpl;
      repeat match goal with
             | E : String.eqb _ _ = true |- _ => apply String.eqb_eq in E; subst
             end;
      (split; [done|]); (split; [unfold methods; repeat constructor|]);
      (split; [done|]); (split; [done|]); (split; [done|]); (split; done).
  - intros Hnone. unfold required. by rewrite Hnone.
  - intros m Hm Hnot. unfold required. rewrite Hm. simpl.
    destruct (literal "2.0" "jsonrpc" kv); [|done]. simpl.
    destruct (validate_RpcId lax_int fresh_id kv); [|done]. simpl.
    unfold methods in Hnot.
    repeat (case_match;
            [match goal with
             | E : String.eqb _ _ = true |- _ =>
                 apply String.eqb_eq in E; subst; exfalso; apply Hnot;
                 repeat constructor
             end|]).
    done.
  - intros v Hv Hne. destruct (required dec_str "method" kv); [|done]. simpl.
    unfold literal. rewrite Hv.
    destruct (String.eqb_spec v "2.0"); [done|done].
Qed.

(** A task as a client may send it: no timestamp, no optional key, and a key
    the model does not know. *)
Definition sparse_task : json :=
  JDict [("id", JStr "t1"); ("colour", JStr "red");
         ("status", JDict [("state", JStr "working")])].

Definition sparse_task_decoded : Task iso_datetime :=
  mkTask iso_datetime "t1" None
    (mkTaskStatus iso_datetime WORKING None "2025-05-01T10:00:01") None None None.

Lemma decoded_values_survive_a_dump_witness :
  (forall dt, iso_parse (JStr (iso_format dt)) = Some dt)
  /\ decode_Task iso_datetime iso_parse "2025-05-01T10:00:01" sparse_task
     = Some sparse_task_decoded
  /\ decode_Task iso_datetime iso_parse "2025-05-01T10:00:01"
       (encode_Task iso_datetime iso_format sparse_task_decoded)
     = Some sparse_task_decoded.
Proof.
  assert (Hiso : forall dt, iso_parse (JStr (iso_format dt)) = Some dt)
    by reflexivity.
  split; [exact Hiso|]. split; [reflexivity|].
  destruct (decoded_values_survive_a_dump iso_datetime iso_format iso_parse
              "2025-05-01T10:00:01" "fresh-id" "fresh-session" Hiso)
    as (_ & _ & _ & _ & Htask & _).
  exact (Htask sparse_task sparse_task_decoded eq_refl).
Defined.

End TypesProps.

(** ** More of the task manager: what reaches the store, the agent and the
    event queue *)
Module TaskManagerProps.
Import Json Types TaskManager.

Section Manager.
Variable datetime : Type.
Variable now : datetime.
Variable Store : Type.
Variable upsert_task : Store -> TaskSendParams -> Store.
Variable update_store :
  Store -> string -> TaskStatus datetime -> list Artifact -> Store * Task datetime.
Variable append_task_history : Task datetime -> option Z -> Task datetime.
Variable store_push_notification_info :
  Store -> string -> PushNotificationConfig -> Store.
Variable get_push_notification_info : Store -> string -> option PushNotificationConfig.
Variable setup_sse_consumer : Store -> string -> bool -> Store.
Variable enqueue_events_for_sse : Store -> string -> SseEvent datetime -> Store.
Variable are_modalities_compatible : list string -> list string -> bool.
Variable verify_push_notification_url : string -> bool.
Variable invoke : string -> string -> Py.outcome AgentResponse.
Variable stream : string -> string -> list (bool * string) * option Py.exn.

Local Abbreviation World := (World datetime Store).
Local Abbreviation store := (store datetime Store).
Local Abbreviation effects := (effects datetime Store).
Local Abbreviation on_send_task :=
  (on_send_task datetime now Store upsert_task update_store append_task_history
     store_push_notification_info get_push_notification_info
     are_modalities_compatible verify_push_notification_url invoke).
Local Abbreviation on_send_task_subscribe :=
  (on_send_task_subscribe datetime Store upsert_task store_push_notification_info
     setup_sse_consumer are_modalities_compatible verify_push_notification_url).
Local Abbreviation _run_streaming_agent :=
  (_run_streaming_agent datetime now Store update_store
     get_push_notification_info enqueue_events_for_sse stream).
Local Abbreviation stream_item :=
  (stream_item datetime now Store update_store get_push_notification_info
     enqueue_events_for_sse).
Local Abbreviation _validate_request :=
  (_validate_request are_modalities_compatible).
Local Abbreviation send_task_notification :=
  (send_task_notification datetime Store get_push_notification_info).

Lemma send_task_notification_store (w : World) t :
  store (send_task_notification w t) = store w.
Proof.
  unfold TaskManager.send_task_notification. by case_match.
Qed.

Lemma send_task_notification_shape (w : World) t :
  exists sent,
    send_task_notification w t
    = mkWorld datetime Store (store w) (effects w ++ sent).
Proof.
  unfold TaskManager.send_task_notification. destruct w as [s e]. case_match.
  - by eexists [_].
  - exists []. by rewrite app_nil_r.
Qed.

Lemma send_task_notification_effects (w : World) t :
  exists sent, effects (send_task_notification w t) = effects w ++ sent
               /\ Forall (fun e => exists u, e = Notified datetime u t) sent.
Proof.
  unfold TaskManager.send_task_notification. case_match.
  - eexists [_]. split; [done|]. repeat constructor. by eexists.
  - exists []. by rewrite app_nil_r.
Qed.

(** X15. A request that is refused leaves nothing behind, with one
    exception.  When [_validate_request] refuses it, [tasks/send] and
    [tasks/sendSubscribe] answer with the error it returned and the world is
    as before; for a push configuration with an empty URL, once the output
    modes are compatible, that error is [InvalidParamsError], -32602.  When
    the push URL does not verify, [tasks/send] answers -32602 and the world
    is as before, while [tasks/sendSubscribe] has already upserted the task:
    it answers the same error, starts no background task, and the task stays
    in the store. *)
Theorem refused_requests_and_the_store (w : World) (params : TaskSendParams) :
  (forall error, _validate_request params = Some error ->
     on_send_task w params
     = (w, Py.Returned (Responded datetime None (Some error)))
     /\ on_send_task_subscribe w params
        = (w, Responded datetime None (Some error), false))
  /\ (forall push,
        are_modalities_compatible
          (default [] (acceptedOutputModes params)) SUPPORTED_CONTENT_TYPES = true ->
        pushNotification params = Some push -> url push = EmptyString ->
        _validate_request params
        = Some (InvalidParamsError "Push notification URL is missing")
        /\ code (InvalidParamsError "Push notification URL is missing")
           = (-32602)%Z)
  /\ (forall push,
        _validate_request params = None ->
        pushNotification params = Some push ->
        verify_push_notification_url (url push) = false ->
        let refusal :=
          Responded datetime None
            (Some (InvalidParamsError "Push notification URL is invalid")) in
        on_send_task w params = (w, Py.Returned refusal)
        /\ on_send_task_subscribe w params
           = (mkWorld datetime Store (upsert_task (store w) params) (effects w),
              refusal, false)).
Proof.
  split; [|split].
  - intros error Hv. unfold TaskManager.on_send_task,
      TaskManager.on_send_task_subscribe. rewrite Hv. done.
  - intros push Hmodes Hp Hurl. unfold TaskManager._validate_request.
    rewrite Hmodes, Hp, Hurl. done.
  - intros push Hv Hp Hurl. cbv zeta.
    unfold TaskManager.on_send_task, TaskManager.on_send_task_subscribe.
    rewrite Hv, Hp. unfold set_push_notification_info.
    cbn [url]. rewrite Hurl. done.
Qed.

(** *** The calls that reach the store

    The base class is not under [src/], so the manager is observed through
    its calls: the store is any store that keeps a log of the [update_store]
    calls and of the events put on the SSE queues, each operation adding to
    its own log only. *)
Variable updates : Store -> list (string * TaskStatus datetime * list Artifact).
Variable queue : Store -> list (string * SseEvent datetime).

Hypothesis update_store_updates : forall s task_id st arts,
  updates (fst (update_store s task_id st arts)) = updates s ++ [(task_id, st, arts)].
Hypothesis update_store_queue : forall s task_id st arts,
  queue (fst (update_store s task_id st arts)) = queue s.
Hypothesis enqueue_queue : forall s task_id ev,
  queue (enqueue_events_for_sse s task_id ev) = queue s ++ [(task_id, ev)].
Hypothesis upsert_updates : forall s params,
  updates (upsert_task s params) = updates s.
Hypothesis store_push_updates : forall s task_id config,
  updates (store_push_notification_info s task_id config) = updates s.

(** The status and artifacts [_process_agent_response] writes for an answer
    of the agent. *)
Definition answered (r : AgentResponse) : bool :=
  negb (default false (require_user_input r)) && default true (is_task_complete r).

Definition answer_parts (r : AgentResponse) : list Part :=
  [PText (mkTextPart (content r) None)].

Definition final_update (task_id : string) (r : AgentResponse)
  : string * TaskStatus datetime * list Artifact :=
  (task_id,
   mkTaskStatus datetime (if answered r then COMPLETED else FAILED)
     (Some (mkMessage agent (answer_parts r) None)) now,
   if answered r then [mkArtifact None None (answer_parts r) None 0 None None]
   else []).

(** The push configuration, if there is one, verifies. *)
Definition push_accepted (params : TaskSendParams) : Prop :=
  forall push, pushNotification params = Some push ->
               verify_push_notification_url (url push) = true.

(** The calls of the agent among the effects: everything but the push
    notifications. *)
Definition is_agent_call (e : Effect datetime) : bool :=
  match e with
  | Notified _ _ _ => false
  | _ => true
  end.

Definition agent_calls (sent : list (Effect datetime)) : list (Effect datetime) :=
  List.filter is_agent_call sent.

Lemma send_task_notification_calls (w : World) t :
  exists sent,
    send_task_notification w t
    = mkWorld datetime Store (store w) (effects w ++ sent)
    /\ agent_calls sent = [].
Proof.
  unfold TaskManager.send_task_notification. destruct w as [s e]. case_match.
  - by eexists [_].
  - exists []. by rewrite app_nil_r.
Qed.

(** X16. What [tasks/send] does for an accepted request whose first part is
    text.  The task is marked working and the agent is asked once, with that
    text and the session id: the handler adds effects to the log without
    touching the earlier ones, and the one call of the agent among them is
    this [invoke]; the others are push notifications.  Then: if the agent
    answers, one more update follows, completed with the answer as artifact
    when the answer neither asks for input nor says the task is incomplete,
    failed without artifact otherwise, and the handler returns a result; if
    the agent raises, the handler raises [ValueError], working is the last
    status written, and the call of the agent is the last effect. *)
Theorem send_task_updates (w : World) (params : TaskSendParams)
  (part : TextPart) (rest : list Part) :
  _validate_request params = None -> push_accepted params ->
  parts (tsp_message params) = PText part :: rest ->
  let out := on_send_task w params in
  let marked := (tsp_id params, mkTaskStatus datetime WORKING None now, []) in
  let asked := Invoked datetime (text part) (tsp_sessionId params) in
  (exists sent,
     effects (fst out) = effects w ++ sent
     /\ agent_calls sent = [asked]
     /\ (forall e, invoke (text part) (tsp_sessionId params) = Py.Raised e ->
           last sent = Some asked))
  /\ match invoke (text part) (tsp_sessionId params) with
     | Py.Returned r =>
         updates (store (fst out))
         = updates (store w) ++ [marked; final_update (tsp_id params) r]
         /\ exists t, snd out = Py.Returned (Responded datetime (Some t) None)
     | Py.Raised e =>
         updates (store (fst out)) = updates (store w) ++ [marked]
         /\ snd out
            = Py.Raised (Py.ValueError
                (String.append "调用智能体时发生错误: " (Py.str_of_exn e)))
     end.
Proof.
  intros Hv Hpush Hparts. cbv zeta. unfold TaskManager.on_send_task.
  rewrite Hv.
  assert (Hacc : exists w1,
    match pushNotification params with
    | Some push =>
        set_push_notification_info datetime Store store_push_notification_info
          verify_push_notification_url w (tsp_id params) push
    | None => (w, true)
    end = (w1, true)
    /\ updates (store w1) = updates (store w)
    /\ effects w1 = effects w).
  { destruct (pushNotification params) as [push|] eqn:Hp; [|by exists w].
    unfold set_push_notification_info. rewrite (Hpush push Hp). simpl.
    eexists. split; [done|]. simpl. split; [apply store_push_updates|done]. }
  destruct Hacc as ([s1 e1] & -> & Hw1 & He1). cbn [negb].
  unfold _get_user_query. rewrite Hparts.
  unfold _process_agent_response, with_store, with_effect.
  cbn [TaskManager.store TaskManager.effects] in *. subst e1.
  pose proof (update_store_updates (upsert_task s1 params) (tsp_id params)
                (mkTaskStatus datetime WORKING None now) []) as Hupd.
  rewrite upsert_updates, Hw1 in Hupd.
  destruct (update_store (upsert_task s1 params) (tsp_id params)
              (mkTaskStatus datetime WORKING None now) []) as [s2 t2].
  cbn [fst] in Hupd.
  destruct (send_task_notification_calls
              (mkWorld datetime Store s2 (effects w)) t2)
    as (sent1 & -> & Hsent1).
  cbn [TaskManager.store TaskManager.effects].
  destruct (invoke (text part) (tsp_sessionId params)) as [r|e] eqn:Hinv.
  - pose proof (update_store_updates s2 (tsp_id params)
                  (mkTaskStatus datetime (if answered r then COMPLETED else FAILED)
                     (Some (mkMessage agent (answer_parts r) None)) now)
                  (if answered r
                   then [mkArtifact None None (answer_parts r) None 0 None None]
                   else [])) as Hfin.
    unfold final_update.
    unfold answered, answer_parts in *.
    destruct (update_store s2 _ _ _) as [s3 t3].
    cbn [fst] in Hfin.
    match goal with
    | |- context [send_task_notification ?w0 t3] =>
        destruct (send_task_notification_calls w0 t3) as (sent2 & -> & Hsent2)
    end.
    cbn [fst snd TaskManager.store TaskManager.effects].
    split; [|split].
    + exists (sent1 ++ [Invoked datetime (text part) (tsp_sessionId params)]
                ++ sent2).
      split; [by rewrite <- !app_assoc|]. split; [|done].
      unfold agent_calls in *. rewrite !List.filter_app, Hsent1, Hsent2. done.
    + rewrite Hfin, Hupd, <- app_assoc. done.
    + by eexists.
  - cbn [fst snd TaskManager.store TaskManager.effects].
    split; [|split; [|done]].
    + exists (sent1 ++ [Invoked datetime (text part) (tsp_sessionId params)]).
      split; [by rewrite <- app_assoc|]. split.
      * unfold agent_calls in *. rewrite List.filter_app, Hsent1. done.
      * intros _ _. apply last_snoc.
    + done.
Qed.

(** The events one item of the agent's stream puts on the queue. *)
Definition item_events (task_id : string) (item : bool * string)
  : list (string * SseEvent datetime) :=
  let parts := [PText (mkTextPart (snd item) None)] in
  if fst item then
    [(task_id,
      ArtifactEvent datetime
        (mkTaskArtifactUpdateEvent task_id
           (mkArtifact None None parts None 0 (Some false) None) None));
     (task_id,
      StatusEvent datetime
        (mkTaskStatusUpdateEvent datetime task_id
           (mkTaskStatus datetime COMPLETED None now) true None))]
  else
    [(task_id,
      StatusEvent datetime
        (mkTaskStatusUpdateEvent datetime task_id
           (mkTaskStatus datetime WORKING (Some (mkMessage agent parts None)) now)
           false None))].

Definition failure_events (task_id : string) (failure : option Py.exn)
  : list (string * SseEvent datetime) :=
  match failure with
  | Some e =>
      [(task_id,
        ErrorEvent datetime
          (InternalError
             (String.append "流式响应处理过程中发生错误: " (Py.str_of_exn e))))]
  | None => []
  end.

Lemma stream_item_queue params (w : World) item :
  queue (store (stream_item params w item))
  = queue (store w) ++ item_events (tsp_id params) item.
Proof.
  destruct item as [complete txt]. destruct w as [s0 e0].
  unfold TaskManager.stream_item, item_events, with_store.
  cbn [fst snd TaskManager.store TaskManager.effects].
  pose proof (fun st arts => update_store_queue s0 (tsp_id params) st arts) as Hq.
  destruct complete.
  - specialize (Hq (mkTaskStatus datetime COMPLETED None now)
                  [mkArtifact None None [PText (mkTextPart txt None)] None 0
                     (Some false) None]).
    destruct (update_store s0 _ _ _) as [s1 t1]. cbn [fst] in Hq.
    destruct (send_task_notification_shape (mkWorld datetime Store s1 e0) t1)
      as (sent & ->).
    cbn [TaskManager.store TaskManager.effects].
    rewrite !enqueue_queue, Hq, <- app_assoc. done.
  - specialize (Hq (mkTaskStatus datetime WORKING
                      (Some (mkMessage agent [PText (mkTextPart txt None)] None)) now)
                  []).
    destruct (update_store s0 _ _ _) as [s1 t1]. cbn [fst] in Hq.
    destruct (send_task_notification_shape (mkWorld datetime Store s1 e0) t1)
      as (sent & ->).
    cbn [TaskManager.store TaskManager.effects].
    by rewrite enqueue_queue, Hq.
Qed.

Lemma stream_items_queue params items : forall w : World,
  queue (store (fold_left (stream_item params) items w))
  = queue (store w) ++ concat (map (item_events (tsp_id params)) items).
Proof.
  induction items as [|item items IH]; intros w; simpl.
  - by rewrite app_nil_r.
  - by rewrite IH, stream_item_queue, <- app_assoc.
Qed.

(** X17. What the background task of [tasks/sendSubscribe] puts on the
    task's event queue when the first part of the message is text.  The
    agent's stream is read to its end, and every item gives its events in
    order: an item that is not complete gives one working status event with
    the text as message; a complete item gives an artifact event with the
    text and then a completed status event marked final.  If the stream
    breaks, one internal-error event follows the events of the items that
    came before.  The task itself never raises. *)
Theorem streamed_items_reach_the_queue (w : World) (params : TaskSendParams)
  (part : TextPart) (rest : list Part) :
  parts (tsp_message params) = PText part :: rest ->
  let run := stream (text part) (tsp_sessionId params) in
  let out := _run_streaming_agent w params in
  snd out = Py.Returned tt
  /\ queue (store (fst out))
     = queue (store w)
       ++ concat (map (item_events (tsp_id params)) (fst run))
       ++ failure_events (tsp_id params) (snd run)
  /\ (exists sent,
        effects (fst out)
        = effects w
          ++ Streamed datetime (text part) (tsp_sessionId params) :: sent).
Proof.
  intros Hparts. cbv zeta. unfold TaskManager._run_streaming_agent, _get_user_query.
  rewrite Hparts.
  destruct (stream (text part) (tsp_sessionId params)) as [items failure].
  cbn [fst snd].
  set (w1 := with_effect datetime Store w _).
  pose proof (stream_items_queue params items w1) as Hq.
  assert (Heff : exists sent,
    effects (fold_left (stream_item params) items w1) = effects w1 ++ sent).
  { clear Hq. generalize w1. induction items as [|item items IH]; intros w0; simpl.
    - exists []. by rewrite app_nil_r.
    - destruct (IH (stream_item params w0 item)) as (sent & ->).
      assert (exists sent0, effects (stream_item params w0 item) = effects w0 ++ sent0)
        as (sent0 & ->).
      { destruct item as [complete txt]. destruct w0 as [s0 e0].
        unfold TaskManager.stream_item, with_store.
        cbn [TaskManager.store TaskManager.effects].
        destruct (update_store s0 _ _ _) as [s1' t1'].
        destruct (send_task_notification_shape (mkWorld datetime Store s1' e0) t1')
          as (sent1 & ->).
        destruct complete; cbn [TaskManager.store TaskManager.effects];
          by eexists. }
      exists (sent0 ++ sent). by rewrite app_assoc. }
  destruct Heff as (sent & Heff).
  assert (Hw1 : queue (store w1) = queue (store w) /\
                effects w1
                = effects w ++ [Streamed datetime (text part) (tsp_sessionId params)]).
  { by destruct w. }
  destruct Hw1 as [Hq1 He1].
  destruct failure as [e|]; cbn [fst snd failure_events
                                  TaskManager.store TaskManager.effects with_store].
  - split; [done|]. split.
    + by rewrite enqueue_queue, Hq, Hq1, <- app_assoc.
    + exists sent. rewrite Heff, He1, <- app_assoc. done.
  - split; [done|]. split.
    + by rewrite Hq, Hq1, app_nil_r.
    + exists sent. rewrite Heff, He1, <- app_assoc. done.
Qed.

End Manager.

(** *** A store that is nothing but the two logs *)

Definition LogStore : Type :=
  (list (string * TaskStatus string * list Artifact)
   * list (string * SseEvent string))%type.

Definition log_update (s : LogStore) (task_id : string) (st : TaskStatus string)
  (arts : list Artifact) : LogStore * Task string :=
  ((fst s ++ [(task_id, st, arts)], snd s),
   mkTask string task_id None st (Some arts) None None).

Definition log_enqueue (s : LogStore) (task_id : string) (ev : SseEvent string)
  : LogStore :=
  (fst s, snd s ++ [(task_id, ev)]).

Definition ping : TaskSendParams :=
  mkTaskSendParams "t1" "s1"
    (mkMessage user [PText (mkTextPart "ping" None)] None) (Some ["text"])
    None None None.

(** An agent that asks for more input, and one that streams two items and
    then breaks. *)
Definition asking_agent (query session : string) : Py.outcome AgentResponse :=
  Py.Returned (mkAgentResponse "which element?" (Some true) (Some false)).

Definition breaking_stream (query session : string)
  : list (bool * string) * option Py.exn :=
  ([(false, "looking"); (true, String.append "echo: " query)],
   Some (Py.OtherError "connection lost")).

Definition log_world : World string LogStore := mkWorld string LogStore ([], []) [].

Lemma send_task_updates_witness :
  fst (store string LogStore
         (fst (on_send_task string "2025-05-01T10:00:01" LogStore
                 (fun s _ => s) log_update (fun t _ => t) (fun s _ _ => s)
                 (fun _ _ => None) (fun _ _ => true) (fun _ => true)
                 asking_agent log_world ping)))
  = [("t1", mkTaskStatus string WORKING None "2025-05-01T10:00:01", []);
     ("t1",
      mkTaskStatus string FAILED
        (Some (mkMessage agent [PText (mkTextPart "which element?" None)] None))
        "2025-05-01T10:00:01", [])]
  /\ agent_calls string
       (effects string LogStore
          (fst (on_send_task string "2025-05-01T10:00:01" LogStore
                  (fun s _ => s) log_update (fun t _ => t) (fun s _ _ => s)
                  (fun _ _ => None) (fun _ _ => true) (fun _ => true)
                  asking_agent log_world ping)))
     = [Invoked string "ping" "s1"].
Proof.
  pose proof (send_task_updates string "2025-05-01T10:00:01" LogStore
                (fun s _ => s) log_update (fun t _ => t) (fun s _ _ => s)
                (fun _ _ => None) (fun _ _ => true) (fun _ => true)
                asking_agent fst
                (fun _ _ _ _ => eq_refl) (fun _ _ => eq_refl)
                (fun _ _ _ => eq_refl)
                log_world ping (mkTextPart "ping" None) []
                eq_refl (fun _ _ => eq_refl) eq_refl) as H.
  cbv zeta in H. destruct H as [(sent & Heff & Hcalls & _) Hupd].
  split; [exact (proj1 Hupd)|].
  rewrite Heff. exact Hcalls.
Defined.

Lemma streamed_items_witness :
  snd (store string LogStore
         (fst (_run_streaming_agent string "2025-05-01T10:00:01" LogStore
                 log_update (fun _ _ => None) log_enqueue breaking_stream
                 log_world ping)))
  = [("t1",
      StatusEvent string
        (mkTaskStatusUpdateEvent string "t1"
           (mkTaskStatus string WORKING
              (Some (mkMessage agent [PText (mkTextPart "looking" None)] None))
              "2025-05-01T10:00:01") false None));
     ("t1",
      ArtifactEvent string
        (mkTaskArtifactUpdateEvent "t1"
           (mkArtifact None None [PText (mkTextPart "echo: ping" None)] None 0
              (Some false) None) None));
     ("t1",
      StatusEvent string
        (mkTaskStatusUpdateEvent string "t1"
           (mkTaskStatus string COMPLETED None "2025-05-01T10:00:01") true None));
     ("t1",
      ErrorEvent string
        (InternalError
           (String.append "流式响应处理过程中发生错误: " "connection lost")))].
Proof.
  exact (proj1 (proj2 (streamed_items_reach_the_queue string "2025-05-01T10:00:01"
                  LogStore log_update (fun _ _ => None) log_enqueue
                  breaking_stream snd
                  (fun _ _ _ _ => eq_refl) (fun _ _ _ => eq_refl)
                  log_world ping (mkTextPart "ping" None) [] eq_refl))).
Defined.

End TaskManagerProps.

(** ** More of the verdict cache: when [set] fails, what it changes, and what
    [get] finds afterwards *)
Module CacheProps.
Import Str Main MainSpec.

Section Cache.
Variable lower : str -> str.
Variable isspace : N -> bool.
Variable Result : Type.

Local Abbreviation _normalize_query := (_normalize_query lower isspace).
Local Abbreviation get := (get lower isspace Result).
Local Abbreviation set := (set lower isspace Result).
Local Abbreviation calls := (calls lower isspace Result).
Local Abbreviation dict_get := (dict_get Result).
Local Abbreviation dict_set := (dict_set Result).
Local Abbreviation dict_del := (dict_del Result).
Local Abbreviation cache := (cache Result).
Local Abbreviation max_size := (max_size Result).
Local Abbreviation ttl := (ttl Result).

Lemma eqb_neq (a b : str) : eqb a b = false <-> a <> b.
Proof.
  split.
  - intros E ->. by rewrite eqb_refl in E.
  - intros Hne. destruct (eqb a b) eqn:E; [|done]. by apply eqb_eq in E.
Qed.

Lemma dict_get_set_other entries key key' entry :
  key' <> key ->
  dict_get key' (dict_set key entry entries) = dict_get key' entries.
Proof.
  intros Hne. induction entries as [|[k e'] entries IH]; simpl.
  - by rewrite (proj2 (eqb_neq key key')).
  - destruct (eqb k key) eqn:E; simpl; [|by rewrite IH].
    apply eqb_eq in E. subst k. by rewrite (proj2 (eqb_neq key key')).
Qed.

Lemma dict_get_del_other entries key key' :
  key' <> key ->
  dict_get key' (dict_del key entries) = dict_get key' entries.
Proof.
  intros Hne. induction entries as [|[k e'] entries IH]; simpl; [done|].
  destruct (eqb k key) eqn:E; simpl.
  - apply eqb_eq in E. subst k. by rewrite (proj2 (eqb_neq key key')).
  - by rewrite IH.
Qed.

Lemma dict_set_length_stored entries key entry old :
  dict_get key entries = Some old ->
  length (dict_set key entry entries) = length entries.
Proof.
  induction entries as [|[k e'] entries IH]; simpl; [done|].
  destruct (eqb k key); simpl; [done|]. intros H. by rewrite IH.
Qed.

Lemma dict_set_length_new entries key entry :
  dict_get key entries = None ->
  length (dict_set key entry entries) = S (length entries).
Proof.
  induction entries as [|[k e'] entries IH]; simpl; [done|].
  destruct (eqb k key); simpl; [done|]. intros H. by rewrite IH.
Qed.

(** X18. [set] fails in one situation only: the cache is empty and has no
    room at all ([max_size <= 0]), where [min] is taken of no keys and raises
    [ValueError].  In every other state it stores the verdict; in particular
    the global cache, with room for 100, never fails, whatever calls came
    before. *)
Theorem set_raises_only_without_room (c : QueryCache Result) (query : str)
  (r : Result) (now : float) :
  (Py.returned (set c query r now) = false
   <-> (max_size c <= 0)%Z /\ cache c = [])
  /\ (forall e, set c query r now = Py.Raised e ->
        e = Py.ValueError "min() arg is an empty sequence")
  /\ (forall ops,
        Py.returned (set (calls (query_cache Result) ops) query r now) = true).
Proof.
  assert (Hiff : Py.returned (set c query r now) = false
                 <-> (max_size c <= 0)%Z /\ cache c = []).
  { rewrite set_unfold. cbv zeta. unfold len_entries.
    destruct (_ <=? _)%Z eqn:Hfull.
    - apply Z.leb_le in Hfull.
      destruct (cache c) as [|x rest] eqn:Hc; simpl in *.
      + split; [intros _; split; [lia|done] | done].
      + split; [done | intros [_ ?]; done].
    - apply Z.leb_gt in Hfull. split; [done|].
      intros [Hm Hc]. fold cache in Hfull. rewrite Hc in Hfull. simpl in Hfull. lia. }
  split; [exact Hiff|]. split.
  - intros e. rewrite set_unfold. cbv zeta.
    destruct (_ <=? _)%Z; [|done].
    destruct (Main.cache Result c); [by intros [= <-] | done].
  - intros ops.
    assert (Hmax : forall ops' (c0 : QueryCache Result),
      (len_entries Result (cache c0) <= max_size c0)%Z ->
      max_size (calls c0 ops') = max_size c0).
    { induction ops' as [|op ops' IH]; intros c0 Hb; [done|].
      unfold Main.calls in *. simpl.
      destruct (call_bound lower isspace Result c0 op Hb) as [Hb' Hm'].
      rewrite IH by done. exact Hm'. }
    destruct (Py.returned (Main.set lower isspace Result
                (calls (query_cache Result) ops) query r now)) eqn:E; [done|].
    exfalso. revert E.
    assert (Hq : (max_size (calls (query_cache Result) ops) = 100)%Z).
    { rewrite Hmax; [done|]. unfold len_entries. simpl. lia. }
    rewrite set_unfold. cbv zeta. unfold len_entries.
    destruct (_ <=? _)%Z eqn:Hfull; [|done].
    apply Z.leb_le in Hfull.
    destruct (Main.cache Result (calls (query_cache Result) ops)) eqn:Hc; [|done].
    fold max_size in Hfull. rewrite Hq in Hfull. simpl in Hfull. lia.
Qed.

(** X19. A verdict stored with [set] is what [get] answers afterwards, for
    the query itself and for every query with the same normal form, as long
    as the reading falls within the time to live: [current_time - now <= ttl].
    The hit leaves the cache as it is.  Past that, the same [get] answers
    [None] and takes the entry out. *)
Theorem set_then_get (c c' : QueryCache Result) (query query' : str)
  (r : Result) (now current_time : float) :
  set c query r now = Py.Returned c' ->
  _normalize_query query' = _normalize_query query ->
  (PrimFloat.leb (PrimFloat.sub current_time now) (ttl c) = true ->
   get c' query' current_time = (c', Some r))
  /\ (PrimFloat.leb (PrimFloat.sub current_time now) (ttl c) = false ->
      get c' query' current_time
      = (with_cache Result c' (dict_del (_normalize_query query) (cache c')), None)
        /\ length (cache (fst (get c' query' current_time))) < length (cache c')).
Proof.
  intros Hset Hnorm.
  assert (Hstored : dict_get (_normalize_query query) (cache c')
                    = Some (mkEntry Result r now) /\ ttl c' = ttl c).
  { revert Hset. rewrite set_unfold. cbv zeta.
    destruct (_ <=? _)%Z; [destruct (Main.cache Result c) as [|x rest]; [done|]|];
      intros [= <-]; simpl; by rewrite dict_get_set. }
  destruct Hstored as [Hget Httl].
  unfold Main.get. rewrite Hnorm, Hget, Httl. simpl.
  split; intros ->; [done|]. split; [done|]. simpl.
  assert (Hin : forall entries key entry,
    dict_get key entries = Some entry ->
    length (dict_del key entries) < length entries).
  { induction entries as [|[k e'] entries IH]; intros key entry; simpl; [done|].
    destruct (eqb k key); simpl; [lia|]. intros H. apply IH in H. lia. }
  by apply (Hin _ _ _ Hget).
Qed.

(** X20. What [set] changes.  Below [max_size] nothing is evicted: every
    other key reads as before, and the cache grows by one entry for a new key
    and keeps its size for a stored one.  At [max_size] the oldest entry goes
    first, also when the key written is already stored: unless that key is
    the victim itself, the cache then ends up one entry smaller than it was,
    and every key other than the victim's and the one written reads as
    before. *)
Theorem what_set_changes (c c' : QueryCache Result) (query : str) (r : Result)
  (now : float) :
  let key := _normalize_query query in
  set c query r now = Py.Returned c' ->
  ((len_entries Result (cache c) < max_size c)%Z ->
   (forall key', key' <> key -> dict_get key' (cache c') = dict_get key' (cache c))
   /\ length (cache c')
      = match dict_get key (cache c) with
        | Some _ => length (cache c)
        | None => S (length (cache c))
        end)
  /\ ((max_size c <= len_entries Result (cache c))%Z ->
      exists victim,
        oldest Result (cache c) = Py.Returned victim
        /\ (forall key', key' <> key -> key' <> fst victim ->
              dict_get key' (cache c') = dict_get key' (cache c))
        /\ (forall old, dict_get key (cache c) = Some old -> fst victim <> key ->
              S (length (cache c')) = length (cache c))
        /\ (dict_get key (cache c) = None ->
              length (cache c') <= length (cache c))).
Proof.
  intros key. rewrite set_unfold. cbv zeta. fold key.
  destruct (_ <=? _)%Z eqn:Hfull.
  - apply Z.leb_le in Hfull.
    destruct (Main.cache Result c) as [|x rest] eqn:Hc; [done|].
    pose proof (min_from_in Result x rest) as Hin.
    assert (Hold : oldest Result (x :: rest)
                   = Py.Returned (min_from Result x rest)) by done.
    remember (x :: rest) as entries eqn:Hentries.
    intros [= <-]. split; [intros Hlt; lia|].
    intros _. exists (min_from Result x rest). split; [exact Hold|].
    destruct (min_from Result x rest) as [vk ve].
    change (fst (vk, ve)) with vk.
    pose proof (dict_del_length Result _ _ _ Hin) as Hdel.
    unfold with_cache. cbn [Main.cache].
    split; [|split].
    + intros key' Hk Hv.
      by rewrite dict_get_set_other, dict_get_del_other.
    + intros old Hstored Hv.
      rewrite (dict_set_length_stored _ _ _ old); [exact Hdel|].
      rewrite dict_get_del_other by done. exact Hstored.
    + intros Hnone.
      pose proof (MainSpec.dict_set_length Result (dict_del vk entries) key
                    (mkEntry Result r now)) as Hset.
      lia.
  - apply Z.leb_gt in Hfull. intros [= <-]. split; [|intros Hge; lia].
    intros _. cbn [Main.cache with_cache]. split.
    + intros key' Hk. by apply dict_get_set_other.
    + destruct (dict_get key (cache c)) as [old|] eqn:Hold.
      * by apply (dict_set_length_stored _ _ _ old).
      * by apply dict_set_length_new.
Qed.

End Cache.

(** *** A full cache of two entries, and a write to the newer one *)

Definition pair_cache : QueryCache string :=
  mkQueryCache string
    [(u "a", mkEntry string "verdict a" 1); (u "b", mkEntry string "verdict b" 2)]
    2 3600.

Definition rewritten : QueryCache string :=
  mkQueryCache string [(u "b", mkEntry string "new b" 3)] 2 3600.

Lemma set_then_get_witness :
  Main.set ascii_lower ascii_isspace string pair_cache (u " B ") "new b" 3
  = Py.Returned rewritten
  /\ Main.get ascii_lower ascii_isspace string rewritten (u "b") 4
     = (rewritten, Some "new b").
Proof.
  assert (Hset : Main.set ascii_lower ascii_isspace string pair_cache (u " B ")
                   "new b" 3 = Py.Returned rewritten) by reflexivity.
  split; [exact Hset|].
  apply (proj1 (set_then_get ascii_lower ascii_isspace string pair_cache rewritten
                  (u " B ") (u "b") "new b" 3 4 Hset eq_refl)).
  reflexivity.
Defined.

Lemma what_set_changes_witness :
  Main.set ascii_lower ascii_isspace string pair_cache (u " B ") "new b" 3
  = Py.Returned rewritten
  /\ exists victim,
       oldest string (cache string pair_cache) = Py.Returned victim
       /\ fst victim = u "a"
       /\ S (length (cache string rewritten)) = length (cache string pair_cache).
Proof.
  assert (Hset : Main.set ascii_lower ascii_isspace string pair_cache (u " B ")
                   "new b" 3 = Py.Returned rewritten) by reflexivity.
  split; [exact Hset|].
  destruct (proj2 (what_set_changes ascii_lower ascii_isspace string pair_cache
                     rewritten (u " B ") "new b" 3 Hset))
    as (victim & Hvictim & _ & Hshrink & _).
  { vm_compute. discriminate. }
  exists victim. split; [exact Hvictim|].
  assert (Hv : victim = (u "a", mkEntry string "verdict a" 1)).
  { assert (H0 : oldest string (cache string pair_cache)
                 = Py.Returned (u "a", mkEntry string "verdict a" 1))
      by reflexivity.
    congruence. }
  split; [by rewrite Hv|].
  apply (Hshrink (mkEntry string "verdict b" 2)); [reflexivity|].
  rewrite Hv. vm_compute. discriminate.
Defined.

End CacheProps.

(** ** More of the agent selection: the arbiter's failures, and the context
    window *)
Module AppProps.
Import Str App.

(** X21. [execute] never sees the arbiter fail, as long as the keyword scorer
    itself returns: [analyze_request] catches the failure of the model call
    and answers with the scorer's pick, which [execute] then takes for an
    agreement.  So the decision is never labelled as a fallback; after a
    failed model call the pick is the scorer's with the confidence raised to
    [max(keyword_confidence, 0.85)] and the label of an agreement; and after
    a reply of the model the arbiter's vote is "currency" when the lowercased
    reply contains that word and "element" for any other reply. *)
Theorem select_never_reports_a_model_failure
  (lower : str -> str) (isspace : N -> bool)
  (analyze_request_by_keywords : str -> string * float)
  (ainvoke : str -> Py.outcome str) (user_input : str) :
  let d := select lower isspace analyze_request_by_keywords ainvoke user_input in
  let keyword_result := fst (analyze_request_by_keywords user_input) in
  let keyword_confidence := snd (analyze_request_by_keywords user_input) in
  decision_method d <> "关键词 (LLM失败)"
  /\ (forall e, ainvoke user_input = Py.Raised e ->
        d = mkDecision keyword_result (Py.max keyword_confidence 0.85) "一致结果")
  /\ (forall content, ainvoke user_input = Py.Returned content ->
        d = combine keyword_result keyword_confidence
              (Py.Returned
                 (if isin (u "currency") (strip isspace (lower content))
                  then "currency" else "element")))
  /\ (agent_type d = keyword_result
      \/ agent_type d = "currency" \/ agent_type d = "element").
Proof.
  cbv zeta. unfold select, analyze_request.
  destruct (analyze_request_by_keywords user_input) as [kr kc]. cbn [fst snd].
  split; [|split; [|split]].
  - unfold combine. by repeat case_match.
  - intros e ->. unfold combine. by rewrite String.eqb_refl.
  - by intros content ->.
  - unfold combine. repeat case_match; simpl; auto.
Qed.

(** *** [str.find] and the window *)

Lemma startswith_app (text sub : str) :
  startswith text sub = true <-> exists rest, text = sub ++ rest.
Proof.
  revert text. induction sub as [|c sub IH]; intros text; simpl.
  - split; [intros _; by exists text | by destruct text].
  - destruct text as [|d text]; [split; [done | by intros [rest ?]]|].
    simpl. rewrite andb_true_iff, N.eqb_eq, IH. split.
    + intros [-> [rest ->]]. by exists rest.
    + intros [rest [= -> ->]]. split; [done | by exists rest].
Qed.

Lemma find_unfold (text sub : str) :
  find text sub
  = if startswith text sub then Some 0
    else match text with
         | [] => None
         | _ :: rest => S <$> find rest sub
         end.
Proof. by destruct text. Qed.

Lemma find_Some (text sub : str) pos :
  find text sub = Some pos ->
  exists rest, text = take pos text ++ sub ++ rest /\ pos <= length text.
Proof.
  revert pos. induction text as [|c text IH]; intros pos;
    rewrite find_unfold;
    (destruct (startswith _ sub) eqn:E;
       [intros H; injection H as <-; apply startswith_app in E as [rest E];
        exists rest; split; [by rewrite E | simpl; lia]|]).
  - done.
  - destruct (find text sub) as [p|] eqn:Hf; [|done]. simpl.
    intros H. injection H as <-. destruct (IH p eq_refl) as (rest & Ht & Hp).
    exists rest. simpl. split; [by rewrite <- Ht | lia].
Qed.

Lemma find_occurs (before sub rest : str) :
  exists pos, find (before ++ sub ++ rest) sub = Some pos.
Proof.
  induction before as [|c before [pos IH]]; rewrite find_unfold.
  - assert (E : startswith ([] ++ sub ++ rest) sub = true)
      by (apply startswith_app; by exists rest).
    rewrite E. by eexists.
  - destruct (startswith _ sub); [by eexists|].
    simpl. rewrite IH. by eexists.
Qed.

Lemma score_window_verdict lower window_text term :
  score_window lower window_text term = "currency"
  \/ score_window lower window_text term = "element".
Proof. unfold score_window. repeat case_match; auto. Qed.

(** X22. The context window of [app.py].  The analysis answers "unknown"
    exactly when the term does not occur in the text, and "currency" or
    "element" otherwise.  When the term occurs, the window is a piece of the
    text that contains the term, with at most 50 characters on either side of
    its first occurrence; a text of at most 50 characters is its own
    window. *)
Theorem context_window_holds_the_term (lower : str -> str) (text term : str) :
  (analyze_ambiguous_term_context lower text term = "unknown"
   <-> isin term text = false)
  /\ (isin term text = true ->
      analyze_ambiguous_term_context lower text term = "currency"
      \/ analyze_ambiguous_term_context lower text term = "element")
  /\ (forall w, context_window text term = Some w ->
        isin term w = true
        /\ (exists before after, text = before ++ w ++ after)
        /\ (Z.of_nat (length w) <= len term + 100)%Z
        /\ ((len text <= 50)%Z -> w = text)).
Proof.
  unfold analyze_ambiguous_term_context, context_window, isin.
  split; [|split].
  - destruct (find text term) as [pos|]; [|done].
    destruct (score_window_verdict lower
                (slice text (Z.max 0 (Z.of_nat pos - window_size))
                   (Z.min (len text) (Z.of_nat pos + len term + window_size)))
                term) as [-> | ->]; done.
  - destruct (find text term) as [pos|]; [|done]. intros _.
    apply score_window_verdict.
  - intros w. destruct (find text term) as [pos|] eqn:Hfind; [|done].
    intros [= <-]. apply find_Some in Hfind as (rest & Htext & Hpos).
    unfold slice, len, window_size in *.
    set (start := Z.to_nat (Z.max 0 (Z.of_nat pos - 50))).
    set (stop := Z.to_nat (Z.min (Z.of_nat (length text))
                             (Z.of_nat pos + Z.of_nat (length term) + 50))).
    assert (Hlen : length text = pos + length term + length rest).
    { rewrite Htext at 1. rewrite !length_app, length_take. lia. }
    assert (Hstart : start <= pos) by lia.
    assert (Hstop : pos + length term <= stop /\ stop <= length text) by lia.
    split; [|split; [|split]].
    + assert (Hw : take (stop - start) (drop start text)
                   = drop start (take pos text) ++ term
                     ++ take (stop - pos - length term) rest).
      { rewrite Htext at 1.
        rewrite drop_app_le by (rewrite length_take; lia).
        rewrite take_app_ge by (rewrite length_drop, length_take; lia).
        f_equal. rewrite length_drop, length_take.
        rewrite take_app_ge by lia. f_equal. f_equal. lia. }
      rewrite Hw. by destruct (find_occurs (drop start (take pos text)) term
                                 (take (stop - pos - length term) rest)) as [p ->].
    + exists (take start text), (drop (stop - start) (drop start text)).
      by rewrite take_drop, take_drop.
    + rewrite length_take. lia.
    + intros Hshort.
      assert (start = 0) as -> by lia.
      assert (stop = length text) as -> by lia.
      rewrite drop_0, Nat.sub_0_r. apply firstn_all.
Qed.

End AppProps.
